(** * semantic-push: the daily signal scanner, embedded and verified

    A shallow embedding of [app/services/strategy_engine.py],
    [app/services/fmp_client.py], [app/api/routes.py] and the tables of
    [app/db/models.py], followed by the theorems that settle the claims of
    the specification against that code.

    Conventions of the embedding:
    - Python [str] is [string]; [datetime.date] is a record of year, month
      and day; instants ([datetime]) are integers on one clock.
    - [decimal.Decimal] is a coefficient and an exponent, with the default
      context of the [decimal] module (28 significant digits, round half
      even) written out.
    - A table is the list of its rows in insertion order; statements are
      functions on the tables they touch.
    - A call that can raise returns a sum type whose error constructor is
      the raised exception. *)

From Stdlib Require Import ZArith QArith Qpower Lqa List String Ascii Bool Lia Arith.
From Stdlib Require Import DecimalString.
Import ListNotations.

Close Scope Q_scope.
Open Scope string_scope.
Open Scope Z_scope.

(* ===================================================================== *)
(** * Part I: definitions                                                 *)
(* ===================================================================== *)

(** ** Dates ([datetime.date]) *)

Record date : Type := mkdate { year : Z; month : Z; day : Z }.

Definition is_leap (y : Z) : bool :=
  (y mod 4 =? 0) && (negb (y mod 100 =? 0) || (y mod 400 =? 0)).

(** [_days_in_month] *)
Definition days_in_month (y m : Z) : Z :=
  match m with
  | 1 => 31 | 2 => if is_leap y then 29 else 28 | 3 => 31 | 4 => 30
  | 5 => 31 | 6 => 30 | 7 => 31 | 8 => 31 | 9 => 30 | 10 => 31
  | 11 => 30 | 12 => 31 | _ => 0
  end.

(** The range check of the [date] constructor: MINYEAR = 1, MAXYEAR = 9999. *)
Definition valid_date (d : date) : Prop :=
  1 <= year d <= 9999 /\ 1 <= month d <= 12 /\
  1 <= day d <= days_in_month (year d) (month d).

Definition valid_dateb (d : date) : bool :=
  (1 <=? year d) && (year d <=? 9999) && (1 <=? month d) && (month d <=? 12)
  && (1 <=? day d) && (day d <=? days_in_month (year d) (month d)).

(** [_days_before_year], [_days_before_month] and [date.toordinal]. *)
Definition days_before_year (y : Z) : Z :=
  let y1 := y - 1 in y1 * 365 + y1 / 4 - y1 / 100 + y1 / 400.

Definition _DAYS_BEFORE_MONTH (m : Z) : Z :=
  match m with
  | 1 => 0 | 2 => 31 | 3 => 59 | 4 => 90 | 5 => 120 | 6 => 151 | 7 => 181
  | 8 => 212 | 9 => 243 | 10 => 273 | 11 => 304 | 12 => 334 | _ => -1
  end.

Definition days_before_month (y m : Z) : Z :=
  _DAYS_BEFORE_MONTH m + (if (2 <? m) && is_leap y then 1 else 0).

Definition toordinal (d : date) : Z :=
  days_before_year (year d) + days_before_month (year d) (month d) + day d.

(** [(a - b).days] *)
Definition days_between (a b : date) : Z := toordinal a - toordinal b.

(** ["%d" % n] *)
Definition str_int (n : Z) : string := NilZero.string_of_int (Z.to_int n).

Fixpoint zeros (k : nat) : string :=
  match k with O => "" | S k' => String "0" (zeros k') end.

(** ["%0wd" % n] for [n >= 0]: at least [w] digits, padded on the left
    with zeros. *)
Definition zfill (w : nat) (n : Z) : string :=
  let s := str_int n in zeros (w - String.length s) ++ s.

(** [date.isoformat()]: ["%04d-%02d-%02d" % (year, month, day)]. *)
Definition isoformat (d : date) : string :=
  zfill 4 (year d) ++ "-" ++ zfill 2 (month d) ++ "-" ++ zfill 2 (day d).

(** Reading a zero-padded field back. *)
Definition read_int (s : string) : Z :=
  match NilZero.int_of_string s with
  | Some u => Z.of_int u
  | None => -1
  end.

Definition zfill_ok (w : nat) (bound : nat) : bool :=
  forallb (fun k => let n := Z.of_nat k in
                    (String.length (zfill w n) =? w)%nat
                    && (read_int (zfill w n) =? n)) (seq 0 bound).

(** ** Enumerations of [app/db/models.py] *)

Inductive PositionStatus : Type := OPEN | CLOSED.
Inductive ExitReason : Type := STOP_LOSS | TIME_EXIT.
Inductive AlertType : Type := ENTRY | EXIT.

Definition PositionStatus_value (s : PositionStatus) : string :=
  match s with OPEN => "OPEN" | CLOSED => "CLOSED" end.
Definition ExitReason_value (r : ExitReason) : string :=
  match r with STOP_LOSS => "STOP_LOSS" | TIME_EXIT => "TIME_EXIT" end.
Definition AlertType_value (t : AlertType) : string :=
  match t with ENTRY => "ENTRY" | EXIT => "EXIT" end.

(** ** Event keys ([StrategyEngine._generate_*_event_key]) *)

Definition _generate_entry_event_key (symbol : string) (entry_date : date) : string :=
  "ENTRY|" ++ symbol ++ "|" ++ isoformat entry_date.

Definition _generate_exit_event_key
  (symbol : string) (entry_date exit_date : date) (exit_reason : string) : string :=
  "EXIT|" ++ symbol ++ "|" ++ isoformat entry_date ++ "|" ++ isoformat exit_date
  ++ "|" ++ exit_reason.

(** ** Exceptions *)

(** The exceptions the embedded code raises or lets through. *)
Inductive exn : Type :=
| DivisionByZero            (* decimal: x / 0 *)
| DivisionUndefined         (* decimal: 0 / 0 (InvalidOperation) *)
| Overflow                  (* decimal: exponent above Emax *)
| FMPRateLimitError         (* fmp_client: HTTP 429 *)
| HTTPStatusError (status_code : Z)   (* httpx: raise_for_status *)
| TimeoutException          (* httpx *)
| TransportError            (* httpx: any other failure of the transport *)
| IntegrityError            (* a plain INSERT on an existing primary key *)
| MultipleResultsFound      (* scalar_one_or_none on several rows *)
| HTTPException (status_code : Z).    (* fastapi *)

Inductive outcome (A : Type) : Type :=
| Ok (a : A)
| Raise (e : exn).
Arguments Ok {A} a.
Arguments Raise {A} e.

Definition bind {A B : Type} (m : outcome A) (k : A -> outcome B) : outcome B :=
  match m with Ok a => k a | Raise e => Raise e end.

Notation "x <- m ;; k" := (bind m (fun x => k))
  (at level 61, m at next level, right associativity).

(** ** Decimals ([decimal.Decimal], default context)

    A finite decimal is [coef * 10 ^ expo]; the sign is the sign of [coef].
    The default context has [prec = 28], rounding ROUND_HALF_EVEN,
    [Emax = 999999], [Emin = -999999], and traps DivisionByZero,
    InvalidOperation and Overflow. NaN, infinities and the sign of zero are
    not represented. *)

Record Decimal : Type := mkDec { coef : Z; expo : Z }.

Definition prec : Z := 28.
Definition Emax : Z := 999999.
Definition Emin : Z := -999999.
Definition Etiny : Z := Emin - prec + 1.
Definition Etop : Z := Emax - prec + 1.

(** [len(str(n))] for [n >= 0]. *)
Fixpoint ndigits_fuel (fuel : nat) (n : Z) : Z :=
  match fuel with
  | O => 1
  | S f => if n <? 10 then 1 else 1 + ndigits_fuel f (n / 10)
  end.

Definition ndigits (n : Z) : Z := ndigits_fuel (S (Z.to_nat (Z.log2 n))) n.

(** [_round_half_even]: the coefficient [c >= 0] without its last [k >= 1]
    digits, rounded to nearest, ties to even. *)
Definition round_half_even (c k : Z) : Z :=
  let p := 10 ^ k in
  let q := c / p in
  let r := c mod p in
  if 2 * r >? p then q + 1
  else if 2 * r =? p then (if Z.odd q then q + 1 else q)
  else q.

(** [Decimal._fix]: round to the context. *)
Definition _fix (d : Decimal) : outcome Decimal :=
  let a := Z.abs (coef d) in
  if a =? 0 then Ok (mkDec 0 (Z.min (Z.max (expo d) Etiny) Emax))
  else
    let n := ndigits a in
    let exp_min0 := n + expo d - prec in
    if exp_min0 >? Etop then Raise Overflow
    else
      let exp_min := if exp_min0 <? Etiny then Etiny else exp_min0 in
      if expo d <? exp_min then
        let digits := n + expo d - exp_min in
        let a1 := if digits <? 0 then 1 else a in
        let e1 := if digits <? 0 then exp_min - 1 else expo d in
        let c := round_half_even a1 (exp_min - e1) in
        let c' := if ndigits c >? prec then c / 10 else c in
        let exp_min' := if ndigits c >? prec then exp_min + 1 else exp_min in
        if exp_min' >? Etop then Raise Overflow
        else Ok (mkDec (Z.sgn (coef d) * c') exp_min')
      else Ok d.

(** [Decimal.__truediv__]. The loop that moves an exact quotient toward the
    ideal exponent changes the representation and not the value, and is
    left out. *)
Definition dec_div (x y : Decimal) : outcome Decimal :=
  if coef y =? 0 then
    (if coef x =? 0 then Raise DivisionUndefined else Raise DivisionByZero)
  else if coef x =? 0 then _fix (mkDec 0 (expo x - expo y))
  else
    let a := Z.abs (coef x) in
    let b := Z.abs (coef y) in
    let shift := ndigits b - ndigits a + prec + 1 in
    let exp := expo x - expo y - shift in
    let n := if 0 <=? shift then a * 10 ^ shift else a in
    let m := if 0 <=? shift then b else b * 10 ^ (- shift) in
    let coeff := n / m in
    let remainder := n mod m in
    let coeff := if negb (remainder =? 0) && (coeff mod 5 =? 0)
                 then coeff + 1 else coeff in
    _fix (mkDec (Z.sgn (coef x) * Z.sgn (coef y) * coeff) exp).

(** [Decimal.__sub__]: the exact difference at the smaller exponent, then
    [_fix]. *)
Definition dec_sub (x y : Decimal) : outcome Decimal :=
  let e := Z.min (expo x) (expo y) in
  _fix (mkDec (coef x * 10 ^ (expo x - e) - coef y * 10 ^ (expo y - e)) e).

(** [Decimal.__le__] and [__lt__] compare values exactly. *)
Definition dec_le (x y : Decimal) : bool :=
  let e := Z.min (expo x) (expo y) in
  coef x * 10 ^ (expo x - e) <=? coef y * 10 ^ (expo y - e).

(** The integer [1] as [Decimal(1)]. *)
Definition dec_one : Decimal := mkDec 1 0.

(** The value of a decimal as a rational number. *)
Definition dec_value (d : Decimal) : Q :=
  (inject_Z (coef d) * (10 # 1) ^ expo d)%Q.

(** The number of significant digits of a coefficient is at most [n]. *)
Definition sig_digits_le (n : Z) (d : Decimal) : Prop := Z.abs (coef d) < 10 ^ n.

(** A plain price: a positive decimal of at most 26 significant digits
    whose exponent is within 400000 of zero. Every price that a JSON number
    of the feed can carry, and every value of a [Numeric(18, 6)] column, is
    one. *)
Definition price_exponent_bound : Z := 400000.

Definition plain_price (d : Decimal) : Prop :=
  0 < coef d < 10 ^ 26
  /\ - price_exponent_bound <= expo d <= price_exponent_bound.

(** ** Strategy constants ([strategy_engine.py]) *)

Definition ENTRY_RETURN_MIN : Decimal := mkDec (-30) (-2).    (* Decimal("-0.30") *)
Definition ENTRY_RETURN_MAX : Decimal := mkDec (-5) (-2).     (* Decimal("-0.05") *)
Definition STOP_LOSS_THRESHOLD : Decimal := mkDec (-10) (-2). (* Decimal("-0.10") *)
Definition MAX_HOLDING_DAYS : Z := 50.

(** ** Tables ([app/db/models.py]) *)

(** Instants and durations are integers on one clock; identifiers (UUIDs)
    are integers. *)
Definition datetime : Type := Z.
Definition timedelta : Type := Z.
Definition uuid : Type := Z.

Record Position : Type := mkPosition {
  pos_id : uuid;
  pos_symbol : string;
  pos_entry_date : date;
  pos_entry_price : Decimal;
  pos_status : string;
  pos_exit_date : option date;
  pos_exit_price : option Decimal;
  pos_exit_reason : option string;
  pos_created_at : datetime;
  pos_updated_at : datetime
}.

Record Alert : Type := mkAlert {
  alert_id : uuid;
  event_key : string;
  alert_type : string;
  alert_symbol : string;
  as_of : date;
  message : string;
  created_at : datetime;
  sent_at : option datetime
}.

Record SymbolsCache : Type := mkSymbolsCache {
  cache_symbol : string;
  updated_at : datetime
}.

(** The database: each table is the list of its rows, oldest first. *)
Record Db : Type := mkDb {
  positions : list Position;
  alerts : list Alert;
  symbols_cache : list SymbolsCache
}.

Definition date_eqb (a b : date) : bool :=
  (year a =? year b) && (month a =? month b) && (day a =? day b).

(** ** The market-data client ([app/services/fmp_client.py]) *)

(** *** [_request] under the [tenacity] decorator *)

(** What one try of [client.get] gives: a response with a status code and
    a body, or an exception of the transport. *)
Inductive attempt (A : Type) : Type :=
| Response (status_code : Z) (body : A)
| TimedOut
| TransportFailed.
Arguments Response {A} status_code body.
Arguments TimedOut {A}.
Arguments TransportFailed {A}.

(** [Response.raise_for_status]: every status outside 2xx raises. *)
Definition is_success (status_code : Z) : bool :=
  (200 <=? status_code) && (status_code <=? 299).

(** The body of [_request]: one try. *)
Definition _request_once {A : Type} (a : attempt A) : outcome A :=
  match a with
  | TimedOut => Raise TimeoutException
  | TransportFailed => Raise TransportError
  | Response status_code body =>
      if status_code =? 429 then Raise FMPRateLimitError
      else if is_success status_code then Ok body
      else Raise (HTTPStatusError status_code)
  end.

(** [retry_if_exception_type((httpx.HTTPStatusError, httpx.TimeoutException))] *)
Definition retry_if_exception_type (e : exn) : bool :=
  match e with
  | HTTPStatusError _ => true
  | TimeoutException => true
  | _ => false
  end.

(** [stop_after_attempt(3)] *)
Definition stop_after_attempt (attempt_number : nat) : bool := (3 <=? attempt_number)%nat.

(** [wait_exponential(multiplier=1, min=2, max=10)], in seconds:
    [max(max(0, min), min(multiplier * 2 ** (attempt_number - 1), max))]. *)
Definition wait_exponential (attempt_number : nat) : Z :=
  Z.max (Z.max 0 2) (Z.min (1 * 2 ^ (Z.of_nat attempt_number - 1)) 10).

(** The retrying loop of [tenacity] with [reraise=True]. [tries k] is what
    try number [k] (from 1) gives. The result comes with the seconds slept
    before each further try, in order. *)
Fixpoint retry_loop {A : Type} (fuel : nat) (attempt_number : nat)
  (tries : nat -> attempt A) (slept : list Z) : outcome A * list Z :=
  match _request_once (tries attempt_number) with
  | Ok body => (Ok body, slept)
  | Raise e =>
      if negb (retry_if_exception_type e) then (Raise e, slept)
      else if stop_after_attempt attempt_number then (Raise e, slept)
      else match fuel with
           | O => (Raise e, slept)
           | S fuel' =>
               retry_loop fuel' (S attempt_number) tries
                 (slept ++ [wait_exponential attempt_number])
           end
  end.

Definition _request {A : Type} (tries : nat -> attempt A) : outcome A * list Z :=
  retry_loop 3 1 tries [].

(** How many tries [_request] makes. *)
Definition tries_made {A : Type} (tries : nat -> attempt A) : nat :=
  S (List.length (snd (_request tries))).

(** A try whose exception the decorator retries on. *)
Definition retried {A : Type} (a : attempt A) : bool :=
  match _request_once a with
  | Ok _ => false
  | Raise e => retry_if_exception_type e
  end.

(** *** Historical prices *)

(** One record of the price feed: [item.get("date")] and the decimal
    [Decimal(str(item.get("close")))], each absent when the key is. *)
Record price_item : Type := mkItem {
  item_date : option string;
  item_close : option Decimal
}.

(** The JSON body of the price endpoint: a list of records or anything
    else. *)
Inductive price_body : Type :=
| JList (items : list price_item)
| JOther.

(** [get_historical_prices], after [_request] returned [data]. *)
Definition get_historical_prices (data : price_body) (timeseries : nat) : list price_item :=
  match data with
  | JOther => []
  | JList items => firstn timeseries items
  end.

(** [for i, item in enumerate(historical): if item.get("date") == as_of_str] *)
Fixpoint find_date (as_of_str : string) (historical : list price_item) (i : nat)
  : option nat :=
  match historical with
  | [] => None
  | item :: rest =>
      match item_date item with
      | Some d => if String.eqb d as_of_str then Some i
                  else find_date as_of_str rest (S i)
      | None => find_date as_of_str rest (S i)
      end
  end.

(** [get_price_data_for_date], after [_request] returned [data]. *)
Definition get_price_data_for_date (data : price_body) (as_of : date)
  : option (Decimal * Decimal) :=
  let historical := get_historical_prices data 20 in
  match historical with
  | [] => None
  | _ =>
      let as_of_str := isoformat as_of in
      match find_date as_of_str historical O with
      | None => None
      | Some as_of_idx =>
          if (List.length historical <=? as_of_idx + 1)%nat then None
          else
            match nth_error historical as_of_idx,
                  nth_error historical (as_of_idx + 1) with
            | Some it, Some prev =>
                match item_close it, item_close prev with
                | Some as_of_close, Some prev_close => Some (as_of_close, prev_close)
                | _, _ => None
                end
            | _, _ => None
            end
      end
  end.

(** [get_close_price], after [_request] returned [data]. *)
Fixpoint close_of_first (as_of_str : string) (historical : list price_item)
  : option Decimal :=
  match historical with
  | [] => None
  | item :: rest =>
      match item_date item with
      | Some d => if String.eqb d as_of_str then item_close item
                  else close_of_first as_of_str rest
      | None => close_of_first as_of_str rest
      end
  end.

Definition get_close_price (data : price_body) (as_of : date) : option Decimal :=
  close_of_first (isoformat as_of) (get_historical_prices data 20).

(** The record at index [i] is the first one of [l] dated [s]. *)
Definition first_match (s : string) (l : list price_item) (i : nat) (it : price_item)
  : Prop :=
  nth_error l i = Some it /\ item_date it = Some s
  /\ forall j it', (j < i)%nat -> nth_error l j = Some it' -> item_date it' <> Some s.

(** The client as the engine sees it: the methods [StrategyEngine] calls,
    each returning or raising. *)
Record FMPClient : Type := mkFMP {
  fmp_get_sp500_constituents : outcome (list string);
  fmp_get_earnings_calendar : date -> outcome (list string);
  fmp_get_price_data_for_date : string -> date -> outcome (option (Decimal * Decimal));
  fmp_get_close_price : string -> date -> outcome (option Decimal)
}.

(** ** The strategy engine ([app/services/strategy_engine.py]) *)

(** [Decimal.__mul__], for the percentages of the messages. *)
Definition dec_mul (x y : Decimal) : outcome Decimal :=
  _fix (mkDec (coef x * coef y) (expo x + expo y)).

(** The decision of the entry scan on one price pair:
    [earnings_return = as_of_close / prev_close - 1] and
    [ENTRY_RETURN_MIN <= earnings_return <= ENTRY_RETURN_MAX]. *)
Definition earnings_day_return (as_of_close prev_close : Decimal) : outcome Decimal :=
  q <- dec_div as_of_close prev_close ;; dec_sub q dec_one.

Definition entry_condition (earnings_return : Decimal) : bool :=
  dec_le ENTRY_RETURN_MIN earnings_return && dec_le earnings_return ENTRY_RETURN_MAX.

(** The decision of the exit scan on one open position:
    [pnl = close_price / entry_price - 1], then the [if]/[elif]. *)
Definition exit_decision (entry_price close_price : Decimal) (holding_days : Z)
  : outcome (option ExitReason * Decimal) :=
  q <- dec_div close_price entry_price ;;
  pnl <- dec_sub q dec_one ;;
  Ok (if dec_le pnl STOP_LOSS_THRESHOLD then Some STOP_LOSS
      else if MAX_HOLDING_DAYS <=? holding_days then Some TIME_EXIT
      else None, pnl).

Section Engine.

(** The engine's collaborators and settings. *)
Variable fmp : FMPClient.
(** [timedelta(hours=settings.sp500_cache_ttl_hours)] *)
Variable cache_ttl : timedelta.
(** [uuid.uuid4()], the identifier a new row of a database gets. *)
Variable uuid4 : Db -> uuid.
(** What a [Numeric(18, 6)] column keeps of a decimal. *)
Variable numeric_18_6 : Decimal -> Decimal.
(** [format(x, ".2f")] on decimals. *)
Variable format_2f : Decimal -> string.

Definition NL : string := String (ascii_of_nat 10) "".

Definition _format_entry_message
  (symbol : string) (as_of : date) (earnings_return entry_price : Decimal)
  : outcome string :=
  pct <- dec_mul earnings_return (mkDec 100 0) ;;
  Ok ("[ENTRY] " ++ symbol ++ " " ++ isoformat as_of ++ NL
      ++ "Earnings day return: " ++ format_2f pct ++ "%" ++ NL
      ++ "Entry price (close): " ++ format_2f entry_price).

Definition _format_exit_message
  (symbol : string) (exit_date : date) (exit_reason : string)
  (pnl exit_price : Decimal) (holding_days : Z) : outcome string :=
  let reason_label :=
    if String.eqb exit_reason (ExitReason_value STOP_LOSS)
    then "STOP_LOSS" else "TIME_EXIT" in
  pct <- dec_mul pnl (mkDec 100 0) ;;
  Ok ("[EXIT-" ++ reason_label ++ "] " ++ symbol ++ " " ++ isoformat exit_date ++ NL
      ++ "PnL: " ++ format_2f pct ++ "%" ++ NL
      ++ "Exit price (close): " ++ format_2f exit_price ++ NL
      ++ "Holding days: " ++ str_int holding_days).

(** *** Statements *)

(** [insert(Position).values(...).on_conflict_do_nothing(
      index_elements=["symbol", "entry_date"])] *)
Definition position_conflicts (symbol : string) (entry_date : date) (p : Position) : bool :=
  String.eqb (pos_symbol p) symbol && date_eqb (pos_entry_date p) entry_date.

Definition insert_position (now : datetime) (db : Db)
  (symbol : string) (entry_date : date) (entry_price : Decimal) : Db :=
  if existsb (position_conflicts symbol entry_date) (positions db) then db
  else mkDb (positions db ++
               [mkPosition (uuid4 db) symbol entry_date (numeric_18_6 entry_price)
                  (PositionStatus_value OPEN) None None None now now])%list
            (alerts db) (symbols_cache db).

(** [insert(Alert).values(...).on_conflict_do_nothing(
      index_elements=["event_key"])], with its [rowcount]. *)
Definition insert_alert (now : datetime) (db : Db)
  (key type symbol : string) (as_of_ : date) (msg : string) : Db * Z :=
  if existsb (fun a => String.eqb (event_key a) key) (alerts db) then (db, 0)
  else (mkDb (positions db)
             (alerts db ++ [mkAlert (uuid4 db) key type symbol as_of_ msg now None])%list
             (symbols_cache db), 1).

(** [update(Position).where(Position.id == id).values(status=CLOSED, ...)];
    [updated_at] has [onupdate=func.now()]. *)
Definition close_position (now : datetime) (db : Db) (id : uuid)
  (exit_date : date) (exit_price : Decimal) (exit_reason : string) : Db :=
  mkDb (map (fun p =>
               if pos_id p =? id then
                 mkPosition (pos_id p) (pos_symbol p) (pos_entry_date p)
                   (pos_entry_price p) (PositionStatus_value CLOSED)
                   (Some exit_date) (Some (numeric_18_6 exit_price))
                   (Some exit_reason) (pos_created_at p) now
               else p) (positions db))
       (alerts db) (symbols_cache db).

(** A plain [insert(SymbolsCache)]: [symbol] is the primary key. *)
Definition insert_symbol (now : datetime) (rows : list SymbolsCache) (symbol : string)
  : outcome (list SymbolsCache) :=
  if existsb (fun c => String.eqb (cache_symbol c) symbol) rows
  then Raise IntegrityError
  else Ok (rows ++ [mkSymbolsCache symbol now])%list.

Fixpoint insert_symbols (now : datetime) (rows : list SymbolsCache)
  (symbols : list string) : outcome (list SymbolsCache) :=
  match symbols with
  | [] => Ok rows
  | symbol :: rest =>
      rows' <- insert_symbol now rows symbol ;; insert_symbols now rows' rest
  end.

(** [min(c.updated_at for c in cached)] on a non-empty list. *)
Definition oldest_updated_at (c : SymbolsCache) (rest : list SymbolsCache) : datetime :=
  fold_left (fun m c' => Z.min m (updated_at c')) rest (updated_at c).

Definition cache_is_fresh (now : datetime) (cached : list SymbolsCache) : bool :=
  match cached with
  | [] => false
  | c :: rest => now - oldest_updated_at c rest <? cache_ttl
  end.

(** *** [get_sp500_symbols]

    Returns the database it leaves and the list it returns, or the
    exception it lets through; a raise before the commit leaves the
    database as it was. *)
Definition get_sp500_symbols (now : datetime) (db : Db) : Db * outcome (list string) :=
  let cached := symbols_cache db in
  if cache_is_fresh now cached then (db, Ok (map cache_symbol cached))
  else
    match fmp_get_sp500_constituents fmp with
    | Raise e => (db, Raise e)
    | Ok symbols =>
        match symbols with
        | [] =>
            match cached with
            | _ :: _ => (db, Ok (map cache_symbol cached))
            | [] => (db, Ok [])
            end
        | _ :: _ =>
            match insert_symbols now [] symbols with
            | Raise e => (db, Raise e)
            | Ok rows => (mkDb (positions db) (alerts db) rows, Ok symbols)
            end
        end
    end.

(** *** [scan_entries] *)

(** The body of the [try] for one candidate: the database it leaves and
    the increment of [new_alerts], or the exception raised. *)
Definition entry_iteration (now : datetime) (as_of_ : date) (db : Db) (symbol : string)
  : Db * outcome Z :=
  match fmp_get_price_data_for_date fmp symbol as_of_ with
  | Raise e => (db, Raise e)
  | Ok None => (db, Ok 0)
  | Ok (Some (as_of_close, prev_close)) =>
      match earnings_day_return as_of_close prev_close with
      | Raise e => (db, Raise e)
      | Ok earnings_return =>
          if negb (entry_condition earnings_return) then (db, Ok 0)
          else
            let db1 := insert_position now db symbol as_of_ as_of_close in
            let key := _generate_entry_event_key symbol as_of_ in
            match _format_entry_message symbol as_of_ earnings_return as_of_close with
            | Raise e => (db1, Raise e)
            | Ok msg =>
                let '(db2, rowcount) :=
                  insert_alert now db1 key (AlertType_value ENTRY) symbol as_of_ msg in
                (db2, Ok (if 0 <? rowcount then 1 else 0))
            end
      end
  end.

(** [try: ... except Exception: continue] around one iteration. *)
Definition guarded {X : Type} (body : Db -> X -> Db * outcome Z)
  (acc : Db * Z) (x : X) : Db * Z :=
  match body (fst acc) x with
  | (db', Ok k) => (db', snd acc + k)
  | (db', Raise _) => (db', snd acc)
  end.

Definition scan_entries (now : datetime) (db : Db) (as_of_ : date) : Db * outcome Z :=
  match get_sp500_symbols now db with
  | (db1, Raise e) => (db1, Raise e)
  | (db1, Ok symbols) =>
      (* sp500_symbols = set(symbols) *)
      match symbols with
      | [] => (db1, Ok 0)
      | _ :: _ =>
          match fmp_get_earnings_calendar fmp as_of_ with
          | Raise e => (db1, Raise e)
          | Ok earnings_symbols =>
              let candidates :=
                filter (fun s => existsb (String.eqb s) symbols) earnings_symbols in
              let '(db2, new_alerts) :=
                fold_left (guarded (entry_iteration now as_of_)) candidates (db1, 0) in
              (db2, Ok new_alerts)
          end
      end
  end.

(** *** [scan_exits] *)

Definition exit_iteration (now : datetime) (as_of_ : date) (db : Db) (position : Position)
  : Db * outcome Z :=
  match fmp_get_close_price fmp (pos_symbol position) as_of_ with
  | Raise e => (db, Raise e)
  | Ok None => (db, Ok 0)
  | Ok (Some close_price) =>
      let holding_days := days_between as_of_ (pos_entry_date position) in
      match exit_decision (pos_entry_price position) close_price holding_days with
      | Raise e => (db, Raise e)
      | Ok (None, _) => (db, Ok 0)
      | Ok (Some reason, pnl) =>
          let exit_reason := ExitReason_value reason in
          let db1 := close_position now db (pos_id position) as_of_ close_price exit_reason in
          let key := _generate_exit_event_key (pos_symbol position)
                       (pos_entry_date position) as_of_ exit_reason in
          match _format_exit_message (pos_symbol position) as_of_ exit_reason
                  pnl close_price holding_days with
          | Raise e => (db1, Raise e)
          | Ok msg =>
              let '(db2, rowcount) :=
                insert_alert now db1 key (AlertType_value EXIT)
                  (pos_symbol position) as_of_ msg in
              (db2, Ok (if 0 <? rowcount then 1 else 0))
          end
      end
  end.

Definition is_open (p : Position) : bool :=
  String.eqb (pos_status p) (PositionStatus_value OPEN).

Definition scan_exits (now : datetime) (db : Db) (as_of_ : date) : Db * outcome Z :=
  let open_positions := filter is_open (positions db) in
  let '(db1, new_alerts) :=
    fold_left (guarded (exit_iteration now as_of_)) open_positions (db, 0) in
  (db1, Ok new_alerts).

(** *** [run_daily_job] *)

Definition run_daily_job (now : datetime) (db : Db) (as_of_ : date)
  : Db * outcome (Z * Z) :=
  match scan_entries now db as_of_ with
  | (db1, Raise e) => (db1, Raise e)
  | (db1, Ok new_entries) =>
      match scan_exits now db1 as_of_ with
      | (db2, Raise e) => (db2, Raise e)
      | (db2, Ok new_exits) => (db2, Ok (new_entries, new_exits))
      end
  end.

End Engine.

(** ** The route [mark_alert_sent] ([app/api/routes.py]) *)

Record MarkSentResponse : Type := mkMarkSent {
  success : bool;
  resp_id : uuid;
  resp_sent_at : datetime
}.

(** [result.scalar_one_or_none()] *)
Definition scalar_one_or_none {A : Type} (rows : list A) : outcome (option A) :=
  match rows with
  | [] => Ok None
  | [a] => Ok (Some a)
  | _ => Raise MultipleResultsFound
  end.

(** [update(Alert).where(Alert.id == id).values(sent_at=now)] *)
Definition update_sent_at (rows : list Alert) (id : uuid) (now : datetime) : list Alert :=
  map (fun a =>
         if alert_id a =? id then
           mkAlert (alert_id a) (event_key a) (alert_type a) (alert_symbol a)
             (as_of a) (message a) (created_at a) (Some now)
         else a) rows.

(** [mark_alert_sent]; [now] is [datetime.utcnow()]. *)
Definition mark_alert_sent (now : datetime) (db : Db) (id : uuid)
  : Db * outcome MarkSentResponse :=
  match scalar_one_or_none (filter (fun a => alert_id a =? id) (alerts db)) with
  | Raise e => (db, Raise e)
  | Ok None => (db, Raise (HTTPException 404))
  | Ok (Some alert) =>
      match sent_at alert with
      | Some t => (db, Ok (mkMarkSent true (alert_id alert) t))
      | None =>
          (mkDb (positions db) (update_sent_at (alerts db) id now) (symbols_cache db),
           Ok (mkMarkSent true (alert_id alert) now))
      end
  end.

(** [Alert.id] is the primary key of the table. *)
Definition alerts_pk (db : Db) : Prop := NoDup (map alert_id (alerts db)).

(** [m] is the minimum of [updated_at] over the rows of the cache. *)
Definition is_oldest (m : datetime) (cached : list SymbolsCache) : Prop :=
  In m (map updated_at cached) /\ forall c, In c cached -> m <= updated_at c.

(** The cache is non-empty and younger than the TTL, by its oldest row. *)
Definition fresh_by_oldest (ttl : timedelta) (now : datetime)
  (cached : list SymbolsCache) : Prop :=
  cached <> [] /\ exists m, is_oldest m cached /\ now - m < ttl.

(** ** Vocabulary of the statements about the scans *)

(** A position on (symbol, entry_date), an alert on an event key. *)
Definition has_position (db : Db) (symbol : string) (entry_date : date) : bool :=
  existsb (position_conflicts symbol entry_date) (positions db).

Definition has_alert (db : Db) (key : string) : bool :=
  existsb (fun a => String.eqb (event_key a) key) (alerts db).

(** [db'] has a position and an alert wherever [db] has one. *)
Definition db_le (db db' : Db) : Prop :=
  (forall s d, has_position db s d = true -> has_position db' s d = true)
  /\ (forall k, has_alert db k = true -> has_alert db' k = true).

(** What the entry scan decides for a symbol: the close and the return when
    the signal fires. *)
Definition entry_signal (fmp : FMPClient) (as_of_ : date) (symbol : string)
  : option (Decimal * Decimal) :=
  match fmp_get_price_data_for_date fmp symbol as_of_ with
  | Ok (Some (as_of_close, prev_close)) =>
      match earnings_day_return as_of_close prev_close with
      | Ok earnings_return =>
          if entry_condition earnings_return
          then Some (as_of_close, earnings_return) else None
      | Raise _ => None
      end
  | _ => None
  end.

(** What the exit scan decides for a position: the close, the reason and
    the pnl when an exit fires. *)
Definition exit_signal (fmp : FMPClient) (as_of_ : date) (p : Position)
  : option (Decimal * ExitReason * Decimal) :=
  match fmp_get_close_price fmp (pos_symbol p) as_of_ with
  | Ok (Some close_price) =>
      match exit_decision (pos_entry_price p) close_price
              (days_between as_of_ (pos_entry_date p)) with
      | Ok (Some reason, pnl) => Some (close_price, reason, pnl)
      | _ => None
      end
  | _ => None
  end.

(** The symbol is dealt with in [db]: if its signal fires, its position is
    there, and its alert too unless the message raises. *)
Definition entry_done (fmp : FMPClient) (format_2f : Decimal -> string)
  (as_of_ : date) (db : Db) (x : string) : Prop :=
  match entry_signal fmp as_of_ x with
  | None => True
  | Some (c, r) =>
      has_position db x as_of_ = true
      /\ match _format_entry_message format_2f x as_of_ r c with
         | Ok _ => has_alert db (_generate_entry_event_key x as_of_) = true
         | Raise _ => True
         end
  end.

(** What a position row records of its entry. *)
Definition position_entry (p : Position) : uuid * string * date * Decimal * datetime :=
  (pos_id p, pos_symbol p, pos_entry_date p, pos_entry_price p, pos_created_at p).

(** [db'] keeps what the entry scan left in [db]: the same positions with
    their entries, in the same order, and the same alerts, with new ones
    only after them. *)
Definition entries_kept (db db' : Db) : Prop :=
  map position_entry (positions db') = map position_entry (positions db)
  /\ exists more, alerts db' = (alerts db ++ more)%list.

(** ** A small market, for the scenarios *)

(** The index lists AAPL and MSFT; MSFT reports on every date and closed at
    88.00 after 100.00; the price call for AAPL raises. *)
Definition demo_fmp : FMPClient :=
  mkFMP (Ok ["AAPL"; "MSFT"])
        (fun _ => Ok ["AAPL"; "MSFT"])
        (fun s _ => if String.eqb s "MSFT"
                    then Ok (Some (mkDec 8800 (-2), mkDec 10000 (-2)))
                    else Raise FMPRateLimitError)
        (fun s _ => if String.eqb s "MSFT" then Ok (Some (mkDec 8800 (-2)))
                    else Raise FMPRateLimitError).

Definition demo_uuid4 (db : Db) : uuid :=
  Z.of_nat (List.length (positions db) + List.length (alerts db)).

Definition demo_numeric (d : Decimal) : Decimal := d.

Definition demo_format (d : Decimal) : string := "".

(** The job on the small market, with a TTL of 24 (hours). *)
Definition demo_job (now : datetime) (db : Db) (d : date) : Db * outcome (Z * Z) :=
  run_daily_job demo_fmp 24 demo_uuid4 demo_numeric demo_format now db d.

(** A cache that knows AAPL only, written at hour 0. *)
Definition demo_db : Db := mkDb [] [] [mkSymbolsCache "AAPL" 0].

(** ** The uniqueness constraints of the tables *)

(** [Alert.event_key] is unique. *)
Definition alerts_unique (db : Db) : Prop := NoDup (map event_key (alerts db)).

(** [UniqueConstraint("symbol", "entry_date")] on positions. *)
Definition position_key (p : Position) : string * date :=
  (pos_symbol p, pos_entry_date p).

Definition positions_unique (db : Db) : Prop :=
  NoDup (map position_key (positions db)).

(** [Position.id] is the primary key of the table. *)
Definition positions_pk (db : Db) : Prop := NoDup (map pos_id (positions db)).

(** ** What the exit scan does to a position row *)

(** The row as the UPDATE of the exit scan leaves it. *)
Definition closed_row (numeric_18_6 : Decimal -> Decimal) (now : datetime)
  (exit_date : date) (exit_price : Decimal) (reason : ExitReason) (p : Position)
  : Position :=
  mkPosition (pos_id p) (pos_symbol p) (pos_entry_date p) (pos_entry_price p)
    (PositionStatus_value CLOSED) (Some exit_date) (Some (numeric_18_6 exit_price))
    (Some (ExitReason_value reason)) (pos_created_at p) now.

(** The row after the exit scan: closed when it was open and its exit
    fires, the same row otherwise. *)
Definition exit_scan_row (fmp : FMPClient) (numeric_18_6 : Decimal -> Decimal)
  (now : datetime) (as_of_ : date) (p : Position) : Position :=
  if is_open p then
    match exit_signal fmp as_of_ p with
    | Some (c, reason, _) => closed_row numeric_18_6 now as_of_ c reason p
    | None => p
    end
  else p.

(** One iteration of the exit scan, seen from a row [q] of the table. *)
Definition exit_step_row (fmp : FMPClient) (numeric_18_6 : Decimal -> Decimal)
  (now : datetime) (as_of_ : date) (p q : Position) : Position :=
  match exit_signal fmp as_of_ p with
  | Some (c, reason, _) =>
      if pos_id q =? pos_id p then closed_row numeric_18_6 now as_of_ c reason q else q
  | None => q
  end.

(** ** What the entry scan adds *)

(** A position row as the entry scan inserts it for [as_of_]: open, without
    exit fields, on a symbol whose signal fires, at the close of the
    date. *)
Definition entered_row (fmp : FMPClient) (numeric_18_6 : Decimal -> Decimal)
  (as_of_ : date) (p : Position) : Prop :=
  pos_status p = PositionStatus_value OPEN
  /\ pos_entry_date p = as_of_
  /\ pos_exit_date p = None /\ pos_exit_price p = None /\ pos_exit_reason p = None
  /\ exists c r, entry_signal fmp as_of_ (pos_symbol p) = Some (c, r)
                 /\ pos_entry_price p = numeric_18_6 c.

(** An alert row as the entry scan inserts it for [as_of_]. *)
Definition entry_alert_row (fmp : FMPClient) (as_of_ : date) (a : Alert) : Prop :=
  alert_type a = AlertType_value ENTRY
  /\ sent_at a = None
  /\ as_of a = as_of_
  /\ event_key a = _generate_entry_event_key (alert_symbol a) as_of_
  /\ entry_signal fmp as_of_ (alert_symbol a) <> None.

(** What the entry scan appends to [db] to give [db']: rows of the two
    kinds, on symbols that satisfy [R], after the rows of [db]. *)
Definition entry_appends (fmp : FMPClient) (numeric_18_6 : Decimal -> Decimal)
  (as_of_ : date) (R : string -> Prop) (db db' : Db) : Prop :=
  exists newp newa,
    positions db' = (positions db ++ newp)%list
    /\ alerts db' = (alerts db ++ newa)%list
    /\ Forall (fun p => entered_row fmp numeric_18_6 as_of_ p /\ R (pos_symbol p)) newp
    /\ Forall (fun a => entry_alert_row fmp as_of_ a /\ R (alert_symbol a)) newa.

(** ** The route [get_pending_alerts] ([app/api/routes.py]) *)

Record AlertResponse : Type := mkAlertResponse {
  ar_id : uuid;
  ar_alert_type : string;
  ar_symbol : string;
  ar_as_of : date;
  ar_message : string
}.

(** [Alert.sent_at.is_(None)] *)
Definition unsent (a : Alert) : bool :=
  match sent_at a with None => true | Some _ => false end.

(** [order_by(Alert.created_at.asc())]: rows of one [created_at] keep the
    order of the table (the database is free in that; the statements below
    do not depend on it). *)
Fixpoint insert_by_created_at (a : Alert) (l : list Alert) : list Alert :=
  match l with
  | [] => [a]
  | b :: l' => if created_at a <=? created_at b then a :: b :: l'
               else b :: insert_by_created_at a l'
  end.

Definition order_by_created_at (l : list Alert) : list Alert :=
  fold_right insert_by_created_at [] l.

(** The rows the SELECT of the route gives: unsent, oldest first, at most
    [limit] of them. *)
Definition pending_rows (limit : Z) (db : Db) : list Alert :=
  firstn (Z.to_nat limit) (order_by_created_at (filter unsent (alerts db))).

(** [get_pending_alerts]; the framework has checked [1 <= limit <= 500]
    before the body runs. *)
Definition get_pending_alerts (limit : Z) (db : Db) : list AlertResponse :=
  map (fun a => mkAlertResponse (alert_id a) (alert_type a) (alert_symbol a)
                  (as_of a) (message a))
      (pending_rows limit db).

(** Oldest first. *)
Definition oldest_first (l : list Alert) : Prop :=
  forall i j a b, (i < j)%nat -> nth_error l i = Some a -> nth_error l j = Some b ->
                  created_at a <= created_at b.

(** Sorted, head against tail. *)
Fixpoint sorted_created_at (l : list Alert) : Prop :=
  match l with
  | [] => True
  | a :: l' => (forall b, In b l' -> created_at a <= created_at b) /\ sorted_created_at l'
  end.

(** ** The symbol lists of the client ([app/services/fmp_client.py]) *)

(** One record of a symbols feed: [item.get("symbol")], absent when the key
    is or when its value is null. *)
Record symbol_item : Type := mkSymbolItem { item_symbol : option string }.

(** The JSON body of a symbols endpoint: a list of records or anything
    else. *)
Inductive symbol_body : Type :=
| SList (items : list symbol_item)
| SOther.

(** [if item.get("symbol")]: the symbol when it is there and not empty. *)
Definition truthy_symbol (item : symbol_item) : option string :=
  match item_symbol item with
  | Some s => if String.eqb s EmptyString then None else Some s
  | None => None
  end.

(** [get_sp500_constituents], after [_request] returned [data]:
    [[item.get("symbol") for item in data if item.get("symbol")]]. *)
Definition get_sp500_constituents (data : symbol_body) : list string :=
  match data with
  | SOther => []
  | SList items =>
      flat_map (fun item => match truthy_symbol item with
                            | Some s => [s]
                            | None => []
                            end) items
  end.

(** [get_earnings_calendar], after [_request] returned [data]: the loop
    that appends to [symbols]. *)
Definition get_earnings_calendar (data : symbol_body) : list string :=
  match data with
  | SOther => []
  | SList items =>
      fold_left (fun symbols item => match truthy_symbol item with
                                     | Some s => (symbols ++ [s])%list
                                     | None => symbols
                                     end) items []
  end.

(** How many records of the body carry the symbol [s]. *)
Definition records_with (s : string) (data : symbol_body) : nat :=
  match data with
  | SOther => O
  | SList items =>
      List.length (filter (fun item => match item_symbol item with
                                       | Some s' => String.eqb s' s
                                       | None => false
                                       end) items)
  end.

(** ** The alerts a run adds *)

(** An alert row as a run at [now] for [as_of_] inserts it: not sent,
    stamped [now], of one of the two types. *)
Definition new_alert_row (now : datetime) (as_of_ : date) (a : Alert) : Prop :=
  sent_at a = None /\ created_at a = now /\ as_of a = as_of_
  /\ (alert_type a = AlertType_value ENTRY \/ alert_type a = AlertType_value EXIT).

(** [db'] has the alerts of [db], untouched, then rows of that kind. *)
Definition alerts_appended (now : datetime) (as_of_ : date) (db db' : Db) : Prop :=
  exists more, alerts db' = (alerts db ++ more)%list
               /\ Forall (new_alert_row now as_of_) more.

(* ===================================================================== *)
(** * Part II: theorems                                                   *)
(* ===================================================================== *)

(** ** Strings and dates *)

Lemma length_append (s t : string) :
  String.length (s ++ t) = (String.length s + String.length t)%nat.
Proof. induction s as [|c s IH]; simpl; [reflexivity | now rewrite IH]. Qed.

Lemma append_assoc (s t u : string) : (s ++ t) ++ u = s ++ (t ++ u).
Proof. induction s as [|c s IH]; simpl; [reflexivity | now rewrite IH]. Qed.

(** Two concatenations that agree and whose right parts have one length
    agree part by part. *)
Lemma append_inj_suffix (s1 s2 t1 t2 : string) :
  s1 ++ t1 = s2 ++ t2 -> String.length t1 = String.length t2 ->
  s1 = s2 /\ t1 = t2.
Proof.
  revert s2. induction s1 as [|c s1 IH]; intros [|c2 s2] H L; simpl in *.
  - auto.
  - exfalso. apply (f_equal String.length) in H. simpl in H.
    rewrite length_append in H. lia.
  - exfalso. apply (f_equal String.length) in H. simpl in H.
    rewrite length_append in H. lia.
  - injection H as -> H. destruct (IH _ H L) as [-> ->]. auto.
Qed.

Lemma append_inj_prefix (s1 s2 t1 t2 : string) :
  s1 ++ t1 = s2 ++ t2 -> String.length s1 = String.length s2 ->
  s1 = s2 /\ t1 = t2.
Proof.
  revert s2. induction s1 as [|c s1 IH]; intros [|c2 s2] H L; simpl in *;
    try discriminate.
  - auto.
  - injection H as -> H. injection L as L. destruct (IH _ H L) as [-> ->]. auto.
Qed.

Lemma zfill4_table : zfill_ok 4 (Z.to_nat 10000) = true.
Proof. vm_compute. reflexivity. Qed.

Lemma zfill2_table : zfill_ok 2 (Z.to_nat 100) = true.
Proof. vm_compute. reflexivity. Qed.

Lemma zfill_ok_spec (w : nat) (bound n : Z) :
  zfill_ok w (Z.to_nat bound) = true -> 0 <= n < bound ->
  String.length (zfill w n) = w /\ read_int (zfill w n) = n.
Proof.
  intros H L. unfold zfill_ok in H. rewrite forallb_forall in H.
  specialize (H (Z.to_nat n)). rewrite in_seq in H.
  assert (Hn : (0 <= Z.to_nat n < 0 + Z.to_nat bound)%nat) by lia.
  apply H in Hn. cbv zeta in Hn. rewrite Z2Nat.id in Hn by lia.
  apply andb_true_iff in Hn as [H1 H2].
  apply Nat.eqb_eq in H1. apply Z.eqb_eq in H2. auto.
Qed.

Lemma days_in_month_le (y m : Z) : days_in_month y m <= 31.
Proof.
  unfold days_in_month.
  destruct m as [|p|p]; simpl; try lia.
  do 4 (try destruct p as [p|p|]; simpl; try lia).
  all: destruct (is_leap y); lia.
Qed.

Lemma isoformat_length (d : date) :
  valid_date d -> String.length (isoformat d) = 10%nat.
Proof.
  intros (Hy & Hm & Hd). pose proof (days_in_month_le (year d) (month d)).
  unfold isoformat. rewrite !length_append.
  destruct (zfill_ok_spec 4 10000 (year d) zfill4_table) as [-> _]; [lia|].
  destruct (zfill_ok_spec 2 100 (month d) zfill2_table) as [-> _]; [lia|].
  destruct (zfill_ok_spec 2 100 (day d) zfill2_table) as [-> _]; [lia|].
  reflexivity.
Qed.

Lemma isoformat_inj (d1 d2 : date) :
  valid_date d1 -> valid_date d2 -> isoformat d1 = isoformat d2 -> d1 = d2.
Proof.
  intros (Hy1 & Hm1 & Hd1) (Hy2 & Hm2 & Hd2) H.
  pose proof (days_in_month_le (year d1) (month d1)).
  pose proof (days_in_month_le (year d2) (month d2)).
  destruct (zfill_ok_spec 4 10000 (year d1) zfill4_table) as [Ly1 Ry1]; [lia|].
  destruct (zfill_ok_spec 4 10000 (year d2) zfill4_table) as [Ly2 Ry2]; [lia|].
  destruct (zfill_ok_spec 2 100 (month d1) zfill2_table) as [Lm1 Rm1]; [lia|].
  destruct (zfill_ok_spec 2 100 (month d2) zfill2_table) as [Lm2 Rm2]; [lia|].
  destruct (zfill_ok_spec 2 100 (day d1) zfill2_table) as [Ld1 Rd1]; [lia|].
  destruct (zfill_ok_spec 2 100 (day d2) zfill2_table) as [Ld2 Rd2]; [lia|].
  unfold isoformat in H.
  apply append_inj_prefix in H as [Ey H]; [|congruence].
  apply append_inj_prefix in H as [_ H]; [|reflexivity].
  apply append_inj_prefix in H as [Em H]; [|congruence].
  apply append_inj_prefix in H as [_ Ed]; [|reflexivity].
  destruct d1 as [y1 m1 dd1], d2 as [y2 m2 dd2]; simpl in *.
  f_equal; congruence.
Qed.

(** ** Event keys *)

Lemma ExitReason_value_length (r : ExitReason) :
  String.length (ExitReason_value r) = 9%nat.
Proof. destruct r; reflexivity. Qed.

Lemma ExitReason_value_inj (r1 r2 : ExitReason) :
  ExitReason_value r1 = ExitReason_value r2 -> r1 = r2.
Proof. destruct r1, r2; simpl; intros H; try reflexivity; discriminate H. Qed.

Lemma entry_event_key_inj (s1 s2 : string) (d1 d2 : date) :
  valid_date d1 -> valid_date d2 ->
  _generate_entry_event_key s1 d1 = _generate_entry_event_key s2 d2 ->
  s1 = s2 /\ d1 = d2.
Proof.
  intros V1 V2 H. unfold _generate_entry_event_key in H.
  apply append_inj_prefix in H as [_ H]; [|reflexivity].
  apply append_inj_suffix in H as [Hs H].
  - apply append_inj_prefix in H as [_ H]; [|reflexivity].
    split; [assumption | now apply isoformat_inj].
  - rewrite !length_append, !isoformat_length by assumption. reflexivity.
Qed.

Lemma exit_event_key_inj (s1 s2 : string) (e1 e2 x1 x2 : date) (r1 r2 : ExitReason) :
  valid_date e1 -> valid_date e2 -> valid_date x1 -> valid_date x2 ->
  _generate_exit_event_key s1 e1 x1 (ExitReason_value r1)
  = _generate_exit_event_key s2 e2 x2 (ExitReason_value r2) ->
  s1 = s2 /\ e1 = e2 /\ x1 = x2 /\ r1 = r2.
Proof.
  intros Ve1 Ve2 Vx1 Vx2 H. unfold _generate_exit_event_key in H.
  apply append_inj_prefix in H as [_ H]; [|reflexivity].
  apply append_inj_suffix in H as [Hs H].
  - apply append_inj_prefix in H as [_ H]; [|reflexivity].
    apply append_inj_prefix in H as [He H];
      [|now rewrite !isoformat_length].
    apply append_inj_prefix in H as [_ H]; [|reflexivity].
    apply append_inj_prefix in H as [Hx H];
      [|now rewrite !isoformat_length].
    apply append_inj_prefix in H as [_ H]; [|reflexivity].
    repeat split; auto using isoformat_inj, ExitReason_value_inj.
  - rewrite !length_append, !isoformat_length, !ExitReason_value_length
      by assumption. reflexivity.
Qed.

(** C4. The entry key is ["ENTRY|" + symbol + "|" + isoformat(asOf)], the
    exit key is ["EXIT|" + symbol + "|" + isoformat(entry) + "|" +
    isoformat(exit) + "|" + reason]; as functions they give one key for one
    input, and on dates of the [date] type two inputs that differ in any
    field give different keys: entry keys determine (symbol, date), exit
    keys determine (symbol, entry date, exit date, reason) for the reasons
    of [ExitReason], an exit key changes with the reason text alone whatever
    the text, and no entry key is an exit key. *)
Theorem C4_event_keys_collision_free
  (s1 s2 : string) (d1 d2 x1 x2 : date) (r1 r2 : ExitReason) (t1 t2 : string) :
  valid_date d1 -> valid_date d2 -> valid_date x1 -> valid_date x2 ->
  _generate_entry_event_key s1 d1 = "ENTRY|" ++ s1 ++ "|" ++ isoformat d1
  /\ _generate_exit_event_key s1 d1 x1 t1
     = "EXIT|" ++ s1 ++ "|" ++ isoformat d1 ++ "|" ++ isoformat x1 ++ "|" ++ t1
  /\ ((s1, d1) = (s2, d2) ->
      _generate_entry_event_key s1 d1 = _generate_entry_event_key s2 d2)
  /\ ((s1, d1, x1, t1) = (s2, d2, x2, t2) ->
      _generate_exit_event_key s1 d1 x1 t1 = _generate_exit_event_key s2 d2 x2 t2)
  /\ ((s1, d1) <> (s2, d2) ->
      _generate_entry_event_key s1 d1 <> _generate_entry_event_key s2 d2)
  /\ ((s1, d1, x1, r1) <> (s2, d2, x2, r2) ->
      _generate_exit_event_key s1 d1 x1 (ExitReason_value r1)
      <> _generate_exit_event_key s2 d2 x2 (ExitReason_value r2))
  /\ (t1 <> t2 ->
      _generate_exit_event_key s1 d1 x1 t1 <> _generate_exit_event_key s1 d1 x1 t2)
  /\ _generate_entry_event_key s1 d1 <> _generate_exit_event_key s2 d2 x2 t2.
Proof.
  intros Vd1 Vd2 Vx1 Vx2. repeat split.
  - intros E. injection E as -> ->. reflexivity.
  - intros E. injection E as -> -> -> ->. reflexivity.
  - intros N E. apply N.
    destruct (entry_event_key_inj _ _ _ _ Vd1 Vd2 E) as [-> ->]. reflexivity.
  - intros N E. apply N.
    destruct (exit_event_key_inj _ _ _ _ _ _ _ _ Vd1 Vd2 Vx1 Vx2 E)
      as (-> & -> & -> & ->). reflexivity.
  - intros N E. apply N. unfold _generate_exit_event_key in E.
    repeat (apply append_inj_prefix in E as [_ E]; [|reflexivity]).
    exact E.
  - unfold _generate_entry_event_key, _generate_exit_event_key. simpl.
    intros E. discriminate E.
Qed.

Lemma C4_event_keys_witness :
  _generate_entry_event_key "AAPL" (mkdate 2025 12 1) = "ENTRY|AAPL|2025-12-01"
  /\ _generate_exit_event_key "AAPL" (mkdate 2025 12 1) (mkdate 2025 12 20)
       (ExitReason_value STOP_LOSS) = "EXIT|AAPL|2025-12-01|2025-12-20|STOP_LOSS"
  /\ _generate_entry_event_key "AAPL" (mkdate 2025 12 1)
     <> _generate_entry_event_key "MSFT" (mkdate 2025 12 1).
Proof.
  assert (V1 : valid_date (mkdate 2025 12 1)) by (unfold valid_date; simpl; lia).
  assert (V2 : valid_date (mkdate 2025 12 20)) by (unfold valid_date; simpl; lia).
  pose proof (C4_event_keys_collision_free "AAPL" "MSFT" (mkdate 2025 12 1)
                (mkdate 2025 12 1) (mkdate 2025 12 20) (mkdate 2025 12 20)
                STOP_LOSS TIME_EXIT "STOP_LOSS" "TIME_EXIT" V1 V1 V2 V2)
    as (_ & _ & _ & _ & Hne & _).
  split; [reflexivity|]. split; [reflexivity|].
  apply Hne. intros E. discriminate E.
Defined.

(** ** [mark_alert_sent] *)

Section MarkSent.

Lemma update_sent_at_ids (rows : list Alert) (id : uuid) (now : datetime) :
  map alert_id (update_sent_at rows id now) = map alert_id rows.
Proof.
  unfold update_sent_at. rewrite map_map. apply map_ext.
  intros a. destruct (alert_id a =? id); reflexivity.
Qed.

Lemma select_by_id (rows : list Alert) (a : Alert) :
  NoDup (map alert_id rows) -> In a rows ->
  filter (fun b => alert_id b =? alert_id a) rows = [a].
Proof.
  induction rows as [|b rows IH]; intros ND Hin; [destruct Hin|].
  simpl in ND. inversion ND as [|? ? Hnotin ND']; subst.
  destruct Hin as [-> | Hin]; simpl.
  - rewrite Z.eqb_refl. f_equal.
    clear IH ND ND'. induction rows as [|c rows IH]; [reflexivity|].
    simpl in *. destruct (alert_id c =? alert_id a) eqn:E.
    + apply Z.eqb_eq in E. exfalso. apply Hnotin. left. exact E.
    + apply IH. intros H. apply Hnotin. right. exact H.
  - destruct (alert_id b =? alert_id a) eqn:E.
    + apply Z.eqb_eq in E. exfalso. apply Hnotin. rewrite E.
      apply in_map. exact Hin.
    + apply IH; assumption.
Qed.

Lemma select_absent (rows : list Alert) (id : uuid) :
  (forall a, In a rows -> alert_id a <> id) ->
  filter (fun b => alert_id b =? id) rows = [].
Proof.
  induction rows as [|b rows IH]; intros H; [reflexivity|]. simpl.
  destruct (alert_id b =? id) eqn:E.
  - apply Z.eqb_eq in E. exfalso. apply (H b); [left; reflexivity | exact E].
  - apply IH. intros a Ha. apply H. right. exact Ha.
Qed.

Lemma update_sent_at_in (rows : list Alert) (a : Alert) (now : datetime) :
  In a rows ->
  In (mkAlert (alert_id a) (event_key a) (alert_type a) (alert_symbol a)
        (as_of a) (message a) (created_at a) (Some now))
     (update_sent_at rows (alert_id a) now).
Proof.
  intros Hin. unfold update_sent_at.
  apply in_map_iff. exists a. rewrite Z.eqb_refl. auto.
Qed.

End MarkSent.

Lemma mark_alert_sent_found (now : datetime) (db : Db) (a : Alert) :
  alerts_pk db -> In a (alerts db) ->
  mark_alert_sent now db (alert_id a) =
  match sent_at a with
  | Some t => (db, Ok (mkMarkSent true (alert_id a) t))
  | None => (mkDb (positions db) (update_sent_at (alerts db) (alert_id a) now)
               (symbols_cache db),
             Ok (mkMarkSent true (alert_id a) now))
  end.
Proof.
  intros PK Hin. unfold mark_alert_sent.
  rewrite (select_by_id _ _ PK Hin). simpl. reflexivity.
Qed.



(** C10. Marking an alert that is not sent yet writes [sent_at] of that row
    and nothing else: the positions and the cache are the same tables, the
    alerts table has the same rows in the same order, every row keeps its
    id, event_key, alert_type, symbol, as_of, message and created_at, the
    marked row gets [sent_at = now] and every other row is the same row. *)
Theorem C10_mark_alert_sent_frame
  (now : datetime) (db : Db) (a : Alert) :
  alerts_pk db -> In a (alerts db) -> sent_at a = None ->
  let db' := fst (mark_alert_sent now db (alert_id a)) in
  positions db' = positions db
  /\ symbols_cache db' = symbols_cache db
  /\ List.length (alerts db') = List.length (alerts db)
  /\ forall i b, nth_error (alerts db) i = Some b ->
       exists b', nth_error (alerts db') i = Some b'
         /\ alert_id b' = alert_id b /\ event_key b' = event_key b
         /\ alert_type b' = alert_type b /\ alert_symbol b' = alert_symbol b
         /\ as_of b' = as_of b /\ message b' = message b
         /\ created_at b' = created_at b
         /\ (b = a -> sent_at b' = Some now)
         /\ (b <> a -> b' = b).
Proof.
  intros PK Hin Es. cbv zeta.
  rewrite (mark_alert_sent_found now db a PK Hin), Es. simpl.
  split; [reflexivity|]. split; [reflexivity|].
  split; [unfold update_sent_at; apply length_map|].
  intros i b Hb. unfold update_sent_at.
  rewrite nth_error_map, Hb. simpl.
  destruct (alert_id b =? alert_id a) eqn:E.
  - eexists. split; [reflexivity|]. simpl. repeat split; try reflexivity.
    intros Hne. exfalso. apply Hne. apply Z.eqb_eq in E.
    assert (Hinb : In b (alerts db)) by (eapply nth_error_In; eauto).
    pose proof (select_by_id _ _ PK Hin) as Sa.
    assert (Hf : In b (filter (fun c => alert_id c =? alert_id a) (alerts db))).
    { apply filter_In. split; [exact Hinb|]. now apply Z.eqb_eq. }
    rewrite Sa in Hf. destruct Hf as [<-|[]]. reflexivity.
  - exists b. repeat split; try reflexivity.
    intros ->. rewrite Z.eqb_refl in E. discriminate E.
Qed.

Lemma C10_mark_alert_sent_frame_witness :
  let a := mkAlert 7 "ENTRY|AAPL|2025-01-15" "ENTRY" "AAPL" (mkdate 2025 1 15)
             "m" 100 None in
  let b := mkAlert 9 "ENTRY|MSFT|2025-01-15" "ENTRY" "MSFT" (mkdate 2025 1 15)
             "m" 101 None in
  let db := mkDb [] [b; a] [] in
  nth_error (alerts (fst (mark_alert_sent 200 db 7))) 0 = Some b.
Proof.
  intros a b db.
  assert (PK : alerts_pk db).
  { unfold alerts_pk, db. simpl.
    constructor; [intros [H|[]]; discriminate H|].
    constructor; [intros []|constructor]. }
  destruct (C10_mark_alert_sent_frame 200 db a PK (or_intror (or_introl eq_refl))
              eq_refl) as (_ & _ & _ & H).
  destruct (H 0%nat b eq_refl) as (b' & Hb' & _ & _ & _ & _ & _ & _ & _ & _ & Hsame).
  rewrite <- (Hsame ltac:(intros E; discriminate E)). exact Hb'.
Defined.

(** ** The lookback window *)

Lemma find_date_None (s : string) (l : list price_item) (k : nat) :
  find_date s l k = None <-> forall it, In it l -> item_date it <> Some s.
Proof.
  revert k. induction l as [|x l IH]; intros k; simpl.
  - split; [intros _ it [] | reflexivity].
  - destruct (item_date x) as [d|] eqn:Ed.
    + destruct (String.eqb d s) eqn:E.
      * apply String.eqb_eq in E. subst d. split; [discriminate|].
        intros H. exfalso. apply (H x); auto.
      * apply String.eqb_neq in E. rewrite IH. split.
        -- intros H it [<-|Hin]; [rewrite Ed; congruence | auto].
        -- intros H it Hin. apply H. auto.
    + rewrite IH. split.
      * intros H it [<-|Hin]; [rewrite Ed; discriminate | auto].
      * intros H it Hin. apply H. auto.
Qed.

Lemma find_date_Some (s : string) (l : list price_item) (k i : nat) :
  find_date s l k = Some i ->
  exists j it, i = (k + j)%nat /\ first_match s l j it.
Proof.
  revert k. induction l as [|x l IH]; intros k; simpl; [discriminate|].
  assert (Hrest : find_date s l (S k) = Some i ->
                  item_date x <> Some s ->
                  exists j it, i = (k + j)%nat /\ first_match s (x :: l) j it).
  { intros H Hx. destruct (IH _ H) as (j & it & -> & Hn & Hd & Hfirst).
    exists (S j), it. split; [lia|]. split; [exact Hn|]. split; [exact Hd|].
    intros j' it' Hlt Hn'. destruct j' as [|j']; simpl in Hn'.
    - injection Hn' as <-. exact Hx.
    - apply (Hfirst j' it'); [lia | exact Hn']. }
  destruct (item_date x) as [d|] eqn:Ed.
  - destruct (String.eqb d s) eqn:E.
    + apply String.eqb_eq in E. subst d. intros H. injection H as <-.
      exists O, x. split; [lia|]. split; [reflexivity|]. split; [exact Ed|].
      intros j it' Hlt. lia.
    + apply String.eqb_neq in E. intros H. apply Hrest; [exact H|]. congruence.
  - intros H. apply Hrest; [exact H | discriminate].
Qed.

Lemma first_match_unique (s : string) (l : list price_item) (i j : nat)
  (a b : price_item) :
  first_match s l i a -> first_match s l j b -> i = j /\ a = b.
Proof.
  intros (Ha & Hda & Hfa) (Hb & Hdb & Hfb).
  destruct (Nat.lt_trichotomy i j) as [L|[E|L]].
  - exfalso. exact (Hfb i a L Ha Hda).
  - subst j. split; [reflexivity | congruence].
  - exfalso. exact (Hfa j b L Hb Hdb).
Qed.

Lemma find_date_first (s : string) (l : list price_item) (i : nat) (it : price_item) :
  first_match s l i it -> find_date s l O = Some i.
Proof.
  intros F. destruct (find_date s l O) as [i'|] eqn:E.
  - destruct (find_date_Some _ _ _ _ E) as (j & it' & -> & F').
    destruct (first_match_unique _ _ _ _ _ _ F F') as [-> _]. reflexivity.
  - exfalso. rewrite find_date_None in E. destruct F as (Hn & Hd & _).
    apply (E it); [eapply nth_error_In; eauto | exact Hd].
Qed.

(** C9. The window is the first 20 records of the feed at most. The helper
    gives nothing when no record of the window carries the date, and
    nothing when the first record that carries it is the last of the
    window; and when it gives a pair, the pair is the close of the first
    record that carries the date and the close of the record right after
    it in the newest-first window. *)
Theorem C9_price_and_prev_close (data : price_body) (d : date) :
  let window := get_historical_prices data 20 in
  (List.length window <= 20)%nat
  /\ ((forall it, In it window -> item_date it <> Some (isoformat d)) ->
      get_price_data_for_date data d = None)
  /\ (forall i it, first_match (isoformat d) window i it ->
      (List.length window <= i + 1)%nat ->
      get_price_data_for_date data d = None)
  /\ (forall c p, get_price_data_for_date data d = Some (c, p) ->
      exists i it prev,
        first_match (isoformat d) window i it
        /\ nth_error window (i + 1) = Some prev
        /\ item_close it = Some c /\ item_close prev = Some p).
Proof.
  cbv zeta. split; [|split; [|split]].
  - unfold get_historical_prices. destruct data as [items|].
    + rewrite length_firstn. lia.
    + simpl. lia.
  - intros H. unfold get_price_data_for_date.
    destruct (get_historical_prices data 20) as [|x l] eqn:Ew; [reflexivity|].
    rewrite (proj2 (find_date_None _ _ O) H). reflexivity.
  - intros i it F L. unfold get_price_data_for_date.
    destruct (get_historical_prices data 20) as [|x l] eqn:Ew; [reflexivity|].
    rewrite (find_date_first _ _ _ _ F).
    apply Nat.leb_le in L. rewrite L. reflexivity.
  - intros c p H. unfold get_price_data_for_date in H.
    destruct (get_historical_prices data 20) as [|x l] eqn:Ew; [discriminate|].
    destruct (find_date (isoformat d) (x :: l) 0) as [i|] eqn:Ef; [|discriminate].
    destruct (List.length (x :: l) <=? i + 1)%nat; [discriminate|].
    destruct (nth_error (x :: l) i) as [it|] eqn:Ei; [|discriminate].
    destruct (nth_error (x :: l) (i + 1)) as [prev|] eqn:Ep; [|discriminate].
    destruct (item_close it) as [c'|] eqn:Ec; [|discriminate].
    destruct (item_close prev) as [p'|] eqn:Epc; [|discriminate].
    injection H as -> ->.
    destruct (find_date_Some _ _ _ _ Ef) as (j & it' & Ej & F). simpl in Ej.
    subst j. exists i, it, prev.
    assert (it' = it) by (destruct F as (Hn & _); congruence). subst it'.
    auto.
Qed.

Lemma C9_price_and_prev_close_witness :
  let data := JList [mkItem (Some "2025-01-15") (Some (mkDec 1500 (-1)));
                     mkItem (Some "2025-01-14") (Some (mkDec 1480 (-1)));
                     mkItem (Some "2025-01-13") (Some (mkDec 1470 (-1)))] in
  get_price_data_for_date data (mkdate 2025 1 15)
    = Some (mkDec 1500 (-1), mkDec 1480 (-1))
  /\ get_price_data_for_date data (mkdate 2025 1 18) = None
  /\ get_price_data_for_date data (mkdate 2025 1 13) = None.
Proof.
  intros data.
  split; [reflexivity|]. split.
  - apply (proj1 (proj2 (C9_price_and_prev_close data (mkdate 2025 1 18)))).
    intros it [<-|[<-|[<-|[]]]]; simpl; intros E; discriminate E.
  - apply (proj1 (proj2 (proj2 (C9_price_and_prev_close data (mkdate 2025 1 13))))
             2%nat (mkItem (Some "2025-01-13") (Some (mkDec 1470 (-1))))).
    + split; [reflexivity|]. split; [reflexivity|].
      intros j it' Hlt Hn.
      destruct j as [|[|j]]; simpl in Hn; try lia;
        injection Hn as <-; simpl; intros E; discriminate E.
    + simpl. lia.
Defined.

(** ** The retry policy of [_request] *)

Section Retry.

Context {A : Type}.
Variable tries : nat -> attempt A.

Lemma retried_cases (a : attempt A) :
  retried a = match a with
              | Response status_code _ =>
                  negb (status_code =? 429) && negb (is_success status_code)
              | TimedOut => true
              | TransportFailed => false
              end.
Proof.
  unfold retried, _request_once. destruct a as [st b| |]; try reflexivity.
  destruct (st =? 429); [reflexivity|].
  destruct (is_success st); reflexivity.
Qed.

Lemma retry_loop_unfold (fuel n : nat) (slept : list Z) :
  retry_loop fuel n tries slept =
  if retried (tries n) && negb (stop_after_attempt n) then
    match fuel with
    | O => (_request_once (tries n), slept)
    | S fuel' => retry_loop fuel' (S n) tries (slept ++ [wait_exponential n])
    end
  else (_request_once (tries n), slept).
Proof.
  unfold retried.
  destruct fuel; simpl; destruct (_request_once (tries n)) as [b|e]; simpl;
    try reflexivity;
    destruct (retry_if_exception_type e); simpl; try reflexivity;
    destruct (stop_after_attempt n); reflexivity.
Qed.

(** The bound of three tries comes from [stop_after_attempt], not from
    the fuel of the loop. *)
Lemma retry_loop_fuel (fuel : nat) :
  (2 <= fuel)%nat -> retry_loop fuel 1 tries [] = _request tries.
Proof.
  intros H. unfold _request.
  destruct fuel as [|[|fuel]]; try lia.
  rewrite !(retry_loop_unfold _ 1).
  destruct (retried (tries 1) && negb (stop_after_attempt 1)); [|reflexivity].
  rewrite !(retry_loop_unfold _ 2).
  destruct (retried (tries 2) && negb (stop_after_attempt 2)); [|reflexivity].
  rewrite !(retry_loop_unfold _ 3). simpl stop_after_attempt.
  rewrite andb_false_r. reflexivity.
Qed.

Lemma _request_cases :
  _request tries =
  if retried (tries 1%nat) then
    if retried (tries 2%nat) then (_request_once (tries 3%nat), [2; 2])
    else (_request_once (tries 2%nat), [2])
  else (_request_once (tries 1%nat), []).
Proof.
  unfold _request. rewrite (retry_loop_unfold _ 1).
  simpl stop_after_attempt. rewrite andb_true_r.
  destruct (retried (tries 1%nat)); [|reflexivity].
  rewrite (retry_loop_unfold _ 2). simpl stop_after_attempt. rewrite andb_true_r.
  destruct (retried (tries 2%nat)); [|reflexivity].
  rewrite (retry_loop_unfold _ 3). simpl stop_after_attempt.
  rewrite andb_false_r. reflexivity.
Qed.

End Retry.



(** ** The symbol universe cache *)

Lemma fold_min_le (rest : list SymbolsCache) (m0 : Z) :
  let m := fold_left (fun m c' => Z.min m (updated_at c')) rest m0 in
  m <= m0 /\ (forall c, In c rest -> m <= updated_at c)
  /\ (m = m0 \/ In m (map updated_at rest)).
Proof.
  revert m0. induction rest as [|c rest IH]; intros m0; simpl.
  - split; [lia|]. split; [intros c []|]. left. reflexivity.
  - destruct (IH (Z.min m0 (updated_at c))) as (H1 & H2 & H3).
    split; [lia|]. split.
    + intros c' [<-|Hin]; [lia | auto].
    + destruct H3 as [H3|H3]; [|right; right; exact H3].
      destruct (Z.min_spec m0 (updated_at c)) as [[_ E]|[_ E]].
      * left. congruence.
      * right. left. congruence.
Qed.

Lemma oldest_updated_at_is_oldest (c : SymbolsCache) (rest : list SymbolsCache) :
  is_oldest (oldest_updated_at c rest) (c :: rest).
Proof.
  unfold oldest_updated_at.
  destruct (fold_min_le rest (updated_at c)) as (H1 & H2 & H3).
  split.
  - simpl. destruct H3 as [H3|H3]; [left; symmetry; exact H3 | right; exact H3].
  - intros c' [<-|Hin]; [exact H1 | exact (H2 _ Hin)].
Qed.

Lemma is_oldest_unique (m m' : datetime) (cached : list SymbolsCache) :
  is_oldest m cached -> is_oldest m' cached -> m = m'.
Proof.
  intros [Hin Hle] [Hin' Hle'].
  apply in_map_iff in Hin as (c & <- & Hc).
  apply in_map_iff in Hin' as (c' & <- & Hc').
  pose proof (Hle _ Hc'). pose proof (Hle' _ Hc). lia.
Qed.

Lemma cache_is_fresh_iff (ttl : timedelta) (now : datetime) (cached : list SymbolsCache) :
  cache_is_fresh ttl now cached = true <-> fresh_by_oldest ttl now cached.
Proof.
  unfold cache_is_fresh, fresh_by_oldest. destruct cached as [|c rest].
  - split; [discriminate | intros [H _]; congruence].
  - rewrite Z.ltb_lt. split.
    + intros H. split; [discriminate|].
      exists (oldest_updated_at c rest). split; [|exact H].
      apply oldest_updated_at_is_oldest.
    + intros (_ & m & Hm & Hlt).
      rewrite (is_oldest_unique _ _ _ (oldest_updated_at_is_oldest c rest) Hm).
      exact Hlt.
Qed.

Lemma insert_symbols_nodup (now : datetime) (symbols : list string)
  (rows : list SymbolsCache) :
  NoDup symbols -> (forall s, In s symbols -> ~ In s (map cache_symbol rows)) ->
  insert_symbols now rows symbols
  = Ok (rows ++ map (fun s => mkSymbolsCache s now) symbols)%list.
Proof.
  revert rows. induction symbols as [|s symbols IH]; intros rows ND Hfresh; simpl.
  - rewrite app_nil_r. reflexivity.
  - inversion ND as [|? ? Hnotin ND']; subst.
    unfold insert_symbol.
    destruct (existsb (fun c => String.eqb (cache_symbol c) s) rows) eqn:E.
    + exfalso. apply existsb_exists in E as (c & Hc & Ec).
      apply String.eqb_eq in Ec. apply (Hfresh s); [left; reflexivity|].
      rewrite <- Ec. apply in_map. exact Hc.
    + simpl. rewrite IH.
      * rewrite <- app_assoc. reflexivity.
      * exact ND'.
      * intros s' Hs'. rewrite map_app, in_app_iff. simpl.
        intros [H|[H|[]]].
        -- apply (Hfresh s'); [right; exact Hs' | exact H].
        -- subst s'. contradiction.
Qed.




(** ** The scans: what one iteration does *)

Section Scans.

Variable fmp : FMPClient.
Variable cache_ttl : timedelta.
Variable uuid4 : Db -> uuid.
Variable numeric_18_6 : Decimal -> Decimal.
Variable format_2f : Decimal -> string.
Variable as_of_ : date.

Local Abbreviation entry_it now := (entry_iteration fmp uuid4 numeric_18_6 format_2f now as_of_).
Local Abbreviation exit_it now := (exit_iteration fmp uuid4 numeric_18_6 format_2f now as_of_).
Local Abbreviation edone db x := (entry_done fmp format_2f as_of_ db x).

Lemma db_le_refl (db : Db) : db_le db db.
Proof. split; auto. Qed.

Lemma db_le_trans (a b c : Db) : db_le a b -> db_le b c -> db_le a c.
Proof. intros [H1 H2] [H3 H4]. split; auto. Qed.

Lemma existsb_app_l {X : Type} (f : X -> bool) (l l' : list X) :
  existsb f l = true -> existsb f (l ++ l') = true.
Proof. intros H. rewrite existsb_app, H. reflexivity. Qed.

Lemma insert_position_le (now : datetime) (db : Db) (s : string) (d : date) (c : Decimal) :
  let db' := insert_position uuid4 numeric_18_6 now db s d c in
  db_le db db' /\ has_position db' s d = true
  /\ alerts db' = alerts db /\ symbols_cache db' = symbols_cache db
  /\ (has_position db s d = true -> db' = db).
Proof.
  cbv zeta. unfold insert_position. fold (has_position db s d).
  destruct (has_position db s d) eqn:E.
  - split; [apply db_le_refl|]. auto.
  - split; [|split; [|split; [|split]]]; try reflexivity; try discriminate.
    + split; [|auto]. intros s' d' H. unfold has_position in *. simpl.
      apply existsb_app_l. exact H.
    + unfold has_position. simpl. rewrite existsb_app. simpl.
      unfold position_conflicts at 2. simpl.
      rewrite String.eqb_refl. unfold date_eqb. rewrite !Z.eqb_refl. simpl.
      apply orb_true_r.
Qed.

Lemma insert_alert_le (now : datetime) (db : Db) (k t s : string) (d : date) (m : string) :
  let r := insert_alert uuid4 now db k t s d m in
  db_le db (fst r) /\ has_alert (fst r) k = true
  /\ positions (fst r) = positions db /\ symbols_cache (fst r) = symbols_cache db
  /\ (exists more, alerts (fst r) = alerts db ++ more)%list
  /\ (has_alert db k = true -> r = (db, 0)).
Proof.
  cbv zeta. unfold insert_alert. fold (has_alert db k).
  destruct (has_alert db k) eqn:E; simpl.
  - split; [apply db_le_refl|]. repeat split; auto.
    exists []. rewrite app_nil_r. reflexivity.
  - split; [|split; [|split; [|split; [|split]]]]; try reflexivity; try discriminate.
    + split; [auto|]. intros k' H. unfold has_alert in *. simpl.
      apply existsb_app_l. exact H.
    + unfold has_alert. simpl. rewrite existsb_app. simpl.
      rewrite String.eqb_refl. apply orb_true_r.
    + eexists. reflexivity.
Qed.

Lemma close_position_le (now : datetime) (db : Db) (id : uuid) (d : date)
  (c : Decimal) (r : string) :
  let db' := close_position numeric_18_6 now db id d c r in
  db_le db db' /\ alerts db' = alerts db /\ symbols_cache db' = symbols_cache db
  /\ map position_entry (positions db') = map position_entry (positions db).
Proof.
  cbv zeta. unfold close_position. simpl.
  split; [|split; [reflexivity|split; [reflexivity|]]].
  - split; [|auto]. intros s' d' H. unfold has_position in *. simpl.
    apply existsb_exists in H as (p & Hp & Hc). apply existsb_exists.
    eexists. split; [apply in_map; exact Hp|].
    destruct (pos_id p =? id); exact Hc.
  - rewrite map_map. apply map_ext. intros p.
    destruct (pos_id p =? id); reflexivity.
Qed.

(** An iteration of the entry scan on a symbol without a signal changes
    nothing, whether it returns or raises. *)
Lemma entry_iteration_idle (now : datetime) (db : Db) (x : string) :
  entry_signal fmp as_of_ x = None ->
  fst (entry_it now db x) = db
  /\ (snd (entry_it now db x) = Ok 0 \/ exists e, snd (entry_it now db x) = Raise e).
Proof.
  unfold entry_signal, entry_iteration.
  destruct (fmp_get_price_data_for_date fmp x as_of_) as [[[c p]|]|e]; simpl.
  - destruct (earnings_day_return c p) as [r|e]; simpl.
    + destruct (entry_condition r); simpl; [discriminate | auto].
    + eauto.
  - auto.
  - eauto.
Qed.

(** An iteration on a symbol with a signal inserts the position, then the
    alert unless the message raises. *)
Lemma entry_iteration_fired (now : datetime) (db : Db) (x : string) (c r : Decimal) :
  entry_signal fmp as_of_ x = Some (c, r) ->
  let db1 := insert_position uuid4 numeric_18_6 now db x as_of_ c in
  entry_it now db x =
  match _format_entry_message format_2f x as_of_ r c with
  | Raise e => (db1, Raise e)
  | Ok msg =>
      let r2 := insert_alert uuid4 now db1 (_generate_entry_event_key x as_of_)
                  (AlertType_value ENTRY) x as_of_ msg in
      (fst r2, Ok (if 0 <? snd r2 then 1 else 0))
  end.
Proof.
  unfold entry_signal, entry_iteration.
  destruct (fmp_get_price_data_for_date fmp x as_of_) as [[[c' p]|]|e];
    try discriminate.
  destruct (earnings_day_return c' p) as [r'|e]; try discriminate.
  destruct (entry_condition r'); try discriminate.
  intros H. injection H as -> ->. simpl.
  destruct (_format_entry_message format_2f x as_of_ r c); [|reflexivity].
  destruct (insert_alert _ _ _ _ _ _ _ _). reflexivity.
Qed.

Lemma entry_done_le (db db' : Db) (x : string) :
  db_le db db' -> edone db x -> edone db' x.
Proof.
  intros [Hp Ha]. unfold entry_done.
  destruct (entry_signal fmp as_of_ x) as [[c r]|]; [|auto].
  intros [H1 H2]. split; [auto|].
  destruct (_format_entry_message format_2f x as_of_ r c); auto.
Qed.

Lemma entry_iteration_le (now : datetime) (db : Db) (x : string) :
  let db' := fst (entry_it now db x) in
  db_le db db' /\ edone db' x /\ symbols_cache db' = symbols_cache db.
Proof.
  cbv zeta. unfold entry_done.
  destruct (entry_signal fmp as_of_ x) as [[c r]|] eqn:E.
  - rewrite (entry_iteration_fired now db x c r E). cbv zeta.
    destruct (insert_position_le now db x as_of_ c) as (L1 & P1 & _ & C1 & _).
    destruct (_format_entry_message format_2f x as_of_ r c) as [msg|e]; simpl.
    + match goal with |- context [insert_alert ?u ?n ?d ?k ?t ?s ?a ?m] =>
        destruct (insert_alert_le n d k t s a m) as (L2 & A2 & _ & C2 & _) end.
      split; [eapply db_le_trans; eauto|]. split; [|congruence].
      split; [|exact A2]. apply L2. exact P1.
    + auto.
  - destruct (entry_iteration_idle now db x E) as [-> _].
    split; [apply db_le_refl | auto].
Qed.

(** On a symbol that is dealt with, an iteration changes neither the
    database nor the count, at whatever instant it runs. *)
Lemma entry_iteration_done (now : datetime) (db : Db) (n : Z) (x : string) :
  edone db x -> guarded (entry_it now) (db, n) x = (db, n).
Proof.
  unfold entry_done, guarded. simpl fst. simpl snd.
  destruct (entry_signal fmp as_of_ x) as [[c r]|] eqn:E.
  - intros [P A]. rewrite (entry_iteration_fired now db x c r E). cbv zeta.
    destruct (insert_position_le now db x as_of_ c) as (_ & _ & _ & _ & Same).
    rewrite (Same P).
    destruct (_format_entry_message format_2f x as_of_ r c) as [msg|e];
      [|reflexivity].
    match goal with |- context [insert_alert ?u ?n ?d ?k ?t ?s ?a ?m] =>
      destruct (insert_alert_le n d k t s a m) as (_ & _ & _ & _ & _ & Same') end.
    rewrite (Same' A). simpl. f_equal. lia.
  - intros _. destruct (entry_iteration_idle now db x E) as [Hf Hs].
    destruct (entry_it now db x) as [db' o]. simpl in *. subst db'.
    destruct Hs as [-> | [e ->]]; [f_equal; lia | reflexivity].
Qed.

Lemma exit_iteration_idle (now : datetime) (db : Db) (p : Position) :
  exit_signal fmp as_of_ p = None ->
  fst (exit_it now db p) = db
  /\ (snd (exit_it now db p) = Ok 0 \/ exists e, snd (exit_it now db p) = Raise e).
Proof.
  unfold exit_signal, exit_iteration.
  destruct (fmp_get_close_price fmp (pos_symbol p) as_of_) as [[c|]|e]; simpl.
  - destruct (exit_decision _ _ _) as [[[reason|] pnl]|e]; simpl;
      [discriminate | auto | eauto].
  - auto.
  - eauto.
Qed.

Lemma exit_iteration_fired (now : datetime) (db : Db) (p : Position)
  (c : Decimal) (reason : ExitReason) (pnl : Decimal) :
  exit_signal fmp as_of_ p = Some (c, reason, pnl) ->
  let db1 := close_position numeric_18_6 now db (pos_id p) as_of_ c
               (ExitReason_value reason) in
  exit_it now db p =
  match _format_exit_message format_2f (pos_symbol p) as_of_ (ExitReason_value reason)
          pnl c (days_between as_of_ (pos_entry_date p)) with
  | Raise e => (db1, Raise e)
  | Ok msg =>
      let r2 := insert_alert uuid4 now db1
                  (_generate_exit_event_key (pos_symbol p) (pos_entry_date p) as_of_
                     (ExitReason_value reason))
                  (AlertType_value EXIT) (pos_symbol p) as_of_ msg in
      (fst r2, Ok (if 0 <? snd r2 then 1 else 0))
  end.
Proof.
  unfold exit_signal, exit_iteration.
  destruct (fmp_get_close_price fmp (pos_symbol p) as_of_) as [[c'|]|e];
    try discriminate.
  destruct (exit_decision _ _ _) as [[[reason'|] pnl']|e]; try discriminate.
  intros H. injection H as -> -> ->. simpl.
  destruct (_format_exit_message _ _ _ _ _ _ _); [|reflexivity].
  destruct (insert_alert _ _ _ _ _ _ _ _). reflexivity.
Qed.

Lemma entries_kept_refl (db : Db) : entries_kept db db.
Proof. split; [reflexivity|]. exists []. rewrite app_nil_r. reflexivity. Qed.

Lemma entries_kept_trans (a b c : Db) :
  entries_kept a b -> entries_kept b c -> entries_kept a c.
Proof.
  intros [P1 [m1 A1]] [P2 [m2 A2]]. split; [congruence|].
  exists (m1 ++ m2)%list. rewrite A2, A1, app_assoc. reflexivity.
Qed.

(** The positions an exit iteration leaves: those of [db], or those of [db]
    with the rows of the position's id closed when its exit fires. *)
Lemma exit_iteration_positions (now : datetime) (db : Db) (p : Position) :
  let db' := fst (exit_it now db p) in
  db_le db db' /\ entries_kept db db' /\ symbols_cache db' = symbols_cache db
  /\ match exit_signal fmp as_of_ p with
     | None => db' = db
     | Some (c, reason, _) =>
         positions db' = positions (close_position numeric_18_6 now db (pos_id p)
                                      as_of_ c (ExitReason_value reason))
     end.
Proof.
  cbv zeta. destruct (exit_signal fmp as_of_ p) as [[[c reason] pnl]|] eqn:E.
  - rewrite (exit_iteration_fired now db p c reason pnl E). cbv zeta.
    destruct (close_position_le now db (pos_id p) as_of_ c (ExitReason_value reason))
      as (L1 & A1 & C1 & K1).
    destruct (_format_exit_message _ _ _ _ _ _ _) as [msg|e]; simpl.
    + match goal with |- context [insert_alert ?u ?n ?d ?k ?t ?s ?a ?m] =>
        destruct (insert_alert_le n d k t s a m)
          as (L2 & _ & P2 & C2 & [more M2] & _) end.
      split; [eapply db_le_trans; eauto|].
      split; [|split; [congruence | exact P2]].
      split; [rewrite P2; exact K1|]. exists more. rewrite M2, A1. reflexivity.
    + split; [exact L1|]. split; [|auto].
      split; [exact K1|]. exists []. rewrite A1, app_nil_r. reflexivity.
  - destruct (exit_iteration_idle now db p E) as [-> _].
    split; [apply db_le_refl|]. split; [apply entries_kept_refl|]. auto.
Qed.

Lemma exit_iteration_none (now : datetime) (db : Db) (n : Z) (p : Position) :
  exit_signal fmp as_of_ p = None -> guarded (exit_it now) (db, n) p = (db, n).
Proof.
  intros E. unfold guarded. simpl fst. simpl snd.
  destruct (exit_iteration_idle now db p E) as [Hf Hs].
  destruct (exit_it now db p) as [db' o]. simpl in *. subst db'.
  destruct Hs as [-> | [e ->]]; [f_equal; lia | reflexivity].
Qed.

(** A row that is open after rows of one id were closed was there before,
    under another id. *)
Lemma open_after_close (now : datetime) (db : Db) (id : uuid) (d : date)
  (c : Decimal) (r : string) (q : Position) :
  In q (positions (close_position numeric_18_6 now db id d c r)) ->
  is_open q = true -> In q (positions db) /\ pos_id q <> id.
Proof.
  unfold close_position. simpl. intros Hin Hopen.
  apply in_map_iff in Hin as (q0 & Hq & Hin).
  destruct (pos_id q0 =? id) eqn:E.
  - subst q. discriminate Hopen.
  - subst q0. apply Z.eqb_neq in E. auto.
Qed.

Lemma fst_guarded {X : Type} (body : Db -> X -> Db * outcome Z) (acc : Db * Z) (x : X) :
  fst (guarded body acc x) = fst (body (fst acc) x).
Proof.
  unfold guarded. destruct (body (fst acc) x) as [db' [k|e]]; reflexivity.
Qed.

(** ** The scans: the loops *)

Lemma guarded_raise {X : Type} (body : Db -> X -> Db * outcome Z)
  (acc : Db * Z) (x : X) (e : exn) :
  snd (body (fst acc) x) = Raise e ->
  guarded body acc x = (fst (body (fst acc) x), snd acc).
Proof.
  unfold guarded. destruct (body (fst acc) x) as [db' [k|e']]; simpl;
    [discriminate | reflexivity].
Qed.

Lemma loop_skips_raise {X : Type} (body : Db -> X -> Db * outcome Z)
  (l1 l2 : list X) (x : X) (acc : Db * Z) (e : exn) :
  let mid := fold_left (guarded body) l1 acc in
  snd (body (fst mid) x) = Raise e ->
  fold_left (guarded body) (l1 ++ x :: l2) acc
  = fold_left (guarded body) l2 (fst (body (fst mid) x), snd mid).
Proof.
  cbv zeta. intros H. rewrite fold_left_app. simpl.
  rewrite (guarded_raise _ _ _ _ H). reflexivity.
Qed.

Lemma loop_without_item {X : Type} (body : Db -> X -> Db * outcome Z)
  (l1 l2 : list X) (x : X) (acc : Db * Z) :
  (forall a, guarded body a x = a) ->
  fold_left (guarded body) (l1 ++ x :: l2) acc
  = fold_left (guarded body) (l1 ++ l2) acc.
Proof. intros H. rewrite !fold_left_app. simpl. rewrite H. reflexivity. Qed.

Lemma entry_fetch_raises (now : datetime) (x : string) (e : exn) (a : Db * Z) :
  fmp_get_price_data_for_date fmp x as_of_ = Raise e ->
  guarded (entry_it now) a x = a.
Proof.
  intros H. destruct a as [db n]. apply entry_iteration_done.
  unfold entry_done, entry_signal. rewrite H. exact I.
Qed.

Lemma exit_fetch_raises (now : datetime) (p : Position) (e : exn) (a : Db * Z) :
  fmp_get_close_price fmp (pos_symbol p) as_of_ = Raise e ->
  guarded (exit_it now) a p = a.
Proof.
  intros H. destruct a as [db n]. apply exit_iteration_none.
  unfold exit_signal. rewrite H. reflexivity.
Qed.

Lemma exit_loop_keeps (now : datetime) (l : list Position) (db : Db) (n : Z) :
  let r := fold_left (guarded (exit_it now)) l (db, n) in
  db_le db (fst r) /\ entries_kept db (fst r)
  /\ symbols_cache (fst r) = symbols_cache db.
Proof.
  cbv zeta. revert db n. induction l as [|p l IH]; intros db n; simpl.
  - split; [apply db_le_refl|]. split; [apply entries_kept_refl | reflexivity].
  - destruct (guarded (exit_it now) (db, n) p) as [db' n'] eqn:G.
    pose proof (fst_guarded (exit_it now) (db, n) p) as F. rewrite G in F.
    simpl in F.
    destruct (exit_iteration_positions now db p) as (L & K & C & _).
    rewrite <- F in L, K, C.
    destruct (IH db' n') as (L' & K' & C').
    split; [eapply db_le_trans; eauto|].
    split; [eapply entries_kept_trans; eauto | congruence].
Qed.

Lemma scan_exits_returns (now : datetime) (db : Db) :
  exists db' k, scan_exits fmp uuid4 numeric_18_6 format_2f now db as_of_ = (db', Ok k)
                /\ entries_kept db db' /\ db_le db db'
                /\ symbols_cache db' = symbols_cache db.
Proof.
  unfold scan_exits.
  destruct (exit_loop_keeps now (filter is_open (positions db)) db 0) as (L & K & C).
  destruct (fold_left _ _ _) as [db' k]. simpl in *.
  exists db', k. auto.
Qed.


(** ** Running the job again *)

Lemma entry_loop_le (now : datetime) (l : list string) (db : Db) (n : Z) :
  let r := fold_left (guarded (entry_it now)) l (db, n) in
  db_le db (fst r) /\ (forall x, In x l -> edone (fst r) x)
  /\ symbols_cache (fst r) = symbols_cache db.
Proof.
  cbv zeta. revert db n. induction l as [|x l IH]; intros db n; simpl.
  - split; [apply db_le_refl|]. split; [intros x [] | reflexivity].
  - destruct (guarded (entry_it now) (db, n) x) as [db' n'] eqn:G.
    pose proof (fst_guarded (entry_it now) (db, n) x) as F. rewrite G in F.
    simpl in F.
    destruct (entry_iteration_le now db x) as (L & D & C). rewrite <- F in L, D, C.
    destruct (IH db' n') as (L' & D' & C').
    split; [eapply db_le_trans; eauto|]. split; [|congruence].
    intros y [<-|Hy]; [eapply entry_done_le; eauto | auto].
Qed.

Lemma entry_loop_done (now : datetime) (l : list string) (db : Db) (n : Z) :
  (forall x, In x l -> edone db x) ->
  fold_left (guarded (entry_it now)) l (db, n) = (db, n).
Proof.
  induction l as [|x l IH]; intros H; simpl; [reflexivity|].
  rewrite entry_iteration_done by (apply H; left; reflexivity).
  apply IH. intros y Hy. apply H. right. exact Hy.
Qed.

Lemma exit_loop_settles (now : datetime) (todo : list Position) (db : Db) (n : Z) :
  (forall q, In q (positions db) -> is_open q = true ->
             exit_signal fmp as_of_ q = None \/ In q todo) ->
  forall q, In q (positions (fst (fold_left (guarded (exit_it now)) todo (db, n)))) ->
            is_open q = true -> exit_signal fmp as_of_ q = None.
Proof.
  revert db n. induction todo as [|p todo IH]; intros db n Inv; simpl.
  - intros q Hq Ho. destruct (Inv q Hq Ho) as [H|[]]. exact H.
  - destruct (guarded (exit_it now) (db, n) p) as [db' n'] eqn:G.
    pose proof (fst_guarded (exit_it now) (db, n) p) as F. rewrite G in F.
    simpl in F.
    destruct (exit_iteration_positions now db p) as (_ & _ & _ & P).
    rewrite <- F in P. apply IH. intros q Hq Ho.
    destruct (exit_signal fmp as_of_ p) as [[[c reason] pnl]|] eqn:E.
    + rewrite P in Hq. destruct (open_after_close _ _ _ _ _ _ _ Hq Ho) as [Hin Hid].
      destruct (Inv q Hin Ho) as [H|[->|H]]; auto. congruence.
    + rewrite P in Hq. destruct (Inv q Hq Ho) as [H|[<-|H]]; auto.
Qed.

Lemma exit_loop_idle (now : datetime) (l : list Position) (db : Db) (n : Z) :
  (forall q, In q l -> exit_signal fmp as_of_ q = None) ->
  fold_left (guarded (exit_it now)) l (db, n) = (db, n).
Proof.
  induction l as [|p l IH]; intros H; simpl; [reflexivity|].
  rewrite exit_iteration_none by (apply H; left; reflexivity).
  apply IH. intros q Hq. apply H. right. exact Hq.
Qed.

Lemma entry_done_same_rows (db db' : Db) (x : string) :
  positions db' = positions db -> alerts db' = alerts db ->
  edone db x -> edone db' x.
Proof.
  intros P A. apply entry_done_le. unfold db_le, has_position, has_alert.
  rewrite P, A. auto.
Qed.

Lemma insert_symbols_symbols (now : datetime) (l : list string)
  (rows rows' : list SymbolsCache) :
  insert_symbols now rows l = Ok rows' ->
  map cache_symbol rows' = (map cache_symbol rows ++ l)%list.
Proof.
  revert rows. induction l as [|s l IH]; intros rows; simpl.
  - intros H. injection H as <-. rewrite app_nil_r. reflexivity.
  - unfold insert_symbol. destruct (existsb _ rows); simpl; [discriminate|].
    intros H. rewrite (IH _ H), map_app, <- app_assoc. reflexivity.
Qed.

Lemma insert_symbols_again (now now' : datetime) (l : list string)
  (rows rows' rows2 : list SymbolsCache) :
  insert_symbols now rows l = Ok rows' ->
  map cache_symbol rows2 = map cache_symbol rows ->
  exists rows2', insert_symbols now' rows2 l = Ok rows2'.
Proof.
  revert rows rows2. induction l as [|s l IH]; intros rows rows2; simpl.
  - eauto.
  - unfold insert_symbol. intros H M.
    assert (E : existsb (fun c => String.eqb (cache_symbol c) s) rows2
                = existsb (fun c => String.eqb (cache_symbol c) s) rows).
    { transitivity (existsb (fun t => String.eqb t s) (map cache_symbol rows2)).
      - clear. induction rows2; simpl; congruence.
      - rewrite M. clear. induction rows; simpl; congruence. }
    rewrite E. destruct (existsb _ rows); simpl in *; [discriminate|].
    eapply IH; [exact H|]. rewrite !map_app, M. reflexivity.
Qed.

Lemma cache_stays_stale (now1 now2 : datetime) (cached : list SymbolsCache) :
  now1 <= now2 -> cache_is_fresh cache_ttl now1 cached = false ->
  cache_is_fresh cache_ttl now2 cached = false.
Proof.
  unfold cache_is_fresh. destruct cached as [|c rest]; [reflexivity|].
  rewrite !Z.ltb_ge. lia.
Qed.

(** Unless the cache that served the first call has expired at the second,
    the second call returns the same list of symbols and touches no
    position and no alert. *)
Lemma get_sp500_symbols_again (now1 now2 : datetime) (db db1 dbx : Db)
  (symbols : list string) :
  now1 <= now2 ->
  (cache_is_fresh cache_ttl now1 (symbols_cache db) = true ->
   cache_is_fresh cache_ttl now2 (symbols_cache db) = true) ->
  get_sp500_symbols fmp cache_ttl now1 db = (db1, Ok symbols) ->
  symbols_cache dbx = symbols_cache db1 ->
  exists dbx', get_sp500_symbols fmp cache_ttl now2 dbx = (dbx', Ok symbols)
               /\ positions dbx' = positions dbx /\ alerts dbx' = alerts dbx.
Proof.
  intros Hle Hfresh H Hc. unfold get_sp500_symbols in *.
  destruct (cache_is_fresh cache_ttl now1 (symbols_cache db)) eqn:F1.
  - injection H as <- <-. rewrite Hc, (Hfresh eq_refl). eauto.
  - pose proof (cache_stays_stale now1 now2 _ Hle F1) as F2.
    destruct (fmp_get_sp500_constituents fmp) as [[|s l]|e]; try discriminate.
    + assert (db1 = db /\ symbols = map cache_symbol (symbols_cache db)) as [-> ->].
      { destruct (symbols_cache db); injection H as <- <-; auto. }
      rewrite Hc, F2. exists dbx. destruct (symbols_cache db); auto.
    + destruct (insert_symbols now1 [] (s :: l)) as [rows|e] eqn:I; try discriminate.
      injection H as <- <-. simpl in Hc. rewrite Hc.
      destruct (cache_is_fresh cache_ttl now2 rows).
      * exists dbx. rewrite (insert_symbols_symbols _ _ _ _ I). auto.
      * destruct (insert_symbols_again now1 now2 _ _ _ [] I eq_refl) as [rows2 ->].
        eexists. split; [reflexivity|]. auto.
Qed.


End Scans.




(** ** Decimal arithmetic: digits and rounding *)

Lemma pow10_pos (k : Z) : 0 <= k -> 0 < 10 ^ k.
Proof. intros H. apply Z.pow_pos_nonneg; lia. Qed.

Lemma pow10_succ (k : Z) : 0 <= k -> 10 ^ (k + 1) = 10 * 10 ^ k.
Proof. intros H. rewrite Z.pow_add_r by lia. lia. Qed.

Lemma ndigits_fuel_spec (fuel : nat) (n : Z) :
  0 <= n < 2 ^ Z.of_nat fuel ->
  1 <= ndigits_fuel fuel n
  /\ n < 10 ^ ndigits_fuel fuel n
  /\ (0 < n -> 10 ^ (ndigits_fuel fuel n - 1) <= n).
Proof.
  revert n. induction fuel as [|fuel IH]; intros n Hn.
  - simpl in *. assert (n = 0) by lia. subst n. split; [lia|]. split; lia.
  - cbn [ndigits_fuel]. destruct (n <? 10) eqn:E.
    + apply Z.ltb_lt in E. split; [lia|]. split; [simpl; lia|].
      intros Hp. simpl. lia.
    + apply Z.ltb_ge in E.
      assert (Hq : 0 <= n / 10 < 2 ^ Z.of_nat fuel).
      { split; [apply Z.div_pos; lia|].
        apply Z.div_lt_upper_bound; [lia|].
        rewrite Nat2Z.inj_succ, Z.pow_succ_r in Hn by lia. lia. }
      destruct (IH _ Hq) as (H1 & H2 & H3).
      assert (0 < n / 10) by (apply Z.div_str_pos; lia).
      specialize (H3 ltac:(lia)).
      pose proof (Z.div_mod n 10 ltac:(lia)) as Hdm.
      pose proof (Z.mod_pos_bound n 10 ltac:(lia)) as Hmb.
      split; [lia|]. split.
      * replace (1 + ndigits_fuel fuel (n / 10)) with (ndigits_fuel fuel (n / 10) + 1) by lia.
        rewrite pow10_succ by lia. lia.
      * intros _. replace (1 + ndigits_fuel fuel (n / 10) - 1)
          with (ndigits_fuel fuel (n / 10) - 1 + 1) by lia.
        rewrite pow10_succ by lia. lia.
Qed.

Lemma ndigits_spec (n : Z) :
  0 <= n ->
  1 <= ndigits n /\ n < 10 ^ ndigits n /\ (0 < n -> 10 ^ (ndigits n - 1) <= n).
Proof.
  intros Hn. unfold ndigits. apply ndigits_fuel_spec. split; [lia|].
  destruct (Z.eq_dec n 0) as [->|Hne]; [simpl; lia|].
  rewrite Nat2Z.inj_succ, Z2Nat.id by apply Z.log2_nonneg.
  apply Z.log2_spec. lia.
Qed.

(** A positive number between [10 ^ (m - 1)] and [10 ^ m] has [m] digits. *)
Lemma ndigits_unique (n m : Z) :
  10 ^ (m - 1) <= n < 10 ^ m -> 1 <= m -> ndigits n = m.
Proof.
  intros [Hlo Hhi] Hm.
  assert (Hpos : 0 < n) by (pose proof (pow10_pos (m - 1)); lia).
  destruct (ndigits_spec n ltac:(lia)) as (H1 & H2 & H3). specialize (H3 Hpos).
  destruct (Z.lt_trichotomy (ndigits n) m) as [L|[E|L]]; [|exact E|].
  - exfalso. assert (10 ^ ndigits n <= 10 ^ (m - 1))
      by (apply Z.pow_le_mono_r; lia). lia.
  - exfalso. assert (10 ^ m <= 10 ^ (ndigits n - 1))
      by (apply Z.pow_le_mono_r; lia). lia.
Qed.

(** Rounding keeps a coefficient between the multiples of [10 ^ k] around
    it. *)
Lemma round_half_even_bounds (x k lo hi : Z) :
  0 <= k -> 0 <= x ->
  (lo * 10 ^ k <= x -> lo <= round_half_even x k)
  /\ (x <= hi * 10 ^ k -> round_half_even x k <= hi).
Proof.
  intros Hk Hx. pose proof (pow10_pos k Hk) as Hp.
  pose proof (Z.div_mod x (10 ^ k) ltac:(lia)) as Hdm.
  pose proof (Z.mod_pos_bound x (10 ^ k) Hp) as Hmb.
  unfold round_half_even. cbv zeta.
  set (q := x / 10 ^ k) in *. set (r := x mod 10 ^ k) in *.
  split; intros H.
  - assert (lo <= q) by nia.
    destruct (2 * r >? 10 ^ k); [lia|].
    destruct (2 * r =? 10 ^ k); [destruct (Z.odd q); lia | lia].
  - destruct (Z.le_gt_cases (q + 1) hi) as [L|G].
    + destruct (2 * r >? 10 ^ k); [lia|].
      destruct (2 * r =? 10 ^ k); [destruct (Z.odd q); lia | lia].
    + assert (q = hi /\ r = 0) as [-> Hr] by nia.
      rewrite Hr. replace (2 * 0) with 0 by lia.
      destruct (0 >? 10 ^ k) eqn:E1; [apply Z.gtb_lt in E1; lia|].
      destruct (0 =? 10 ^ k) eqn:E2; [apply Z.eqb_eq in E2; lia|]. lia.
Qed.

(** [dec_le] compares the coefficients at any exponent below both. *)
Lemma dec_le_scaled (x y : Decimal) (e0 : Z) :
  e0 <= expo x -> e0 <= expo y ->
  dec_le x y = true <->
  coef x * 10 ^ (expo x - e0) <= coef y * 10 ^ (expo y - e0).
Proof.
  intros Hx Hy. unfold dec_le. cbv zeta. rewrite Z.leb_le.
  set (e := Z.min (expo x) (expo y)).
  assert (He : e0 <= e) by (unfold e; lia).
  assert (Ex : 10 ^ (expo x - e0) = 10 ^ (expo x - e) * 10 ^ (e - e0)).
  { rewrite <- Z.pow_add_r by (unfold e; lia). f_equal. lia. }
  assert (Ey : 10 ^ (expo y - e0) = 10 ^ (expo y - e) * 10 ^ (e - e0)).
  { rewrite <- Z.pow_add_r by (unfold e; lia). f_equal. lia. }
  rewrite Ex, Ey. pose proof (pow10_pos (e - e0) ltac:(lia)) as Hp.
  rewrite !Z.mul_assoc. split; intros H.
  - apply Z.mul_le_mono_nonneg_r; lia.
  - apply Z.mul_le_mono_pos_r in H; lia.
Qed.

Lemma fix_short (d : Decimal) :
  coef d <> 0 -> Z.abs (coef d) < 10 ^ prec -> Etiny <= expo d <= Etop ->
  _fix d = Ok d.
Proof.
  intros Hnz Hlt He. unfold _fix. cbv zeta.
  destruct (Z.abs (coef d) =? 0) eqn:E0; [apply Z.eqb_eq in E0; lia|].
  destruct (ndigits_spec (Z.abs (coef d)) ltac:(lia)) as (N1 & N2 & N3).
  specialize (N3 ltac:(lia)).
  assert (Hn : ndigits (Z.abs (coef d)) <= prec).
  { destruct (Z.le_gt_cases (ndigits (Z.abs (coef d))) prec) as [L|G]; [exact L|].
    exfalso. assert (10 ^ prec <= 10 ^ (ndigits (Z.abs (coef d)) - 1))
      by (apply Z.pow_le_mono_r; lia). lia. }
  unfold Etiny, Etop, Emin, Emax, prec in *.
  destruct (_ >? _) eqn:E1; [apply Z.gtb_lt in E1; lia|].
  match goal with |- context [expo d <? ?em] => set (exp_min := em) end.
  assert (Hem : exp_min <= expo d).
  { unfold exp_min. destruct (_ <? _); lia. }
  destruct (expo d <? exp_min) eqn:E3; [apply Z.ltb_lt in E3; lia | reflexivity].
Qed.

Lemma fix_zero (e : Z) :
  exists e', _fix (mkDec 0 e) = Ok (mkDec 0 e').
Proof. unfold _fix. simpl. eauto. Qed.

(** A coefficient of more than 28 digits, in the normal range of exponents,
    is rounded to 28 digits: the result is the rounded coefficient at the
    exponent raised by the number of digits dropped. *)
Lemma fix_long (d : Decimal) (n : Z) :
  ndigits (Z.abs (coef d)) = n -> prec < n ->
  Etiny <= n + expo d - prec < Etop ->
  exists c' e',
    _fix d = Ok (mkDec (Z.sgn (coef d) * c') e')
    /\ expo d + (n - prec) <= e'
    /\ c' * 10 ^ (e' - (expo d + (n - prec)))
       = round_half_even (Z.abs (coef d)) (n - prec)
    /\ 0 < c' < 10 ^ prec.
Proof.
  intros Hn Hlong He. unfold _fix. cbv zeta. rewrite Hn.
  destruct (ndigits_spec (Z.abs (coef d)) (Z.abs_nonneg _)) as (N1 & N2 & N3).
  rewrite Hn in N1, N2, N3.
  assert (Hpos : 0 < Z.abs (coef d)).
  { destruct (Z.eq_dec (Z.abs (coef d)) 0) as [E|E]; [|lia].
    rewrite E in Hn. vm_compute in Hn. unfold prec in *. lia. }
  specialize (N3 Hpos).
  destruct (Z.abs (coef d) =? 0) eqn:E0; [apply Z.eqb_eq in E0; lia|].
  unfold Etiny, Etop, Emin, Emax, prec in *.
  destruct (n + expo d - 28 >? 999999 - 28 + 1) eqn:E1; [apply Z.gtb_lt in E1; lia|].
  destruct (n + expo d - 28 <? -999999 - 28 + 1) eqn:E2; [apply Z.ltb_lt in E2; lia|].
  destruct (expo d <? n + expo d - 28) eqn:E3; [|apply Z.ltb_ge in E3; lia].
  replace (n + expo d - (n + expo d - 28)) with 28 by lia.
  change (28 <? 0) with false. cbv iota.
  replace (n + expo d - 28 - expo d) with (n - 28) by lia.
  set (c := round_half_even (Z.abs (coef d)) (n - 28)).
  assert (Hc : 10 ^ 27 <= c <= 10 ^ 28).
  { destruct (round_half_even_bounds (Z.abs (coef d)) (n - 28) (10 ^ 27) (10 ^ 28)
                ltac:(lia) ltac:(lia)) as [Lo Hi].
    assert (P1 : 10 ^ 27 * 10 ^ (n - 28) = 10 ^ (n - 1)).
    { rewrite <- Z.pow_add_r by lia. f_equal. lia. }
    assert (P2 : 10 ^ 28 * 10 ^ (n - 28) = 10 ^ n).
    { rewrite <- Z.pow_add_r by lia. f_equal. lia. }
    fold c in Lo, Hi. split; [apply Lo | apply Hi]; lia. }
  destruct (Z.eq_dec c (10 ^ 28)) as [Ec|Ec].
  - rewrite Ec. change (ndigits (10 ^ 28) >? 28) with true. cbv iota.
    destruct (n + expo d - 28 + 1 >? 999999 - 28 + 1) eqn:E4;
      [apply Z.gtb_lt in E4; lia|].
    exists (10 ^ 28 / 10), (n + expo d - 28 + 1).
    split; [reflexivity|]. split; [lia|].
    split; [|split; vm_compute; reflexivity].
    replace (n + expo d - 28 + 1 - (expo d + (n - 28))) with 1 by lia.
    vm_compute. reflexivity.
  - assert (Hd : ndigits c = 28) by (apply ndigits_unique; lia).
    rewrite Hd. change (28 >? 28) with false. cbv iota.
    rewrite E1.
    exists c, (n + expo d - 28). split; [reflexivity|]. split; [lia|].
    split; [|pose proof (pow10_pos 27); lia].
    replace (n + expo d - 28 - (expo d + (n - 28))) with 0 by lia.
    rewrite Z.pow_0_r. lia.
Qed.

(** ** Decimal arithmetic: the quotient of two plain prices *)

Lemma pow10_split (a b : Z) : 0 <= a -> 0 <= b -> 10 ^ (a + b) = 10 ^ a * 10 ^ b.
Proof. intros. apply Z.pow_add_r; lia. Qed.

(** The digit counts of plain prices and the shift of the division. *)
Lemma plain_digits (d : Decimal) :
  plain_price d ->
  1 <= ndigits (coef d) <= 26
  /\ 10 ^ (ndigits (coef d) - 1) <= coef d < 10 ^ ndigits (coef d).
Proof.
  intros [[Hpos Hlt] _].
  destruct (ndigits_spec (coef d) ltac:(lia)) as (N1 & N2 & N3).
  specialize (N3 Hpos). split; [|lia]. split; [lia|].
  destruct (Z.le_gt_cases (ndigits (coef d)) 26) as [L|G]; [exact L|].
  exfalso. assert (10 ^ 26 <= 10 ^ (ndigits (coef d) - 1))
    by (apply Z.pow_le_mono_r; lia). lia.
Qed.

(** The scaled numerator against the denominator: the integer quotient has
    29 or 30 digits. *)
Lemma quotient_digits (A P : Z) :
  let shift := ndigits P - ndigits A + 29 in
  1 <= ndigits A -> 10 ^ (ndigits A - 1) <= A < 10 ^ ndigits A ->
  1 <= ndigits P -> 10 ^ (ndigits P - 1) <= P < 10 ^ ndigits P ->
  0 <= shift ->
  10 ^ 28 * P <= A * 10 ^ shift < 10 ^ 30 * P.
Proof.
  cbv zeta. intros HA1 HA HP1 HP Hs.
  set (nA := ndigits A) in *. set (nP := ndigits P) in *.
  assert (E1 : 10 ^ (nA - 1) * 10 ^ (nP - nA + 29) = 10 ^ 28 * 10 ^ nP).
  { rewrite <- !Z.pow_add_r by lia. f_equal. lia. }
  assert (E2 : 10 ^ nA * 10 ^ (nP - nA + 29) = 10 ^ 30 * 10 ^ (nP - 1)).
  { rewrite <- !Z.pow_add_r by lia. f_equal. lia. }
  pose proof (pow10_pos (nP - nA + 29) Hs) as Hsp.
  pose proof (pow10_pos (nP - 1) ltac:(lia)) as Hpp.
  split.
  - apply Z.le_trans with (10 ^ 28 * 10 ^ nP).
    + apply Z.mul_le_mono_nonneg_l; [apply Z.pow_nonneg|]; lia.
    + rewrite <- E1. apply Z.mul_le_mono_nonneg_r; lia.
  - apply Z.lt_le_trans with (10 ^ nA * 10 ^ (nP - nA + 29)).
    + apply Z.mul_lt_mono_pos_r; lia.
    + rewrite E2. apply Z.mul_le_mono_nonneg_l; [apply Z.pow_nonneg|]; lia.
Qed.

(** The coefficient the division hands to [_fix]: the integer quotient,
    plus one when the division is inexact and the quotient ends in 0 or 5.
    It stays on the side of every multiple of the denominator the numerator
    is on, and it is a multiple of 5 only when the division is exact. *)
Lemma sticky_coeff (N P : Z) :
  0 < P -> 10 ^ 28 * P <= N < 10 ^ 30 * P ->
  let coeff := if negb (N mod P =? 0) && ((N / P) mod 5 =? 0)
               then N / P + 1 else N / P in
  10 ^ 28 <= coeff < 10 ^ 30
  /\ (forall G, N <= G * P -> coeff <= G)
  /\ (forall G, G * P <= N -> G <= coeff)
  /\ (coeff mod 5 = 0 -> N = coeff * P).
Proof.
  intros HP [Hlo Hhi]. cbv zeta.
  pose proof (Z.div_mod N P ltac:(lia)) as Hdm.
  pose proof (Z.mod_pos_bound N P HP) as Hmb.
  set (c0 := N / P) in *. set (rem := N mod P) in *.
  assert (Hc0 : 10 ^ 28 <= c0 < 10 ^ 30) by nia.
  pose proof (Z.div_mod c0 5 ltac:(lia)) as H5.
  pose proof (Z.div_mod (c0 + 1) 5 ltac:(lia)) as H5'.
  pose proof (Z.mod_pos_bound c0 5 ltac:(lia)) as B5.
  pose proof (Z.mod_pos_bound (c0 + 1) 5 ltac:(lia)) as B5'.
  change (10 ^ 28) with 10000000000000000000000000000 in *.
  change (10 ^ 30) with 1000000000000000000000000000000 in *.
  destruct (rem =? 0) eqn:Er; simpl negb; cbv iota.
  - apply Z.eqb_eq in Er. simpl andb. cbv iota.
    split; [lia|]. split; [intros G HG; nia|]. split; [intros G HG; nia|].
    intros _. lia.
  - apply Z.eqb_neq in Er. simpl andb.
    destruct (c0 mod 5 =? 0) eqn:E5.
    + apply Z.eqb_eq in E5. split; [lia|].
      split; [intros G HG; nia|]. split; [intros G HG; nia|].
      intros H. exfalso. lia.
    + apply Z.eqb_neq in E5. split; [lia|].
      split; [intros G HG; nia|]. split; [intros G HG; nia|].
      intros H. exfalso. lia.
Qed.

(** The quotient of two plain prices: [dec_div] returns, and the decimal it
    returns is the scaled integer quotient rounded to 28 digits. With
    [shift] the shift of the division and [k] the number of digits
    dropped, its value is [v * 10 ^ E] where [E = expo a - expo p - shift
    + k] and [v], between [10 ^ 27] and [10 ^ 28], is on the side of every
    [M] that the exact quotient, in units of [10 ^ E], is on. *)
Lemma dec_div_plain (a p : Decimal) :
  plain_price a -> plain_price p ->
  let shift := ndigits (coef p) - ndigits (coef a) + 29 in
  let N := coef a * 10 ^ shift in
  exists k v cq eq,
    (k = 1 \/ k = 2) /\ 4 <= shift <= 54
    /\ dec_div a p = Ok (mkDec cq eq)
    /\ expo a - expo p - shift + k <= eq
    /\ cq * 10 ^ (eq - (expo a - expo p - shift + k)) = v
    /\ 0 < cq < 10 ^ 28
    /\ coef p * 1000 < 10 ^ shift
    /\ 10 ^ 27 <= v <= 10 ^ 28
    /\ 10 ^ (27 + k) * coef p <= N < 10 ^ (28 + k) * coef p
    /\ (forall M, N <= M * 10 ^ k * coef p -> v <= M)
    /\ (forall M, M * 10 ^ k * coef p <= N -> M <= v).
Proof.
  intros Ha Hp. cbv zeta.
  destruct (plain_digits a Ha) as (DA1 & DA2).
  destruct (plain_digits p Hp) as (DP1 & DP2).
  destruct Ha as [[HA0 HA26] HAe]. destruct Hp as [[HP0 HP26] HPe].
  unfold price_exponent_bound in *.
  set (A := coef a) in *. set (P := coef p) in *.
  set (shift := ndigits P - ndigits A + 29).
  assert (Hshift : 4 <= shift <= 54) by (unfold shift; lia).
  pose proof (quotient_digits A P ltac:(lia) DA2 ltac:(lia) DP2 ltac:(fold shift; lia))
    as HN. cbv zeta in HN. fold shift in HN.
  set (N := A * 10 ^ shift) in *.
  destruct (sticky_coeff N P HP0 HN) as (Hc & Hle & Hge & H5). cbv zeta in Hc, Hle, Hge, H5.
  set (coeff := if negb (N mod P =? 0) && ((N / P) mod 5 =? 0)
                then N / P + 1 else N / P) in *.
  (* the number of digits dropped *)
  assert (Hk : exists k, (k = 1 \/ k = 2) /\ ndigits coeff = 28 + k
                         /\ 10 ^ (27 + k) <= coeff < 10 ^ (28 + k)).
  { destruct (Z.lt_ge_cases coeff (10 ^ 29)) as [L|G].
    - exists 1. split; [auto|]. split; [apply ndigits_unique; simpl; lia | simpl; lia].
    - exists 2. split; [auto|]. split; [apply ndigits_unique; simpl; lia | simpl; lia]. }
  destruct Hk as (k & Hk & Hnd & Hck).
  (* the division *)
  assert (Hdiv : dec_div a p = _fix (mkDec coeff (expo a - expo p - shift))).
  { unfold dec_div. fold A P.
    destruct (P =? 0) eqn:E1; [apply Z.eqb_eq in E1; lia|].
    destruct (A =? 0) eqn:E2; [apply Z.eqb_eq in E2; lia|].
    cbv zeta. rewrite !Z.abs_eq by lia.
    replace (ndigits P - ndigits A + prec + 1) with shift by (unfold shift, prec; lia).
    assert (E3 : (0 <=? shift) = true) by (apply Z.leb_le; lia).
    rewrite E3. fold N. fold coeff.
    rewrite !Z.sgn_pos by lia. rewrite !Z.mul_1_l. reflexivity. }
  assert (Hcpos : 0 < coeff) by (pose proof (pow10_pos 28); lia).
  destruct (fix_long (mkDec coeff (expo a - expo p - shift)) (28 + k)) as
    (c' & e' & Hfix & He' & Hval & Hc').
  { cbn [coef expo]. rewrite Z.abs_eq by lia. exact Hnd. }
  { unfold prec. lia. }
  { cbn [coef expo]. unfold Etiny, Etop, Emin, Emax, prec. lia. }
  cbn [coef expo] in Hfix, He', Hval. rewrite Z.abs_eq in Hval by lia.
  rewrite Z.sgn_pos, Z.mul_1_l in Hfix by lia. unfold prec in *.
  replace (28 + k - 28) with k in * by lia.
  set (v := round_half_even coeff k) in *.
  destruct (round_half_even_bounds coeff k (10 ^ 27) (10 ^ 28) ltac:(lia) ltac:(lia))
    as [Lo Hi]. fold v in Lo, Hi.
  assert (P1 : 10 ^ 27 * 10 ^ k = 10 ^ (27 + k)) by (rewrite <- Z.pow_add_r; lia).
  assert (P2 : 10 ^ 28 * 10 ^ k = 10 ^ (28 + k)) by (rewrite <- Z.pow_add_r; lia).
  exists k, v, c', e'.
  split; [exact Hk|]. split; [exact Hshift|].
  split; [rewrite Hdiv, Hfix; reflexivity|].
  split; [lia|].
  split; [rewrite <- Hval; f_equal; f_equal; lia|].
  split; [exact Hc'|].
  split.
  { assert (E : 10 ^ shift = 10 ^ (ndigits P) * 10 ^ (shift - ndigits P)).
    { rewrite <- Z.pow_add_r by (unfold shift; lia). f_equal. lia. }
    assert (G : 10 ^ 3 <= 10 ^ (shift - ndigits P))
      by (apply Z.pow_le_mono_r; unfold shift; lia).
    change (10 ^ 3) with 1000 in G. rewrite E.
    pose proof (pow10_pos (ndigits P) ltac:(lia)) as HnP.
    apply Z.lt_le_trans with (10 ^ ndigits P * 1000).
    - apply Z.mul_lt_mono_pos_r; lia.
    - apply Z.mul_le_mono_nonneg_l; lia. }
  split; [split; [apply Lo | apply Hi]; lia|].
  split.
  { split.
    - destruct (Z.le_gt_cases (10 ^ (27 + k) * P) N) as [L|G]; [exact L|].
      exfalso.
      assert (E : coeff = 10 ^ (27 + k)) by (specialize (Hle (10 ^ (27 + k))); lia).
      assert (M5 : coeff mod 5 = 0).
      { rewrite E. destruct Hk as [-> | ->]; vm_compute; reflexivity. }
      specialize (H5 M5). lia.
    - destruct (Z.lt_ge_cases N (10 ^ (28 + k) * P)) as [L|G]; [exact L|].
      exfalso. specialize (Hge (10 ^ (28 + k))). lia. }
  split.
  - intros M HM.
    destruct (round_half_even_bounds coeff k M M ltac:(lia) ltac:(lia)) as [_ Hi'].
    apply Hi'. apply Hle. exact HM.
  - intros M HM.
    destruct (round_half_even_bounds coeff k M M ltac:(lia) ltac:(lia)) as [Lo' _].
    apply Lo'. apply Hge. exact HM.
Qed.

(** ** Decimal arithmetic: one less than a quotient *)

Lemma bool_eq_iff (b1 b2 : bool) : (b1 = true <-> b2 = true) -> b1 = b2.
Proof.
  destruct b1, b2; intros [H1 H2]; try reflexivity.
  - symmetry. apply H1. reflexivity.
  - apply H2. reflexivity.
Qed.

Lemma dec_le_false_scaled (x y : Decimal) (e0 : Z) :
  e0 <= expo x -> e0 <= expo y ->
  coef y * 10 ^ (expo y - e0) < coef x * 10 ^ (expo x - e0) ->
  dec_le x y = false.
Proof.
  intros Hx Hy H. destruct (dec_le x y) eqn:E; [|reflexivity].
  apply (dec_le_scaled x y e0 Hx Hy) in E. lia.
Qed.

Lemma dec_le_true_scaled (x y : Decimal) (e0 : Z) :
  e0 <= expo x -> e0 <= expo y ->
  coef x * 10 ^ (expo x - e0) <= coef y * 10 ^ (expo y - e0) ->
  dec_le x y = true.
Proof. intros Hx Hy H. apply (dec_le_scaled x y e0 Hx Hy). exact H. Qed.

(** Taking one from a positive decimal of at most 28 digits moves it across
    no two-digit threshold: [q - 1] compares with [t/100 - 1] as [q] does
    with [t/100]. *)
Lemma sub_one_threshold (q : Decimal) (t : Z) :
  0 < coef q < 10 ^ 28 -> -900000 <= expo q <= 900000 -> 11 <= t <= 99 ->
  exists r, dec_sub q dec_one = Ok r
    /\ dec_le r (mkDec (t - 100) (-2)) = dec_le q (mkDec t (-2))
    /\ dec_le (mkDec (t - 100) (-2)) r = dec_le (mkDec t (-2)) q.
Proof.
  destruct q as [c e]. cbn [coef expo]. intros Hc He Ht.
  unfold dec_sub, dec_one. cbn [coef expo].
  destruct (Z.lt_ge_cases e (-28)) as [Lo|Hi]; [|destruct (Z.le_gt_cases e 0) as [Mid|Pos]].
  - (* q below 0.1: the difference is rounded, and stays at or below -0.9 *)
    rewrite Z.min_l by lia. replace (e - e) with 0 by lia.
    rewrite Z.pow_0_r, Z.mul_1_r, Z.mul_1_l.
    set (X := 10 ^ (- e - 1)).
    assert (HX : 10 ^ (0 - e) = 10 * X).
    { unfold X. rewrite <- pow10_succ by lia. f_equal. lia. }
    assert (HX28 : 10 ^ 28 <= X) by (apply Z.pow_le_mono_r; lia).
    rewrite HX.
    assert (Hneg : c - 10 * X < 0) by lia.
    assert (Habs : Z.abs (c - 10 * X) = 10 * X - c) by lia.
    assert (Hnd : ndigits (10 * X - c) = - e).
    { apply ndigits_unique; [|lia]. fold X.
      replace (- e) with (- e - 1 + 1) by lia. rewrite pow10_succ by lia. fold X. lia. }
    destruct (fix_long (mkDec (c - 10 * X) e) (- e)) as (c' & e' & Hfix & He' & Hval & Hc').
    { cbn [coef]. rewrite Habs. exact Hnd. }
    { unfold prec. lia. }
    { cbn [expo]. unfold Etiny, Etop, Emin, Emax, prec. lia. }
    cbn [coef expo] in Hfix, He', Hval. rewrite Habs in Hval.
    rewrite Z.sgn_neg in Hfix by lia. unfold prec in *.
    replace (e + (- e - 28)) with (-28) in * by lia.
    destruct (round_half_even_bounds (10 * X - c) (- e - 28) (9 * 10 ^ 27) 0
                ltac:(lia) ltac:(lia)) as [Lb _].
    assert (HX' : 10 ^ 27 * 10 ^ (- e - 28) = X).
    { unfold X. rewrite <- Z.pow_add_r by lia. f_equal. lia. }
    assert (Hr : 9 * 10 ^ 27 <= round_half_even (10 * X - c) (- e - 28)).
    { apply Lb. rewrite <- Z.mul_assoc, HX'. lia. }
    rewrite <- Hval in Hr.
    exists (mkDec (-1 * c') e'). split; [exact Hfix|].
    assert (P27 : 10 ^ (-2 - e) = 10 ^ 26 * 10 ^ (- e - 28)).
    { rewrite <- Z.pow_add_r by lia. f_equal. lia. }
    pose proof (pow10_pos (- e - 28) ltac:(lia)) as Hp.
    split.
    + transitivity true; [|symmetry].
      * apply (dec_le_true_scaled _ _ (-28)); cbn [coef expo]; [lia | lia | ].
        replace (-2 - -28) with 26 by lia. replace (e' - -28) with (e' - -28) by lia.
        change (10 ^ 26) with 100000000000000000000000000.
        change (10 ^ 27) with 1000000000000000000000000000 in Hr. lia.
      * apply (dec_le_true_scaled _ _ e); cbn [coef expo]; [lia | lia | ].
        replace (e - e) with 0 by lia. rewrite Z.pow_0_r, P27.
        change (10 ^ 28) with 10000000000000000000000000000 in *.
        change (10 ^ 26) with 100000000000000000000000000. nia.
    + transitivity false; [|symmetry].
      * apply (dec_le_false_scaled _ _ (-28)); cbn [coef expo]; [lia | lia | ].
        replace (-2 - -28) with 26 by lia.
        change (10 ^ 26) with 100000000000000000000000000.
        change (10 ^ 27) with 1000000000000000000000000000 in Hr. lia.
      * apply (dec_le_false_scaled _ _ e); cbn [coef expo]; [lia | lia | ].
        replace (e - e) with 0 by lia. rewrite Z.pow_0_r, P27.
        change (10 ^ 28) with 10000000000000000000000000000 in *.
        change (10 ^ 26) with 100000000000000000000000000. nia.
  - (* the difference is exact *)
    rewrite Z.min_l by lia. replace (e - e) with 0 by lia.
    rewrite Z.pow_0_r, Z.mul_1_r, Z.mul_1_l.
    set (Y := 10 ^ (0 - e)).
    assert (HY : 1 <= Y <= 10 ^ 28).
    { unfold Y. split; [pose proof (pow10_pos (0 - e)); lia|].
      apply Z.pow_le_mono_r; lia. }
    assert (Hr : exists r, _fix (mkDec (c - Y) e) = Ok r /\ coef r = c - Y /\ expo r = e).
    { destruct (Z.eq_dec (c - Y) 0) as [E0|E0].
      - rewrite E0. unfold _fix. cbn [coef expo]. simpl Z.abs. simpl (0 =? 0).
        cbv iota. eexists. split; [reflexivity|]. cbn [coef expo].
        unfold Etiny, Emin, Emax, prec. split; lia.
      - exists (mkDec (c - Y) e). split; [|auto].
        apply fix_short; cbn [coef expo]; unfold Etiny, Etop, Emin, Emax, prec; lia. }
    destruct Hr as (r & Hfix & Hrc & Hre). exists r. split; [exact Hfix|].
    set (e0 := Z.min e (-2)).
    assert (He0 : e0 <= e /\ e0 <= -2) by (unfold e0; lia).
    assert (HYe : Y * 10 ^ (e - e0) = 100 * 10 ^ (-2 - e0)).
    { unfold Y. rewrite <- Z.pow_add_r by lia.
      replace (0 - e + (e - e0)) with (2 + (-2 - e0)) by lia.
      rewrite Z.pow_add_r by lia. reflexivity. }
    split; apply bool_eq_iff;
      rewrite (dec_le_scaled _ _ e0), (dec_le_scaled _ _ e0);
      cbn [coef expo]; try lia; rewrite ?Hrc, ?Hre; nia.
  - (* q is 10 or more: the difference is positive *)
    rewrite Z.min_r by lia. replace (0 - 0) with 0 by lia.
    rewrite Z.pow_0_r, Z.mul_1_r. replace (e - 0) with e by lia.
    set (Y := 10 ^ e).
    assert (HY : 10 <= Y).
    { unfold Y. change 10 with (10 ^ 1) at 1. apply Z.pow_le_mono_r; lia. }
    assert (Hpos : 0 < c * Y - 1) by nia.
    assert (Hr : exists r, _fix (mkDec (c * Y - 1) 0) = Ok r /\ 0 < coef r /\ 0 <= expo r).
    { destruct (Z.lt_ge_cases (c * Y - 1) (10 ^ 28)) as [S|L].
      - exists (mkDec (c * Y - 1) 0). split; [|cbn [coef expo]; lia].
        apply fix_short; cbn [coef expo]; unfold Etiny, Etop, Emin, Emax, prec; lia.
      - destruct (ndigits_spec (c * Y - 1) ltac:(lia)) as (N1 & N2 & N3).
        specialize (N3 Hpos). set (n := ndigits (c * Y - 1)) in *.
        assert (Hn28 : 28 < n).
        { destruct (Z.lt_ge_cases 28 n) as [G|G]; [exact G|]. exfalso.
          assert (10 ^ n <= 10 ^ 28) by (apply Z.pow_le_mono_r; lia). lia. }
        assert (Hnmax : n <= 28 + e).
        { destruct (Z.le_gt_cases n (28 + e)) as [G|G]; [exact G|]. exfalso.
          assert (10 ^ (28 + e) <= 10 ^ (n - 1)) by (apply Z.pow_le_mono_r; lia).
          rewrite Z.pow_add_r in H by lia. fold Y in H. nia. }
        destruct (fix_long (mkDec (c * Y - 1) 0) n) as (c' & e' & Hfix & He' & _ & Hc').
        { cbn [coef]. rewrite Z.abs_eq by lia. reflexivity. }
        { unfold prec. lia. }
        { cbn [expo]. unfold Etiny, Etop, Emin, Emax, prec. lia. }
        cbn [coef expo] in Hfix, He'. rewrite Z.sgn_pos in Hfix by lia.
        eexists. split; [exact Hfix|]. cbn [coef expo]. unfold prec in *. lia. }
    destruct Hr as (r & Hfix & Hrc & Hre). exists r. split; [exact Hfix|].
    pose proof (pow10_pos (expo r - -2) ltac:(lia)) as Hp1.
    assert (HY2 : 10 ^ (e - -2) = 100 * Y).
    { replace (e - -2) with (2 + e) by lia. rewrite Z.pow_add_r by lia. reflexivity. }
    split.
    + transitivity false; [|symmetry].
      * apply (dec_le_false_scaled _ _ (-2)); cbn [coef expo]; [lia | lia | ].
        replace (-2 - -2) with 0 by lia. rewrite Z.pow_0_r. nia.
      * apply (dec_le_false_scaled _ _ (-2)); cbn [coef expo]; [lia | lia | ].
        replace (-2 - -2) with 0 by lia. rewrite Z.pow_0_r, HY2. nia.
    + transitivity true; [|symmetry].
      * apply (dec_le_true_scaled _ _ (-2)); cbn [coef expo]; [lia | lia | ].
        replace (-2 - -2) with 0 by lia. rewrite Z.pow_0_r. nia.
      * apply (dec_le_true_scaled _ _ (-2)); cbn [coef expo]; [lia | lia | ].
        replace (-2 - -2) with 0 by lia. rewrite Z.pow_0_r, HY2. nia.
Qed.

(** ** Decimal arithmetic: the rounded quotient against the exact one *)

(** Comparing [100 * a] with [t * p] at the smaller exponent is comparing
    [100 * N] with [t * P] at the scale of the rounded quotient. *)
Lemma exact_scaled (A P t ea ep shift k : Z) :
  0 <= shift ->
  let b := Z.min ea ep in
  let E := ea - ep - shift + k in
  exists s, 0 < s
    /\ 100 * (A * 10 ^ shift) * 10 ^ Z.max (E - k) 0 = 100 * A * 10 ^ (ea - b) * s
    /\ t * P * 10 ^ Z.max (k - E) 0 = t * P * 10 ^ (ep - b) * s.
Proof.
  intros Hs. cbv zeta.
  destruct (Z.le_gt_cases (ea - ep - shift + k) k) as [L|G].
  - rewrite Z.max_r, Z.max_l by lia. rewrite Z.pow_0_r, Z.mul_1_r.
    exists (10 ^ (shift - (ea - Z.min ea ep))).
    split; [apply pow10_pos; lia|]. split.
    + rewrite <- !Z.mul_assoc. f_equal. f_equal.
      rewrite <- Z.pow_add_r by lia. f_equal. lia.
    + rewrite <- !Z.mul_assoc. f_equal. f_equal.
      rewrite <- Z.pow_add_r by lia. f_equal. lia.
  - rewrite Z.max_l, Z.max_r by lia. rewrite Z.pow_0_r, Z.mul_1_r.
    exists 1. split; [lia|]. rewrite !Z.mul_1_r.
    rewrite Z.min_r by lia. replace (ep - ep) with 0 by lia.
    rewrite Z.pow_0_r, Z.mul_1_r. split; [|reflexivity].
    rewrite <- !Z.mul_assoc. f_equal. f_equal.
    rewrite <- Z.pow_add_r by lia. f_equal. lia.
Qed.

(** Prices of at most 26 digits leave a gap: the scaled numerator is on a
    28-digit threshold of the quotient or a whole unit of the rounded
    coefficient away from it. *)
Lemma threshold_gap (A P t k shift : Z) :
  0 < A -> 0 < P < 10 ^ 26 -> 0 <= shift -> P * 1000 < 10 ^ shift ->
  k = 1 \/ k = 2 -> 0 <= t ->
  let N := A * 10 ^ shift in
  let T := t * 10 ^ 26 * 10 ^ k * P in
  (N <= T \/ T + 10 ^ k * P <= N) /\ (T <= N \/ N + 10 ^ k * P <= T).
Proof.
  intros HA HP Hs HPs Hk Ht. cbv zeta.
  assert (Hk10 : 1 <= 10 ^ k <= 100) by (destruct Hk as [-> | ->]; simpl; lia).
  destruct (Z.le_gt_cases shift (26 + k)) as [L|G].
  - set (S := 10 ^ shift) in *.
    assert (E : 10 ^ 26 * 10 ^ k = 10 ^ (26 + k - shift) * S).
    { unfold S. rewrite <- !Z.pow_add_r by lia. f_equal. lia. }
    set (R := 10 ^ (26 + k - shift)) in *.
    assert (ET : t * 10 ^ 26 * 10 ^ k * P = (t * R * P) * S) by nia.
    rewrite ET. assert (HS : 10 ^ k * P < S) by nia.
    split.
    + destruct (Z.le_gt_cases A (t * R * P)); [left | right]; nia.
    + destruct (Z.le_gt_cases (t * R * P) A); [left | right]; nia.
  - set (S := 10 ^ (26 + k)).
    assert (E1 : 10 ^ 26 * 10 ^ k = S) by (unfold S; rewrite <- Z.pow_add_r; lia).
    assert (E2 : 10 ^ shift = 10 ^ (shift - (26 + k)) * S).
    { unfold S. rewrite <- Z.pow_add_r by lia. f_equal. lia. }
    set (R := 10 ^ (shift - (26 + k))) in *.
    assert (ET : t * 10 ^ 26 * 10 ^ k * P = (t * P) * S) by nia.
    rewrite ET, E2. assert (HS : 10 ^ k * P < S) by nia.
    split.
    + destruct (Z.le_gt_cases (A * R) (t * P)); [left | right]; nia.
    + destruct (Z.le_gt_cases (t * P) (A * R)); [left | right]; nia.
Qed.

Lemma pow10_27k (k : Z) :
  k = 1 \/ k = 2 ->
  10 ^ (27 + k) = 10 ^ 27 * 10 ^ k /\ 10 ^ (28 + k) = 10 ^ 28 * 10 ^ k
  /\ (10 ^ k = 10 \/ 10 ^ k = 100).
Proof. intros [-> | ->]; repeat split; auto. Qed.

(** The three places of the quotient against a threshold [t/100]: below
    0.1, between 0.1 and 1, and from 1 on. [v] is the rounded coefficient
    at exponent [E]; [L] and [R] are [100 * a] and [t * p] at one scale. *)
Lemma threshold_cases (N P t k E v : Z) :
  0 < P -> 11 <= t <= 99 -> k = 1 \/ k = 2 ->
  10 ^ 27 <= v <= 10 ^ 28 ->
  10 ^ (27 + k) * P <= N < 10 ^ (28 + k) * P ->
  (forall M, N <= M * 10 ^ k * P -> v <= M) ->
  (forall M, M * 10 ^ k * P <= N -> M <= v) ->
  (N <= t * 10 ^ 26 * 10 ^ k * P \/ t * 10 ^ 26 * 10 ^ k * P + 10 ^ k * P <= N) ->
  (t * 10 ^ 26 * 10 ^ k * P <= N \/ N + 10 ^ k * P <= t * 10 ^ 26 * 10 ^ k * P) ->
  let L := 100 * N * 10 ^ Z.max (E - k) 0 in
  let R := t * P * 10 ^ Z.max (k - E) 0 in
  let e0 := Z.min E (-2) in
  (v * 10 ^ (E - e0) <= t * 10 ^ (-2 - e0) <-> L <= R)
  /\ (t * 10 ^ (-2 - e0) <= v * 10 ^ (E - e0) <-> R <= L).
Proof.
  intros HP Ht Hk Hv HN Hle Hge G1 G2. cbv zeta.
  destruct (pow10_27k k Hk) as (P27 & P28 & Hk10).
  rewrite P27, P28 in HN.
  assert (Hkpos : 0 < 10 ^ k) by (destruct Hk10; lia).
  change (10 ^ 27) with 1000000000000000000000000000 in *.
  change (10 ^ 28) with 10000000000000000000000000000 in *.
  change (10 ^ 26) with 100000000000000000000000000 in *.
  destruct (Z.lt_trichotomy E (-28)) as [Lo|[Eq|Hi]].
  - (* below 0.1 *)
    rewrite Z.min_l by lia. replace (E - E) with 0 by lia.
    rewrite Z.pow_0_r, Z.mul_1_r.
    rewrite (Z.max_r (E - k)), (Z.max_l (k - E)) by lia.
    rewrite Z.pow_0_r, Z.mul_1_r.
    assert (Ga : 10 ^ (-2 - E) = 10 ^ 27 * 10 ^ (-29 - E)).
    { rewrite <- Z.pow_add_r by lia. f_equal. lia. }
    assert (Gb : 10 ^ (k - E) = 10 ^ 29 * 10 ^ k * 10 ^ (-29 - E)).
    { rewrite <- !Z.pow_add_r by lia. f_equal. lia. }
    pose proof (pow10_pos (-29 - E) ltac:(lia)) as Hz.
    rewrite Ga, Gb. set (Z0 := 10 ^ (-29 - E)) in *.
    change (10 ^ 27) with 1000000000000000000000000000.
    change (10 ^ 29) with 100000000000000000000000000000.
    assert (A1 : v < t * (1000000000000000000000000000 * Z0)) by nia.
    assert (A2 : 100 * N < t * P * (100000000000000000000000000000 * 10 ^ k * Z0)).
    { assert (100 * N < 100 * (10000000000000000000000000000 * 10 ^ k * P)) by lia.
      assert (10 * (10 ^ k * P) <= t * (10 ^ k * P) * Z0) by nia. nia. }
    split; split; intros H; lia.
  - (* between 0.1 and 1 *)
    subst E. rewrite Z.min_l by lia. replace (-28 - -28) with 0 by lia.
    replace (-2 - -28) with 26 by lia.
    rewrite Z.pow_0_r, Z.mul_1_r.
    rewrite (Z.max_r (-28 - k)), (Z.max_l (k - -28)) by lia.
    rewrite Z.pow_0_r, Z.mul_1_r.
    replace (k - -28) with (28 + k) by lia. rewrite P28.
    change (10 ^ 26) with 100000000000000000000000000.
    change (10 ^ 28) with 10000000000000000000000000000.
    set (M := t * 100000000000000000000000000) in *.
    assert (ER : t * P * (10000000000000000000000000000 * 10 ^ k)
                 = 100 * (M * 10 ^ k * P)) by (unfold M; ring).
    rewrite ER. split; split; intros H.
    + destruct G1 as [G|G]; [lia|]. exfalso.
      assert (X : (M + 1) * 10 ^ k * P <= N) by (rewrite !Z.mul_add_distr_r; lia).
      specialize (Hge _ X). lia.
    + apply Hle. lia.
    + destruct G2 as [G|G]; [lia|]. exfalso.
      assert (X : N <= (M - 1) * 10 ^ k * P) by (rewrite !Z.mul_sub_distr_r; lia).
      specialize (Hle _ X). lia.
    + apply Hge. lia.
  - (* from 1 on *)
    assert (A2 : t * P * 10 ^ Z.max (k - E) 0 < 100 * N * 10 ^ Z.max (E - k) 0).
    { destruct (Z.le_gt_cases E k) as [Le|Gt].
      - rewrite (Z.max_r (E - k)), (Z.max_l (k - E)) by lia.
        rewrite Z.pow_0_r, Z.mul_1_r.
        assert (G : 10 ^ (k - E) <= 10 ^ (27 + k)) by (apply Z.pow_le_mono_r; lia).
        rewrite P27 in G. change (10 ^ 27) with 1000000000000000000000000000 in G.
        assert (t * P * 10 ^ (k - E)
                <= t * P * (1000000000000000000000000000 * 10 ^ k))
          by (apply Z.mul_le_mono_nonneg_l; nia).
        nia.
      - rewrite (Z.max_l (E - k)), (Z.max_r (k - E)) by lia.
        rewrite Z.pow_0_r, Z.mul_1_r.
        pose proof (pow10_pos (E - k) ltac:(lia)) as Hz.
        assert (100 * N * 1 <= 100 * N * 10 ^ (E - k))
          by (apply Z.mul_le_mono_nonneg_l; nia).
        nia. }
    assert (A1 : t * 10 ^ (-2 - Z.min E (-2)) < v * 10 ^ (E - Z.min E (-2))).
    { destruct (Z.le_gt_cases E (-2)) as [Le|Gt].
      - rewrite Z.min_l by lia. replace (E - E) with 0 by lia.
        rewrite Z.pow_0_r, Z.mul_1_r.
        assert (G : 10 ^ (-2 - E) <= 10 ^ 25) by (apply Z.pow_le_mono_r; lia).
        change (10 ^ 25) with 10000000000000000000000000 in G.
        pose proof (pow10_pos (-2 - E) ltac:(lia)). nia.
      - rewrite Z.min_r by lia. replace (-2 - -2) with 0 by lia.
        rewrite Z.pow_0_r, Z.mul_1_r.
        pose proof (pow10_pos (E - -2) ltac:(lia)). nia. }
    split; split; intros H; lia.
Qed.

(** The quotient of two plain prices against a two-digit threshold: the
    rounded quotient compares with [t/100] exactly as [100 * a] compares
    with [t * p]. *)
Lemma quotient_threshold (a p : Decimal) (t : Z) :
  plain_price a -> plain_price p -> 11 <= t <= 99 ->
  let b := Z.min (expo a) (expo p) in
  exists q, dec_div a p = Ok q
    /\ 0 < coef q < 10 ^ 28 /\ -900000 <= expo q <= 900000
    /\ (dec_le q (mkDec t (-2)) = true <->
        100 * coef a * 10 ^ (expo a - b) <= t * coef p * 10 ^ (expo p - b))
    /\ (dec_le (mkDec t (-2)) q = true <->
        t * coef p * 10 ^ (expo p - b) <= 100 * coef a * 10 ^ (expo a - b)).
Proof.
  intros Ha Hp Ht. cbv zeta.
  destruct (dec_div_plain a p Ha Hp)
    as (k & v & cq & eq & Hk & Hshift & Hdiv & HE & Hv & Hcq & HPs & Hvb & HN & Hle & Hge).
  destruct Ha as [[HA0 HA26] HAe]. destruct Hp as [[HP0 HP26] HPe].
  unfold price_exponent_bound in *.
  set (A := coef a) in *. set (P := coef p) in *.
  set (ea := expo a) in *. set (ep := expo p) in *.
  set (shift := ndigits P - ndigits A + 29) in *.
  set (E := ea - ep - shift + k) in *.
  (* the exponent of the quotient *)
  assert (Heq : eq - E <= 28).
  { destruct (Z.le_gt_cases (eq - E) 28) as [L|G]; [exact L|]. exfalso.
    assert (G' : 10 ^ 28 < 10 ^ (eq - E)) by (apply Z.pow_lt_mono_r; lia).
    clear - G' Hv Hvb Hcq. nia. }
  assert (HeqB : -900000 <= eq <= 900000).
  { clear - HE Heq HAe HPe Hshift Hk. unfold E in *. lia. }
  destruct (exact_scaled A P t ea ep shift k ltac:(clear - Hshift; lia))
    as (s & Hs & HL & HR).
  cbv zeta in HL, HR. fold E in HL, HR.
  destruct (threshold_gap A P t k shift HA0 (conj HP0 HP26)
              ltac:(clear - Hshift; lia) ltac:(clear - HPs; lia) Hk
              ltac:(clear - Ht; lia)) as [G1 G2].
  cbv zeta in G1, G2.
  destruct (threshold_cases (A * 10 ^ shift) P t k E v HP0 Ht Hk Hvb HN Hle Hge G1 G2)
    as [C1 C2]. cbv zeta in C1, C2.
  rewrite HL, HR in C1, C2.
  set (XA := 100 * A * 10 ^ (ea - Z.min ea ep)) in *.
  set (XP := t * P * 10 ^ (ep - Z.min ea ep)) in *.
  assert (EXle : XA * s <= XP * s <-> XA <= XP).
  { clear - Hs. split; intros H;
      [apply Z.mul_le_mono_pos_r in H; lia | apply Z.mul_le_mono_nonneg_r; lia]. }
  assert (EXge : XP * s <= XA * s <-> XP <= XA).
  { clear - Hs. split; intros H;
      [apply Z.mul_le_mono_pos_r in H; lia | apply Z.mul_le_mono_nonneg_r; lia]. }
  rewrite EXle in C1. rewrite EXge in C2.
  set (e0 := Z.min E (-2)) in *.
  assert (He0 : e0 <= eq /\ e0 <= -2 /\ e0 <= E) by (clear - HE; unfold e0; lia).
  assert (Hsc : cq * 10 ^ (eq - e0) = v * 10 ^ (E - e0)).
  { rewrite <- Hv, <- Z.mul_assoc, <- Z.pow_add_r by (clear - He0 HE; lia).
    f_equal. f_equal. clear. lia. }
  exists (mkDec cq eq). split; [exact Hdiv|]. cbn [coef expo].
  split; [exact Hcq|]. split; [exact HeqB|].
  rewrite <- C1, <- C2.
  rewrite (dec_le_scaled _ (mkDec t (-2)) e0), (dec_le_scaled (mkDec t (-2)) _ e0);
    cbn [coef expo]; try (clear - He0; lia).
  rewrite Hsc. split; reflexivity.
Qed.

(** ** Decimal arithmetic: exact ratios as rational numbers *)

Lemma ratio_core (x y u w tb tau : Q) :
  (0 < x -> 0 < y -> 0 < u -> 0 < w -> 0 < tb ->
   ((x * (u * tb)) / (y * (w * tb)) - 1 <= tau <-> x * u <= (tau + 1) * (y * w))
   /\ (tau <= (x * (u * tb)) / (y * (w * tb)) - 1 <-> (tau + 1) * (y * w) <= x * u))%Q.
Proof.
  intros Hx Hy Hu Hw Htb.
  assert (Hyw : (0 < y * w)%Q) by (clear - Hy Hw; nra).
  assert (E : ((x * (u * tb)) / (y * (w * tb)) == (x * u) / (y * w))%Q).
  { field. repeat split; lra. }
  rewrite E. clear E.
  assert (Hr : ((x * u) / (y * w) * (y * w) == x * u)%Q).
  { field. split; lra. }
  set (r := ((x * u) / (y * w))%Q) in *. clearbody r.
  set (z := (y * w)%Q) in *. clearbody z.
  set (n := (x * u)%Q) in *. clearbody n.
  split; split; intros H.
  - assert (H1 : (r <= tau + 1)%Q) by (clear - H; lra).
    apply (Qmult_le_compat_r _ _ z) in H1; [|clear - Hyw; lra].
    rewrite Hr in H1. exact H1.
  - rewrite <- Hr in H. apply Qmult_lt_0_le_reg_r in H; [|exact Hyw].
    clear - H. lra.
  - assert (H1 : (tau + 1 <= r)%Q) by (clear - H; lra).
    apply (Qmult_le_compat_r _ _ z) in H1; [|clear - Hyw; lra].
    rewrite Hr in H1. exact H1.
  - rewrite <- Hr in H. apply Qmult_lt_0_le_reg_r in H; [|exact Hyw].
    clear - H. lra.
Qed.

Lemma ten_pos_q (e : Z) : (0 < (10 # 1) ^ e)%Q.
Proof. apply Qpower_0_lt. reflexivity. Qed.

(** The exact return [a / p - 1] against [(t - 100) / 100], in rational
    numbers, is [100 * a] against [t * p] at the smaller exponent. *)
Lemma ratio_threshold (a p : Decimal) (t : Z) :
  0 < coef a -> 0 < coef p ->
  let b := Z.min (expo a) (expo p) in
  ((dec_value a / dec_value p - 1 <= (t - 100) # 100)%Q <->
   100 * coef a * 10 ^ (expo a - b) <= t * coef p * 10 ^ (expo p - b))
  /\ (((t - 100) # 100 <= dec_value a / dec_value p - 1)%Q <->
      t * coef p * 10 ^ (expo p - b) <= 100 * coef a * 10 ^ (expo a - b)).
Proof.
  intros HA HP. cbv zeta. set (b := Z.min (expo a) (expo p)).
  assert (Hb : b <= expo a /\ b <= expo p) by (unfold b; lia).
  unfold dec_value.
  assert (Ea : ((10 # 1) ^ expo a == (10 # 1) ^ (expo a - b) * (10 # 1) ^ b)%Q).
  { rewrite <- Qpower_plus by discriminate. replace (expo a - b + b) with (expo a) by lia.
    reflexivity. }
  assert (Ep : ((10 # 1) ^ expo p == (10 # 1) ^ (expo p - b) * (10 # 1) ^ b)%Q).
  { rewrite <- Qpower_plus by discriminate. replace (expo p - b + b) with (expo p) by lia.
    reflexivity. }
  rewrite Ea, Ep.
  assert (Hx : (0 < inject_Z (coef a))%Q) by (rewrite <- (Zlt_Qlt 0); exact HA).
  assert (Hy : (0 < inject_Z (coef p))%Q) by (rewrite <- (Zlt_Qlt 0); exact HP).
  destruct (ratio_core (inject_Z (coef a)) (inject_Z (coef p))
              ((10 # 1) ^ (expo a - b)) ((10 # 1) ^ (expo p - b)) ((10 # 1) ^ b)
              ((t - 100) # 100) Hx Hy (ten_pos_q _) (ten_pos_q _) (ten_pos_q _))
    as [C1 C2].
  rewrite C1, C2.
  assert (Et : (((t - 100) # 100) + 1 == inject_Z t * (1 # 100))%Q).
  { unfold Qeq, Qplus, Qmult, inject_Z. simpl. lia. }
  rewrite Et.
  rewrite !Zle_Qle, !inject_Z_mult, !Zpower_Qpower by lia.
  change (inject_Z 10) with (10 # 1)%Q. change (inject_Z 100) with (100 # 1)%Q.
  set (m := (inject_Z (coef a) * (10 # 1) ^ (expo a - b))%Q).
  set (z := (inject_Z (coef p) * (10 # 1) ^ (expo p - b))%Q).
  assert (R1 : ((100 # 1) * inject_Z (coef a) * (10 # 1) ^ (expo a - b) == (100 # 1) * m)%Q)
    by (unfold m; ring).
  assert (R2 : (inject_Z t * inject_Z (coef p) * (10 # 1) ^ (expo p - b)
                == (100 # 1) * (inject_Z t * (1 # 100) * z))%Q) by (unfold z; field).
  rewrite R1, R2. clearbody m z.
  set (s := (inject_Z t * (1 # 100) * z)%Q). clearbody s.
  split; split; intros H; lra.
Qed.

(** ** The entry band and the exit rule on plain prices *)

(** The return of two plain prices is computed without raising, and it
    compares with [(t - 100) / 100] as the exact return does. *)
Lemma return_threshold (a p : Decimal) :
  plain_price a -> plain_price p ->
  exists r, earnings_day_return a p = Ok r
    /\ forall t, 11 <= t <= 99 ->
       (dec_le r (mkDec (t - 100) (-2)) = true <->
        (dec_value a / dec_value p - 1 <= (t - 100) # 100)%Q)
       /\ (dec_le (mkDec (t - 100) (-2)) r = true <->
           ((t - 100) # 100 <= dec_value a / dec_value p - 1)%Q).
Proof.
  intros Ha Hp.
  destruct (quotient_threshold a p 50 Ha Hp ltac:(lia)) as (q & Hq & Hc & He & _).
  destruct (sub_one_threshold q 50 Hc He ltac:(lia)) as (r & Hr & _).
  exists r. split; [unfold earnings_day_return; rewrite Hq; exact Hr|].
  intros t Ht.
  destruct (quotient_threshold a p t Ha Hp Ht) as (q' & Hq' & _ & _ & Q1 & Q2).
  assert (q' = q) by congruence. subst q'.
  destruct (sub_one_threshold q t Hc He Ht) as (r' & Hr' & S1 & S2).
  assert (r' = r) by congruence. subst r'.
  destruct (ratio_threshold a p t (proj1 (proj1 Ha)) (proj1 (proj1 Hp))) as [R1 R2].
  cbv zeta in Q1, Q2, R1, R2. rewrite S1, S2, Q1, Q2, R1, R2. split; reflexivity.
Qed.

(** The entry rule on plain prices: the return is computed without raising
    and the condition of the scan holds exactly when the exact return
    [a / p - 1] lies between -0.30 and -0.05, bounds included. *)
Theorem entry_band_exact (a p : Decimal) :
  plain_price a -> plain_price p ->
  exists r, earnings_day_return a p = Ok r
    /\ (entry_condition r = true <->
        ((-30 # 100) <= dec_value a / dec_value p - 1
         /\ dec_value a / dec_value p - 1 <= (-5 # 100))%Q).
Proof.
  intros Ha Hp. destruct (return_threshold a p Ha Hp) as (r & Hr & H).
  exists r. split; [exact Hr|].
  destruct (H 70 ltac:(lia)) as [_ Lo]. destruct (H 95 ltac:(lia)) as [Hi _].
  change (70 - 100) with (-30) in Lo. change (95 - 100) with (-5) in Hi.
  unfold entry_condition, ENTRY_RETURN_MIN, ENTRY_RETURN_MAX.
  rewrite andb_true_iff, Lo, Hi. reflexivity.
Qed.

Lemma entry_band_exact_witness :
  exists r, earnings_day_return (mkDec 8800 (-2)) (mkDec 10000 (-2)) = Ok r
            /\ entry_condition r = true.
Proof.
  assert (Ha : plain_price (mkDec 8800 (-2))).
  { unfold plain_price, price_exponent_bound. simpl. lia. }
  assert (Hp : plain_price (mkDec 10000 (-2))).
  { unfold plain_price, price_exponent_bound. simpl. lia. }
  destruct (entry_band_exact _ _ Ha Hp) as (r & Hr & Hiff).
  exists r. split; [exact Hr|].
  vm_compute in Hr. injection Hr as <-. reflexivity.
Defined.

(** The exit rule on a plain entry price and a plain close: the decision is
    computed without raising; STOP_LOSS exactly when the exact pnl
    [c / e - 1] is at most -0.10, TIME_EXIT exactly when it is above -0.10
    and the position was held 50 days or more, and no exit otherwise. *)
Theorem exit_rule_exact (e c : Decimal) (holding_days : Z) :
  plain_price e -> plain_price c ->
  exists reason pnl, exit_decision e c holding_days = Ok (reason, pnl)
    /\ (reason = Some STOP_LOSS <->
        (dec_value c / dec_value e - 1 <= (-10 # 100))%Q)
    /\ (reason = Some TIME_EXIT <->
        ~ (dec_value c / dec_value e - 1 <= (-10 # 100))%Q /\ 50 <= holding_days)
    /\ (reason = None <->
        ~ (dec_value c / dec_value e - 1 <= (-10 # 100))%Q /\ holding_days < 50).
Proof.
  intros He Hc. destruct (return_threshold c e Hc He) as (pnl & Hr & H).
  destruct (H 90 ltac:(lia)) as [Stop _]. change (90 - 100) with (-10) in Stop.
  unfold earnings_day_return in Hr. unfold exit_decision, STOP_LOSS_THRESHOLD, MAX_HOLDING_DAYS.
  destruct (dec_div c e) as [q|x]; [|discriminate]. cbn [bind] in *. rewrite Hr.
  cbn [bind].
  destruct (dec_le pnl (mkDec (-10) (-2))) eqn:E.
  - exists (Some STOP_LOSS), pnl. split; [reflexivity|].
    assert (X : (dec_value c / dec_value e - 1 <= (-10 # 100))%Q)
      by (apply Stop; reflexivity).
    repeat split; try discriminate; tauto.
  - assert (N : ~ (dec_value c / dec_value e - 1 <= (-10 # 100))%Q).
    { intros X. apply Stop in X. discriminate X. }
    destruct (50 <=? holding_days) eqn:E50.
    + apply Z.leb_le in E50. exists (Some TIME_EXIT), pnl. split; [reflexivity|].
      repeat split; try discriminate; try tauto; try lia.
    + apply Z.leb_gt in E50. exists None, pnl. split; [reflexivity|].
      repeat split; try discriminate; try tauto; try lia.
Qed.

(** The scenario of the specification: entered 2025-01-01 at 100.00 and
    looked at on 2025-02-20 at 100.00, a position is 50 days old and leaves
    by TIME_EXIT. *)
Lemma exit_rule_exact_witness :
  days_between (mkdate 2025 2 20) (mkdate 2025 1 1) = 50
  /\ exists pnl, exit_decision (mkDec 10000 (-2)) (mkDec 10000 (-2))
                   (days_between (mkdate 2025 2 20) (mkdate 2025 1 1))
                 = Ok (Some TIME_EXIT, pnl).
Proof.
  split; [reflexivity|].
  assert (Hp : plain_price (mkDec 10000 (-2))).
  { unfold plain_price, price_exponent_bound. simpl. lia. }
  destruct (exit_rule_exact (mkDec 10000 (-2)) (mkDec 10000 (-2))
              (days_between (mkdate 2025 2 20) (mkdate 2025 1 1)) Hp Hp)
    as (reason & pnl & H & _).
  exists pnl. rewrite H. vm_compute in H. injection H as <- _. reflexivity.
Defined.

(** Why the prices are taken plain: the context rounds the quotient to 28
    digits. With a close of 95000000000000000000000000000001 after
    10 ^ 32 the exact return is above -0.05, and the computed return is
    -0.05: the entry condition holds. *)
Lemma entry_band_rounding :
  let a := mkDec 95000000000000000000000000000001 0 in
  let p := mkDec (10 ^ 32) 0 in
  ~ (dec_value a / dec_value p - 1 <= (-5 # 100))%Q
  /\ exists r, earnings_day_return a p = Ok r /\ entry_condition r = true.
Proof.
  intros a p. split.
  - unfold dec_value, a, p. cbn [coef expo]. intros H.
    vm_compute in H. apply H. reflexivity.
  - eexists. split; [vm_compute; reflexivity|]. vm_compute. reflexivity.
Qed.

(** ** The close of a date, by either lookup *)

Lemma close_of_first_find (s : string) (l : list price_item) (k : nat) :
  match find_date s l k with
  | None => close_of_first s l = None
  | Some i => exists it, nth_error l (i - k) = Some it /\ (k <= i)%nat
                         /\ close_of_first s l = item_close it
  end.
Proof.
  revert k. induction l as [|x l IH]; intros k; simpl; [reflexivity|].
  assert (Hrest : match find_date s l (S k) with
                  | None => close_of_first s l = None
                  | Some i => exists it, nth_error (x :: l) (i - k) = Some it
                                         /\ (k <= i)%nat
                                         /\ close_of_first s l = item_close it
                  end).
  { specialize (IH (S k)). destruct (find_date s l (S k)) as [i|]; [|exact IH].
    destruct IH as (it & Hn & Hle & Hc). exists it.
    split; [|split; [lia | exact Hc]].
    replace (i - k)%nat with (S (i - S k)) by lia. exact Hn. }
  destruct (item_date x) as [d|]; [|exact Hrest].
  destruct (String.eqb d s); [|exact Hrest].
  exists x. rewrite Nat.sub_diag. auto.
Qed.

(** The two lookups of the client agree on the close of the date: when
    [get_price_data_for_date] gives a pair, [get_close_price] on the same
    feed gives the first component; and [get_close_price] gives nothing
    when no record of the window carries the date. The exit scan therefore
    prices a position entered the same day at its entry close. *)
Theorem close_price_agrees (data : price_body) (d : date) :
  (forall c p, get_price_data_for_date data d = Some (c, p) ->
               get_close_price data d = Some c)
  /\ ((forall it, In it (get_historical_prices data 20) ->
                  item_date it <> Some (isoformat d)) ->
      get_close_price data d = None).
Proof.
  split.
  - intros c p H. unfold get_price_data_for_date in H. unfold get_close_price.
    destruct (get_historical_prices data 20) as [|x l] eqn:Ew; [discriminate|].
    pose proof (close_of_first_find (isoformat d) (x :: l) 0) as F.
    destruct (find_date (isoformat d) (x :: l) 0) as [i|]; [|discriminate].
    destruct F as (it & Hn & _ & Hc). rewrite Nat.sub_0_r in Hn.
    destruct (List.length (x :: l) <=? i + 1)%nat; [discriminate|].
    rewrite Hn in H.
    destruct (nth_error (x :: l) (i + 1)) as [prev|]; [|discriminate].
    destruct (item_close it) as [c'|]; [|discriminate].
    destruct (item_close prev); [|discriminate].
    injection H as -> _. exact Hc.
  - intros H. unfold get_close_price.
    pose proof (close_of_first_find (isoformat d) (get_historical_prices data 20) 0) as F.
    rewrite (proj2 (find_date_None _ _ _) H) in F. exact F.
Qed.

Lemma close_price_agrees_witness :
  let data := JList [mkItem (Some "2025-01-15") (Some (mkDec 1500 (-1)));
                     mkItem (Some "2025-01-14") (Some (mkDec 1480 (-1)))] in
  get_close_price data (mkdate 2025 1 15) = Some (mkDec 1500 (-1))
  /\ get_close_price data (mkdate 2025 1 18) = None.
Proof.
  intros data. destruct (close_price_agrees data (mkdate 2025 1 15)) as [H _].
  destruct (close_price_agrees data (mkdate 2025 1 18)) as [_ H'].
  split; [apply (H _ (mkDec 1480 (-1))); reflexivity|].
  apply H'. intros it [<-|[<-|[]]]; simpl; intros E; discriminate E.
Defined.

(** ** The counts the scans return *)

Section Counts.

Variable fmp : FMPClient.
Variable cache_ttl : timedelta.
Variable uuid4 : Db -> uuid.
Variable numeric_18_6 : Decimal -> Decimal.
Variable format_2f : Decimal -> string.
Variable as_of_ : date.

Local Abbreviation entry_it now := (entry_iteration fmp uuid4 numeric_18_6 format_2f now as_of_).
Local Abbreviation exit_it now := (exit_iteration fmp uuid4 numeric_18_6 format_2f now as_of_).
Local Abbreviation n_alerts db := (Z.of_nat (List.length (alerts db))).

Lemma insert_alert_count (now : datetime) (db : Db) (k t s : string) (d : date) (m : string) :
  let r := insert_alert uuid4 now db k t s d m in
  n_alerts (fst r) = n_alerts db + (if 0 <? snd r then 1 else 0).
Proof.
  cbv zeta. unfold insert_alert.
  destruct (existsb _ (alerts db)); simpl; [lia|].
  rewrite length_app. simpl. lia.
Qed.

Lemma get_sp500_symbols_frame (now : datetime) (db : Db) :
  positions (fst (get_sp500_symbols fmp cache_ttl now db)) = positions db
  /\ alerts (fst (get_sp500_symbols fmp cache_ttl now db)) = alerts db.
Proof.
  unfold get_sp500_symbols.
  destruct (cache_is_fresh cache_ttl now (symbols_cache db)); [auto|].
  destruct (fmp_get_sp500_constituents fmp) as [[|s l]|e]; [| |auto].
  - destruct (symbols_cache db); auto.
  - destruct (insert_symbols now [] (s :: l)); auto.
Qed.

Lemma entry_step_count (now : datetime) (db : Db) (n : Z) (x : string) :
  let r := guarded (entry_it now) (db, n) x in
  snd r - n = n_alerts (fst r) - n_alerts db /\ n <= snd r.
Proof.
  cbv zeta. unfold guarded. cbn [fst snd].
  destruct (entry_signal fmp as_of_ x) as [[c ret]|] eqn:E.
  - rewrite (entry_iteration_fired fmp uuid4 numeric_18_6 format_2f as_of_ now db x c ret E).
    cbv zeta.
    destruct (insert_position_le uuid4 numeric_18_6 now db x as_of_ c) as (_ & _ & A1 & _).
    destruct (_format_entry_message format_2f x as_of_ ret c) as [msg|e]; cbn [fst snd].
    + match goal with |- context [insert_alert ?u ?n' ?d ?k ?t ?s ?a ?m] =>
        pose proof (insert_alert_count n' d k t s a m) as C end.
      cbv zeta in C. rewrite A1 in C.
      destruct (0 <? snd _); lia.
    + rewrite A1. lia.
  - destruct (entry_iteration_idle fmp uuid4 numeric_18_6 format_2f as_of_ now db x E)
      as [Hf Hs].
    destruct (entry_it now db x) as [db' o]. cbn [fst snd] in *. subst db'.
    destruct Hs as [-> | [e ->]]; cbn [fst snd]; lia.
Qed.

Lemma exit_step_count (now : datetime) (db : Db) (n : Z) (p : Position) :
  let r := guarded (exit_it now) (db, n) p in
  snd r - n = n_alerts (fst r) - n_alerts db /\ n <= snd r.
Proof.
  cbv zeta. unfold guarded. cbn [fst snd].
  destruct (exit_signal fmp as_of_ p) as [[[c reason] pnl]|] eqn:E.
  - rewrite (exit_iteration_fired fmp uuid4 numeric_18_6 format_2f as_of_ now db p
               c reason pnl E).
    cbv zeta.
    destruct (close_position_le numeric_18_6 now db (pos_id p) as_of_ c
                (ExitReason_value reason)) as (_ & A1 & _).
    destruct (_format_exit_message _ _ _ _ _ _ _) as [msg|e]; cbn [fst snd].
    + match goal with |- context [insert_alert ?u ?n' ?d ?k ?t ?s ?a ?m] =>
        pose proof (insert_alert_count n' d k t s a m) as C end.
      cbv zeta in C. rewrite A1 in C.
      destruct (0 <? snd _); lia.
    + rewrite A1. lia.
  - destruct (exit_iteration_idle fmp uuid4 numeric_18_6 format_2f as_of_ now db p E)
      as [Hf Hs].
    destruct (exit_it now db p) as [db' o]. cbn [fst snd] in *. subst db'.
    destruct Hs as [-> | [e ->]]; cbn [fst snd]; lia.
Qed.

Lemma loop_count {X : Type} (body : Db -> X -> Db * outcome Z) (l : list X) :
  (forall db n x, let r := guarded body (db, n) x in
                  snd r - n = n_alerts (fst r) - n_alerts db /\ n <= snd r) ->
  forall db n, let r := fold_left (guarded body) l (db, n) in
               snd r - n = n_alerts (fst r) - n_alerts db /\ n <= snd r.
Proof.
  intros Hstep. induction l as [|x l IH]; intros db n; cbv zeta; simpl; [lia|].
  pose proof (Hstep db n x) as S. cbv zeta in S.
  destruct (guarded body (db, n) x) as [db' n']. cbn [fst snd] in S.
  pose proof (IH db' n') as I. cbv zeta in I. lia.
Qed.


End Counts.


(** ** The uniqueness constraints are kept *)

Lemma date_eqb_eq (a b : date) : date_eqb a b = true <-> a = b.
Proof.
  unfold date_eqb. rewrite !andb_true_iff, !Z.eqb_eq. split.
  - intros [[Hy Hm] Hd]. destruct a, b; simpl in *. congruence.
  - intros ->. auto.
Qed.

Lemma NoDup_snoc {X : Type} (l : list X) (x : X) :
  NoDup l -> ~ In x l -> NoDup (l ++ [x]).
Proof.
  intros ND Hx. induction l as [|y l IH]; simpl.
  - constructor; [intros []|constructor].
  - inversion ND as [|? ? Hy ND']; subst. constructor.
    + rewrite in_app_iff. intros [H|[H|[]]]; [contradiction|]. subst.
      apply Hx. left. reflexivity.
    + apply IH; [exact ND'|]. intros H. apply Hx. right. exact H.
Qed.

Section UniqueKeys.

Variable fmp : FMPClient.
Variable cache_ttl : timedelta.
Variable uuid4 : Db -> uuid.
Variable numeric_18_6 : Decimal -> Decimal.
Variable format_2f : Decimal -> string.
Variable as_of_ : date.

Local Abbreviation entry_it now := (entry_iteration fmp uuid4 numeric_18_6 format_2f now as_of_).
Local Abbreviation exit_it now := (exit_iteration fmp uuid4 numeric_18_6 format_2f now as_of_).
Local Abbreviation keys_ok db := (alerts_unique db /\ positions_unique db).

Lemma insert_position_unique (now : datetime) (db : Db) (s : string) (d : date) (c : Decimal) :
  keys_ok db -> keys_ok (insert_position uuid4 numeric_18_6 now db s d c).
Proof.
  intros [HA HP]. unfold insert_position.
  destruct (existsb (position_conflicts s d) (positions db)) eqn:E; [auto|].
  split; [exact HA|]. unfold positions_unique. cbn [positions].
  rewrite map_app. simpl. apply NoDup_snoc; [exact HP|].
  intros Hin. apply in_map_iff in Hin as (p & Hk & Hp).
  assert (X : existsb (position_conflicts s d) (positions db) = true).
  { apply existsb_exists. exists p. split; [exact Hp|].
    unfold position_key in Hk. injection Hk as Hs Hd.
    unfold position_conflicts. rewrite Hs, Hd, String.eqb_refl.
    apply date_eqb_eq. reflexivity. }
  congruence.
Qed.

Lemma insert_alert_unique (now : datetime) (db : Db) (k t s : string) (d : date) (m : string) :
  keys_ok db -> keys_ok (fst (insert_alert uuid4 now db k t s d m)).
Proof.
  intros [HA HP]. unfold insert_alert.
  destruct (existsb (fun a => String.eqb (event_key a) k) (alerts db)) eqn:E; [auto|].
  split; [|exact HP]. unfold alerts_unique. cbn [fst alerts].
  rewrite map_app. simpl. apply NoDup_snoc; [exact HA|].
  intros Hin. apply in_map_iff in Hin as (a & Hk & Ha).
  assert (X : existsb (fun a => String.eqb (event_key a) k) (alerts db) = true).
  { apply existsb_exists. exists a. split; [exact Ha|]. rewrite Hk. apply String.eqb_refl. }
  congruence.
Qed.

Lemma close_position_unique (now : datetime) (db : Db) (id : uuid) (d : date)
  (c : Decimal) (r : string) :
  keys_ok db -> keys_ok (close_position numeric_18_6 now db id d c r).
Proof.
  intros [HA HP]. split; [exact HA|]. unfold positions_unique, close_position.
  cbn [positions]. rewrite map_map.
  erewrite map_ext; [exact HP|]. intros p. destruct (pos_id p =? id); reflexivity.
Qed.

Lemma entry_iteration_unique (now : datetime) (db : Db) (x : string) :
  keys_ok db -> keys_ok (fst (entry_it now db x)).
Proof.
  intros K. destruct (entry_signal fmp as_of_ x) as [[c r]|] eqn:E.
  - rewrite (entry_iteration_fired fmp uuid4 numeric_18_6 format_2f as_of_ now db x c r E).
    cbv zeta. pose proof (insert_position_unique now db x as_of_ c K) as K1.
    destruct (_format_entry_message format_2f x as_of_ r c); cbn [fst]; [|exact K1].
    apply insert_alert_unique. exact K1.
  - destruct (entry_iteration_idle fmp uuid4 numeric_18_6 format_2f as_of_ now db x E)
      as [-> _]. exact K.
Qed.

Lemma exit_iteration_unique (now : datetime) (db : Db) (p : Position) :
  keys_ok db -> keys_ok (fst (exit_it now db p)).
Proof.
  intros K. destruct (exit_signal fmp as_of_ p) as [[[c reason] pnl]|] eqn:E.
  - rewrite (exit_iteration_fired fmp uuid4 numeric_18_6 format_2f as_of_ now db p
               c reason pnl E).
    cbv zeta.
    pose proof (close_position_unique now db (pos_id p) as_of_ c
                  (ExitReason_value reason) K) as K1.
    destruct (_format_exit_message _ _ _ _ _ _ _); cbn [fst]; [|exact K1].
    apply insert_alert_unique. exact K1.
  - destruct (exit_iteration_idle fmp uuid4 numeric_18_6 format_2f as_of_ now db p E)
      as [-> _]. exact K.
Qed.

Lemma loop_keeps {X : Type} (I : Db -> Prop) (body : Db -> X -> Db * outcome Z)
  (l : list X) :
  (forall db x, I db -> I (fst (body db x))) ->
  forall db n, I db -> I (fst (fold_left (guarded body) l (db, n))).
Proof.
  intros Hstep. induction l as [|x l IH]; intros db n Hdb; simpl; [exact Hdb|].
  destruct (guarded body (db, n) x) as [db' n'] eqn:G.
  apply IH. pose proof (fst_guarded body (db, n) x) as F. rewrite G in F.
  cbn [fst] in F. rewrite F. apply Hstep. exact Hdb.
Qed.

(** The job keeps the uniqueness constraints of the tables, whether it
    returns or raises: no two alerts with one event key, no two positions
    on one (symbol, entry_date). *)
Theorem unique_keys_kept (now : datetime) (db : Db) :
  alerts_unique db -> positions_unique db ->
  let db' := fst (run_daily_job fmp cache_ttl uuid4 numeric_18_6 format_2f now db as_of_) in
  alerts_unique db' /\ positions_unique db'.
Proof.
  intros HA HP. cbv zeta.
  assert (K : keys_ok db) by auto.
  assert (K1 : keys_ok (fst (scan_entries fmp cache_ttl uuid4 numeric_18_6 format_2f
                               now db as_of_))).
  { unfold scan_entries.
    destruct (get_sp500_symbols_frame fmp cache_ttl now db) as [P A].
    destruct (get_sp500_symbols fmp cache_ttl now db) as [db1 o]. cbn [fst] in P, A.
    assert (K' : keys_ok db1).
    { unfold alerts_unique, positions_unique. rewrite P, A. exact K. }
    destruct o as [[|s symbols]|e]; cbn [fst]; try exact K'.
    destruct (fmp_get_earnings_calendar fmp as_of_) as [es|e]; cbn [fst]; [|exact K'].
    pose proof (loop_keeps (fun d => keys_ok d) (entry_it now)
                  (filter (fun s0 => existsb (String.eqb s0) (s :: symbols)) es)
                  (entry_iteration_unique now) db1 0 K') as L.
    destruct (fold_left _ _ _) as [db2 k2]. exact L. }
  unfold run_daily_job.
  destruct (scan_entries _ _ _ _ _ now db as_of_) as [db1 [n1|e]]; cbn [fst] in *;
    [|exact K1].
  unfold scan_exits.
  pose proof (loop_keeps (fun d => keys_ok d) (exit_it now)
                (filter is_open (positions db1)) (exit_iteration_unique now) db1 0 K1) as L.
  destruct (fold_left _ _ _) as [db2 k2]. exact L.
Qed.

End UniqueKeys.

Lemma unique_keys_kept_witness :
  let db' := fst (demo_job 25 demo_db (mkdate 2025 1 15)) in
  alerts_unique db' /\ positions_unique db'.
Proof.
  apply (unique_keys_kept demo_fmp 24 demo_uuid4 demo_numeric demo_format
           (mkdate 2025 1 15) 25 demo_db); constructor.
Defined.

(** ** The exit scan, row by row *)

Lemma pk_same_row {X : Type} (f : X -> Z) (l : list X) (p q : X) :
  NoDup (map f l) -> In p l -> In q l -> f p = f q -> p = q.
Proof.
  induction l as [|x l IH]; intros ND Hp Hq E; [destruct Hp|].
  simpl in ND. inversion ND as [|? ? Hx ND']; subst.
  destruct Hp as [->|Hp], Hq as [->|Hq]; auto.
  - exfalso. apply Hx. rewrite E. apply in_map. exact Hq.
  - exfalso. apply Hx. rewrite <- E. apply in_map. exact Hp.
Qed.

Lemma NoDup_map_filter {X : Type} (f : X -> Z) (g : X -> bool) (l : list X) :
  NoDup (map f l) -> NoDup (map f (filter g l)).
Proof.
  induction l as [|x l IH]; intros ND; simpl; [constructor|].
  simpl in ND. inversion ND as [|? ? Hx ND']; subst.
  destruct (g x); simpl; [|auto]. constructor; [|auto].
  intros H. apply Hx. apply in_map_iff in H as (y & E & Hy).
  apply in_map_iff. exists y. split; [exact E|].
  apply filter_In in Hy. tauto.
Qed.

Section ExitRows.

Variable fmp : FMPClient.
Variable uuid4 : Db -> uuid.
Variable numeric_18_6 : Decimal -> Decimal.
Variable format_2f : Decimal -> string.
Variable as_of_ : date.
Variable now : datetime.

Local Abbreviation exit_it := (exit_iteration fmp uuid4 numeric_18_6 format_2f now as_of_).
Local Abbreviation step := (exit_step_row fmp numeric_18_6 now as_of_).

Lemma exit_iteration_rows (db : Db) (p : Position) :
  positions (fst (exit_it db p)) = map (step p) (positions db).
Proof.
  destruct (exit_iteration_positions fmp uuid4 numeric_18_6 format_2f as_of_ now db p)
    as (_ & _ & _ & P). unfold exit_step_row.
  destruct (exit_signal fmp as_of_ p) as [[[c reason] pnl]|].
  - rewrite P. unfold close_position. cbn [positions]. reflexivity.
  - rewrite P. symmetry. apply map_id.
Qed.

Lemma exit_loop_rows (todo : list Position) (db : Db) (n : Z) :
  positions (fst (fold_left (guarded exit_it) todo (db, n)))
  = map (fun q => fold_left (fun r p => step p r) todo q) (positions db).
Proof.
  revert db n. induction todo as [|p todo IH]; intros db n; simpl.
  - symmetry. apply map_id.
  - destruct (guarded exit_it (db, n) p) as [db' n'] eqn:G.
    pose proof (fst_guarded exit_it (db, n) p) as F. rewrite G in F. cbn [fst] in F.
    rewrite IH, F, exit_iteration_rows, map_map. reflexivity.
Qed.

Lemma step_id (p q : Position) : pos_id (step p q) = pos_id q.
Proof.
  unfold exit_step_row. destruct (exit_signal fmp as_of_ p) as [[[c reason] pnl]|];
    [|reflexivity].
  destruct (pos_id q =? pos_id p); reflexivity.
Qed.

Lemma steps_other (todo : list Position) (q : Position) :
  (forall p, In p todo -> pos_id p <> pos_id q) ->
  fold_left (fun r p => step p r) todo q = q.
Proof.
  revert q. induction todo as [|p todo IH]; intros q H; simpl; [reflexivity|].
  assert (E : step p q = q).
  { unfold exit_step_row. destruct (exit_signal fmp as_of_ p) as [[[c reason] pnl]|];
      [|reflexivity].
    destruct (pos_id q =? pos_id p) eqn:X; [|reflexivity].
    apply Z.eqb_eq in X. exfalso. apply (H p); [left; reflexivity | congruence]. }
  rewrite E. apply IH. intros p' Hp'. apply H. right. exact Hp'.
Qed.

Lemma steps_self (todo : list Position) (q : Position) :
  NoDup (map pos_id todo) -> In q todo ->
  fold_left (fun r p => step p r) todo q = step q q.
Proof.
  induction todo as [|p todo IH]; intros ND Hq; [destruct Hq|].
  simpl in ND. inversion ND as [|? ? Hp ND']; subst. simpl.
  destruct Hq as [->|Hq].
  - apply steps_other. intros p' Hp' E. apply Hp. rewrite step_id in E.
    rewrite <- E. apply in_map. exact Hp'.
  - assert (E : step p q = q).
    { unfold exit_step_row. destruct (exit_signal fmp as_of_ p) as [[[c reason] pnl]|];
        [|reflexivity].
      destruct (pos_id q =? pos_id p) eqn:X; [|reflexivity].
      apply Z.eqb_eq in X. exfalso. apply Hp. rewrite <- X. apply in_map. exact Hq. }
    rewrite E. apply IH; assumption.
Qed.


End ExitRows.


(** ** The entry scan only appends *)

Section EntryRows.

Variable fmp : FMPClient.
Variable cache_ttl : timedelta.
Variable uuid4 : Db -> uuid.
Variable numeric_18_6 : Decimal -> Decimal.
Variable format_2f : Decimal -> string.
Variable as_of_ : date.
Variable now : datetime.

Local Abbreviation entry_it := (entry_iteration fmp uuid4 numeric_18_6 format_2f now as_of_).

Local Abbreviation appends := (entry_appends fmp numeric_18_6 as_of_).

Lemma appends_refl (R : string -> Prop) (db db' : Db) :
  positions db' = positions db -> alerts db' = alerts db -> appends R db db'.
Proof.
  intros P A. exists [], []. rewrite P, A, !app_nil_r. auto.
Qed.

Lemma appends_trans (R : string -> Prop) (a b c : Db) :
  appends R a b -> appends R b c -> appends R a c.
Proof.
  intros (p1 & a1 & P1 & A1 & FP1 & FA1) (p2 & a2 & P2 & A2 & FP2 & FA2).
  exists (p1 ++ p2)%list, (a1 ++ a2)%list.
  rewrite P2, P1, A2, A1, <- !app_assoc.
  split; [reflexivity|]. split; [reflexivity|].
  split; apply Forall_app; auto.
Qed.

Lemma entry_iteration_appends (R : string -> Prop) (db : Db) (x : string) :
  R x -> appends R db (fst (entry_it db x)).
Proof.
  intros Rx. destruct (entry_signal fmp as_of_ x) as [[c r]|] eqn:E.
  - rewrite (entry_iteration_fired fmp uuid4 numeric_18_6 format_2f as_of_ now db x c r E).
    cbv zeta.
    assert (S1 : appends R db (insert_position uuid4 numeric_18_6 now db x as_of_ c)).
    { unfold insert_position.
      destruct (existsb _ (positions db)); [apply appends_refl; reflexivity|].
      eexists [_], []. cbn [positions alerts]. rewrite app_nil_r.
      split; [reflexivity|]. split; [reflexivity|]. split; [|constructor].
      constructor; [|constructor]. split; [|exact Rx].
      unfold entered_row. cbn. repeat (split; [reflexivity|]). eauto. }
    destruct (_format_entry_message format_2f x as_of_ r c) as [msg|e]; cbn [fst];
      [|exact S1].
    eapply appends_trans; [exact S1|].
    unfold insert_alert.
    destruct (existsb _ (alerts _)); cbn [fst]; [apply appends_refl; reflexivity|].
    eexists [], [_]. cbn [positions alerts]. rewrite app_nil_r.
    split; [reflexivity|]. split; [reflexivity|]. split; [constructor|].
    constructor; [|constructor]. split; [|exact Rx].
    unfold entry_alert_row. cbn. repeat (split; [reflexivity|]). rewrite E. discriminate.
  - destruct (entry_iteration_idle fmp uuid4 numeric_18_6 format_2f as_of_ now db x E)
      as [-> _]. apply appends_refl; reflexivity.
Qed.

Lemma entry_loop_appends (R : string -> Prop) (l : list string) (db : Db) (n : Z) :
  Forall R l -> appends R db (fst (fold_left (guarded entry_it) l (db, n))).
Proof.
  revert db n. induction l as [|x l IH]; intros db n HR; simpl.
  - apply appends_refl; reflexivity.
  - inversion HR as [|? ? Rx HR']; subst.
    destruct (guarded entry_it (db, n) x) as [db' n'] eqn:G.
    pose proof (fst_guarded entry_it (db, n) x) as F. rewrite G in F. cbn [fst] in F.
    eapply appends_trans; [|apply IH; exact HR'].
    rewrite F. apply entry_iteration_appends. exact Rx.
Qed.

(** The entry scan, whether it returns or raises, leaves every position and
    every alert that was there as it was and in its place, and adds rows
    after them only: open positions for [as_of_] without exit fields, and
    unsent ENTRY alerts under their event key, each on a symbol that the
    universe lists, that reports earnings on the date and whose entry
    signal fires; the price of a new position is the close of the date as
    the column keeps it. *)
Theorem entry_scan_appends (db : Db) :
  appends (fun x => exists symbols es,
                      snd (get_sp500_symbols fmp cache_ttl now db) = Ok symbols
                      /\ fmp_get_earnings_calendar fmp as_of_ = Ok es
                      /\ In x symbols /\ In x es)
          db (fst (scan_entries fmp cache_ttl uuid4 numeric_18_6 format_2f now db as_of_)).
Proof.
  unfold scan_entries.
  destruct (get_sp500_symbols_frame fmp cache_ttl now db) as [P A].
  destruct (get_sp500_symbols fmp cache_ttl now db) as [db1 o]. cbn [fst snd] in *.
  destruct o as [[|s symbols]|e]; cbn [fst]; try (apply appends_refl; assumption).
  destruct (fmp_get_earnings_calendar fmp as_of_) as [es|e]; cbn [fst];
    [|apply appends_refl; assumption].
  eapply appends_trans; [apply appends_refl; eassumption|].
  pose proof (entry_loop_appends
                (fun x => exists symbols0 es0,
                            Ok (s :: symbols) = Ok symbols0 /\ Ok es = Ok es0
                            /\ In x symbols0 /\ In x es0)
                (filter (fun s0 => existsb (String.eqb s0) (s :: symbols)) es) db1 0) as L.
  destruct (fold_left _ _ _) as [db2 k]. cbn [fst] in L. apply L.
  apply Forall_forall. intros x Hx. apply filter_In in Hx as [Hes Hu].
  exists (s :: symbols), es. split; [reflexivity|]. split; [reflexivity|].
  split; [|exact Hes].
  apply existsb_exists in Hu as (y & Hy & Ey). apply String.eqb_eq in Ey. subst y.
  exact Hy.
Qed.

End EntryRows.

(** ** The pending alerts *)

Lemma insert_by_created_at_in (a b : Alert) (l : list Alert) :
  In b (insert_by_created_at a l) <-> b = a \/ In b l.
Proof.
  induction l as [|c l IH]; simpl.
  - split; [intros [H|[]]; auto | intros [H|[]]; auto].
  - destruct (created_at a <=? created_at c); simpl.
    + split; [intros [H|[H|H]]; auto | intros [H|[H|H]]; auto].
    + rewrite IH. split; [intros [H|[H|H]]; auto | intros [H|[H|H]]; auto].
Qed.

Lemma order_by_created_at_in (b : Alert) (l : list Alert) :
  In b (order_by_created_at l) <-> In b l.
Proof.
  induction l as [|a l IH]; simpl; [reflexivity|].
  rewrite insert_by_created_at_in, IH. split; intros [H|H]; auto.
Qed.

Lemma insert_by_created_at_length (a : Alert) (l : list Alert) :
  List.length (insert_by_created_at a l) = S (List.length l).
Proof.
  induction l as [|c l IH]; simpl; [reflexivity|].
  destruct (created_at a <=? created_at c); simpl; [reflexivity | now rewrite IH].
Qed.

Lemma order_by_created_at_length (l : list Alert) :
  List.length (order_by_created_at l) = List.length l.
Proof.
  induction l as [|a l IH]; simpl; [reflexivity|].
  now rewrite insert_by_created_at_length, IH.
Qed.

Lemma insert_by_created_at_sorted (a : Alert) (l : list Alert) :
  sorted_created_at l -> sorted_created_at (insert_by_created_at a l).
Proof.
  induction l as [|c l IH]; simpl.
  - intros _. split; [intros b []|exact I].
  - intros [Hc Hl]. destruct (created_at a <=? created_at c) eqn:E.
    + apply Z.leb_le in E. simpl. split; [|split; assumption].
      intros b [<-|Hb]; [exact E|]. specialize (Hc b Hb). lia.
    + apply Z.leb_gt in E. simpl. split; [|apply IH; exact Hl].
      intros b Hb. apply insert_by_created_at_in in Hb as [->|Hb]; [lia | auto].
Qed.

Lemma order_by_created_at_sorted (l : list Alert) :
  sorted_created_at (order_by_created_at l).
Proof.
  induction l as [|a l IH]; simpl; [exact I|].
  apply insert_by_created_at_sorted. exact IH.
Qed.

Lemma sorted_split (l1 l2 : list Alert) :
  sorted_created_at (l1 ++ l2) ->
  sorted_created_at l1
  /\ forall a b, In a l1 -> In b l2 -> created_at a <= created_at b.
Proof.
  induction l1 as [|x l1 IH]; simpl.
  - intros _. split; [exact I | intros a b []].
  - intros [Hx Hs]. destruct (IH Hs) as [S1 S2]. split.
    + split; [|exact S1]. intros b Hb. apply Hx. apply in_or_app. auto.
    + intros a b [<-|Ha] Hb; [apply Hx; apply in_or_app; auto | auto].
Qed.

Lemma sorted_oldest_first (l : list Alert) : sorted_created_at l -> oldest_first l.
Proof.
  induction l as [|x l IH]; intros S i j a b Hij Ha Hb.
  - destruct i; discriminate Ha.
  - destruct S as [Hx Hs]. destruct j as [|j]; [lia|]. simpl in Hb.
    destruct i as [|i]; simpl in Ha.
    + injection Ha as <-. apply Hx. eapply nth_error_In; eauto.
    + apply (IH Hs i j a b); [lia | assumption | assumption].
Qed.

(** The listing of the route: every row listed is an unsent alert of the
    table; at most [limit] rows are listed, oldest first; an unsent alert
    that is left out is no older than every row listed; and nothing is left
    out when the limit covers the unsent alerts. The responses carry the id,
    type, symbol, date and message of the rows, in their order. *)
Theorem pending_listing (limit : Z) (db : Db) :
  0 <= limit ->
  let rows := pending_rows limit db in
  (forall a, In a rows -> In a (alerts db) /\ sent_at a = None)
  /\ Z.of_nat (List.length rows) <= limit
  /\ oldest_first rows
  /\ (forall a b, In a (alerts db) -> sent_at a = None -> ~ In a rows ->
                  In b rows -> created_at b <= created_at a)
  /\ (Z.of_nat (List.length (filter unsent (alerts db))) <= limit ->
      forall a, In a (alerts db) -> sent_at a = None -> In a rows)
  /\ map ar_id (get_pending_alerts limit db) = map alert_id rows
  /\ map ar_message (get_pending_alerts limit db) = map message rows.
Proof.
  intros Hl. cbv zeta. unfold pending_rows.
  set (sorted := order_by_created_at (filter unsent (alerts db))).
  set (k := Z.to_nat limit).
  assert (Hmem : forall a, In a sorted <-> In a (alerts db) /\ sent_at a = None).
  { intros a. unfold sorted. rewrite order_by_created_at_in, filter_In.
    unfold unsent. destruct (sent_at a); split; intros [H1 H2]; auto; discriminate. }
  pose proof (order_by_created_at_sorted (filter unsent (alerts db))) as HS. fold sorted in HS.
  rewrite <- (firstn_skipn k sorted) in HS. apply sorted_split in HS as [S1 S2].
  refine (conj _ (conj _ (conj _ (conj _ (conj _ (conj _ _)))))).
  - intros a Ha. apply Hmem. rewrite <- (firstn_skipn k sorted). apply in_or_app. auto.
  - rewrite length_firstn. unfold k. lia.
  - apply sorted_oldest_first. exact S1.
  - intros a b Ha Hs Hn Hb. apply S2; [exact Hb|].
    assert (Hin : In a sorted) by (apply Hmem; auto).
    rewrite <- (firstn_skipn k sorted) in Hin. apply in_app_or in Hin as [H|H];
      [contradiction | exact H].
  - intros Hall a Ha Hs. rewrite firstn_all2; [apply Hmem; auto|].
    unfold sorted. rewrite order_by_created_at_length. unfold k. lia.
  - unfold get_pending_alerts, pending_rows. fold sorted k. rewrite map_map. reflexivity.
  - unfold get_pending_alerts, pending_rows. fold sorted k. rewrite map_map. reflexivity.
Qed.

Lemma pending_listing_witness :
  let a := mkAlert 7 "ENTRY|AAPL|2025-01-15" "ENTRY" "AAPL" (mkdate 2025 1 15) "m" 100 None in
  let b := mkAlert 9 "ENTRY|MSFT|2025-01-15" "ENTRY" "MSFT" (mkdate 2025 1 15) "m" 50 None in
  let c := mkAlert 8 "ENTRY|GOOG|2025-01-15" "ENTRY" "GOOG" (mkdate 2025 1 15) "m" 10 (Some 60) in
  let db := mkDb [] [a; b; c] [] in
  map ar_id (get_pending_alerts 200 db) = [9; 7]
  /\ Z.of_nat (List.length (pending_rows 1 db)) <= 1.
Proof.
  intros a b c db. split; [reflexivity|].
  exact (proj1 (proj2 (pending_listing 1 db ltac:(lia)))).
Defined.

(** Once [mark_alert_sent] has returned for an id, with [Alert.id] the
    primary key, the listing no longer shows that id, whatever the limit;
    and an alert with another id is listed after the call exactly if it
    was listed before. *)
Theorem marked_alert_leaves_listing
  (now : datetime) (db : Db) (id : uuid) (resp : MarkSentResponse) (limit : Z) :
  alerts_pk db ->
  snd (mark_alert_sent now db id) = Ok resp ->
  let db' := fst (mark_alert_sent now db id) in
  ~ In id (map ar_id (get_pending_alerts limit db'))
  /\ (forall a, alert_id a <> id ->
                (In a (alerts db') /\ sent_at a = None
                 <-> In a (alerts db) /\ sent_at a = None))
  /\ (forall a, alert_id a <> id ->
                (In a (pending_rows limit db') ->
                 In a (alerts db) /\ sent_at a = None)).
Proof.
  intros PK Hok. cbv zeta.
  unfold mark_alert_sent in *.
  destruct (filter (fun a => alert_id a =? id) (alerts db)) as [|x [|y l]] eqn:F;
    cbn [scalar_one_or_none] in *; try discriminate.
  assert (Hx : In x (alerts db) /\ alert_id x = id).
  { assert (H : In x (filter (fun a => alert_id a =? id) (alerts db)))
      by (rewrite F; left; reflexivity).
    apply filter_In in H as [H1 H2]. apply Z.eqb_eq in H2. auto. }
  destruct Hx as [Hx Hid].
  assert (Hmem : forall db', alerts db' = match sent_at x with
                                         | Some _ => alerts db
                                         | None => update_sent_at (alerts db) id now
                                         end ->
            (forall a, In a (alerts db') -> alert_id a = id -> sent_at a <> None)
            /\ (forall a, alert_id a <> id -> (In a (alerts db') <-> In a (alerts db)))).
  { intros db' E. rewrite E. destruct (sent_at x) as [t|] eqn:Sx.
    - split; [|reflexivity]. intros a Ha Hida.
      assert (a = x) by (eapply (pk_same_row alert_id); eauto; congruence).
      subst a. congruence.
    - split.
      + intros a Ha Hida. unfold update_sent_at in Ha.
        apply in_map_iff in Ha as (a0 & E0 & Ha0).
        destruct (alert_id a0 =? id) eqn:X.
        * subst a. discriminate.
        * subst a0. apply Z.eqb_neq in X. contradiction.
      + intros a Hne. unfold update_sent_at. rewrite in_map_iff. split.
        * intros (a0 & E0 & Ha0). destruct (alert_id a0 =? id) eqn:X.
          -- subst a. cbn in Hne. apply Z.eqb_eq in X. contradiction.
          -- subst a0. exact Ha0.
        * intros Ha. exists a. split; [|exact Ha].
          destruct (alert_id a =? id) eqn:X; [|reflexivity].
          apply Z.eqb_eq in X. contradiction. }
  set (db' := fst (match sent_at x with
                   | Some t => (db, Ok (mkMarkSent true (alert_id x) t))
                   | None => (mkDb (positions db) (update_sent_at (alerts db) id now)
                                (symbols_cache db),
                              Ok (mkMarkSent true (alert_id x) now))
                   end)).
  assert (E : alerts db' = match sent_at x with
                           | Some _ => alerts db
                           | None => update_sent_at (alerts db) id now
                           end).
  { unfold db'. destruct (sent_at x); reflexivity. }
  destruct (Hmem db' E) as [M1 M2].
  assert (Hrows : forall a, In a (pending_rows limit db') ->
                            In a (alerts db') /\ sent_at a = None).
  { intros a Ha. unfold pending_rows in Ha. assert (Ha' : In a (order_by_created_at (filter unsent (alerts db')))).
    { rewrite <- (firstn_skipn (Z.to_nat limit)). apply in_or_app. left. exact Ha. }
    clear Ha. rename Ha' into Ha.
    apply (proj1 (order_by_created_at_in _ _)) in Ha. apply filter_In in Ha as [H1 H2].
    unfold unsent in H2. destruct (sent_at a); [discriminate | auto]. }
  split; [|split].
  - intros Hin. unfold get_pending_alerts in Hin. rewrite map_map in Hin. cbn in Hin.
    apply in_map_iff in Hin as (a & Hida & Ha).
    destruct (Hrows a Ha) as [H1 H2]. exact (M1 a H1 Hida H2).
  - intros a Hne. rewrite (M2 a Hne). reflexivity.
  - intros a Hne Ha. destruct (Hrows a Ha) as [H1 H2]. split; [|exact H2].
    apply (M2 a Hne). exact H1.
Qed.

Lemma marked_alert_leaves_listing_witness :
  let a := mkAlert 7 "ENTRY|AAPL|2025-01-15" "ENTRY" "AAPL" (mkdate 2025 1 15) "m" 100 None in
  let b := mkAlert 9 "ENTRY|MSFT|2025-01-15" "ENTRY" "MSFT" (mkdate 2025 1 15) "m" 50 None in
  let db := mkDb [] [a; b] [] in
  ~ In 7 (map ar_id (get_pending_alerts 200 (fst (mark_alert_sent 300 db 7)))).
Proof.
  intros a b db.
  assert (PK : alerts_pk db).
  { unfold alerts_pk, db. simpl.
    constructor; [intros [H|[]]; discriminate H|].
    constructor; [intros []|constructor]. }
  exact (proj1 (marked_alert_leaves_listing 300 db 7 (mkMarkSent true 7 300) 200 PK eq_refl)).
Defined.

(** ** Decimal arithmetic: the percentages of the messages *)

Lemma ndigits_le (a k : Z) : 0 <= a < 10 ^ k -> 1 <= k -> ndigits a <= k.
Proof.
  intros [H0 Hk] K. destruct (ndigits_spec a H0) as (N1 & N2 & N3).
  destruct (Z.eq_dec a 0) as [->|Hne]; [change (ndigits 0) with 1; lia|].
  specialize (N3 ltac:(lia)).
  destruct (Z.le_gt_cases (ndigits a) k) as [L|G]; [exact L|]. exfalso.
  assert (10 ^ k <= 10 ^ (ndigits a - 1)) by (apply Z.pow_le_mono_r; lia). lia.
Qed.

(** [_fix] raises on overflow only: below the top exponent it returns. *)
Lemma fix_returns (d : Decimal) :
  ndigits (Z.abs (coef d)) + expo d - prec < Etop -> exists d', _fix d = Ok d'.
Proof.
  intros H. unfold _fix. cbv zeta.
  destruct (Z.abs (coef d) =? 0); [eauto|].
  unfold Etiny, Etop, Emin, Emax, prec in *.
  destruct (_ >? _) eqn:E1; [apply Z.gtb_lt in E1; lia|].
  destruct (expo d <? _); [|eauto].
  match goal with |- context [if ?b >? ?t then Raise Overflow else _] =>
    destruct (b >? t) eqn:E2 end; [|eauto].
  exfalso. apply Z.gtb_lt in E2.
  destruct (_ >? 28) in E2; destruct (_ <? _) in E2; lia.
Qed.

(** In the normal range [_fix] gives at most 28 digits, at an exponent
    that is the one given or makes up for the digits dropped. *)
Lemma fix_bounds (d : Decimal) :
  coef d <> 0 -> Etiny <= expo d ->
  ndigits (Z.abs (coef d)) + expo d - prec < Etop ->
  exists d', _fix d = Ok d' /\ Z.abs (coef d') < 10 ^ prec
             /\ expo d' <= Z.max (expo d) (ndigits (Z.abs (coef d)) + expo d).
Proof.
  intros Hnz Hlo Hhi.
  destruct (ndigits_spec (Z.abs (coef d)) (Z.abs_nonneg _)) as (N1 & N2 & N3).
  specialize (N3 ltac:(lia)).
  set (n := ndigits (Z.abs (coef d))) in *.
  destruct (Z.le_gt_cases n prec) as [Short|Long].
  - exists d. split; [|split; [|lia]].
    + unfold _fix. cbv zeta. fold n.
      destruct (Z.abs (coef d) =? 0) eqn:E0; [apply Z.eqb_eq in E0; lia|].
      unfold Etiny, Etop, Emin, Emax, prec in *.
      destruct (_ >? _) eqn:E1; [apply Z.gtb_lt in E1; lia|].
      match goal with |- context [expo d <? ?em] => set (exp_min := em) end.
      assert (Hem : exp_min <= expo d) by (unfold exp_min; destruct (_ <? _); lia).
      destruct (expo d <? exp_min) eqn:E3; [apply Z.ltb_lt in E3; lia | reflexivity].
    + eapply Z.lt_le_trans; [exact N2|]. apply Z.pow_le_mono_r; lia.
  - destruct (fix_long d n eq_refl ltac:(lia)) as (c' & e' & Hfix & He' & Hval & Hc').
    { unfold Etiny, Etop, Emin, Emax, prec in *. lia. }
    eexists. split; [exact Hfix|]. cbn [coef expo].
    assert (Hc : Z.abs (Z.sgn (coef d) * c') = c').
    { destruct (Z.sgn_spec (coef d)) as [[? S]|[[? S]|[? S]]]; rewrite S; lia. }
    rewrite Hc. split; [lia|].
    destruct (round_half_even_bounds (Z.abs (coef d)) (n - prec) 0 (10 ^ prec)
                ltac:(lia) (Z.abs_nonneg _)) as [_ Hi].
    assert (P : 10 ^ prec * 10 ^ (n - prec) = 10 ^ n).
    { rewrite <- Z.pow_add_r by (unfold prec in *; lia). f_equal. lia. }
    specialize (Hi ltac:(lia)). rewrite <- Hval in Hi.
    set (k := e' - (expo d + (n - prec))) in *.
    assert (Hk : k <= prec).
    { destruct (Z.le_gt_cases k prec) as [L|G]; [exact L|]. exfalso.
      assert (10 ^ (prec + 1) <= 10 ^ k) by (apply Z.pow_le_mono_r; unfold prec in *; lia).
      assert (10 ^ prec < 10 ^ (prec + 1)) by (apply Z.pow_lt_mono_r; unfold prec; lia).
      assert (10 ^ k <= c' * 10 ^ k) by nia. lia. }
    unfold k in Hk. lia.
Qed.

(** The difference [q - 1] of a quotient of plain prices: returned, with at
    most 28 digits and an exponent far below the top. *)
Lemma sub_one_bounds (q : Decimal) :
  0 < coef q < 10 ^ 28 -> -900000 <= expo q <= 900000 ->
  exists r, dec_sub q dec_one = Ok r
            /\ Z.abs (coef r) < 10 ^ 28 /\ expo r <= 900028.
Proof.
  destruct q as [c e]. cbn [coef expo]. intros Hc He.
  unfold dec_sub, dec_one. cbn [coef expo].
  set (e0 := Z.min e 0).
  assert (He0 : e0 <= e /\ e0 <= 0 /\ -900000 <= e0) by (unfold e0; lia).
  set (D := c * 10 ^ (e - e0) - 1 * 10 ^ (0 - e0)).
  destruct (Z.eq_dec D 0) as [E0|E0].
  - rewrite E0. unfold _fix. cbn [coef expo]. simpl Z.abs. simpl (0 =? 0). cbv iota.
    eexists. split; [reflexivity|]. cbn [coef expo].
    unfold Etiny, Emin, Emax, prec. split; [vm_compute; reflexivity | lia].
  - pose proof (pow10_pos (e - e0) ltac:(lia)) as P1.
    pose proof (pow10_pos (0 - e0) ltac:(lia)) as P2.
    assert (HD : Z.abs D < 10 ^ (Z.max (28 + (e - e0)) (1 - e0))).
    { assert (B1 : c * 10 ^ (e - e0) < 10 ^ (28 + (e - e0))).
      { rewrite Z.pow_add_r by lia. apply Z.mul_lt_mono_pos_r; lia. }
      assert (B2 : 10 ^ (0 - e0) < 10 ^ (1 - e0)) by (apply Z.pow_lt_mono_r; lia).
      assert (B3 : 10 ^ (28 + (e - e0)) <= 10 ^ (Z.max (28 + (e - e0)) (1 - e0)))
        by (apply Z.pow_le_mono_r; lia).
      assert (B4 : 10 ^ (1 - e0) <= 10 ^ (Z.max (28 + (e - e0)) (1 - e0)))
        by (apply Z.pow_le_mono_r; lia).
      unfold D. clear - B1 B2 B3 B4 P1 P2 Hc. nia. }
    assert (Hn : ndigits (Z.abs D) <= Z.max (28 + (e - e0)) (1 - e0)).
    { apply ndigits_le; [split; [apply Z.abs_nonneg | exact HD] | lia]. }
    destruct (fix_bounds (mkDec D e0)) as (r & Hfix & Hrc & Hre).
    + exact E0.
    + cbn [expo]. unfold Etiny, Emin, prec. lia.
    + cbn [coef expo]. unfold Etop, Emax, prec. lia.
    + exists r. split; [exact Hfix|]. split; [exact Hrc|].
      cbn [coef expo] in Hre. lia.
Qed.

(** The percentage [x * 100] of such a difference is returned. *)
Lemma percent_returns (r : Decimal) :
  Z.abs (coef r) < 10 ^ 28 -> expo r <= 900028 ->
  exists pct, dec_mul r (mkDec 100 0) = Ok pct.
Proof.
  intros Hc He. unfold dec_mul. cbn [coef expo]. apply fix_returns. cbn [coef expo].
  assert (Hn : ndigits (Z.abs (coef r * 100)) <= 30).
  { apply ndigits_le; [|lia]. split; [apply Z.abs_nonneg|].
    rewrite Z.abs_mul. change (Z.abs 100) with 100.
    change (10 ^ 30) with (10 ^ 28 * 100). lia. }
  unfold Etop, Emax, prec. lia.
Qed.

(** The return of two plain prices and its percentage are computed without
    raising. *)
Lemma return_percent (a p : Decimal) :
  plain_price a -> plain_price p ->
  exists r pct, earnings_day_return a p = Ok r /\ dec_mul r (mkDec 100 0) = Ok pct.
Proof.
  intros Ha Hp.
  destruct (quotient_threshold a p 50 Ha Hp ltac:(lia)) as (q & Hq & Hc & He & _).
  destruct (sub_one_bounds q Hc He) as (r & Hr & Hrc & Hre).
  destruct (percent_returns r Hrc Hre) as (pct & Hpct).
  exists r, pct. split; [|exact Hpct].
  unfold earnings_day_return. rewrite Hq. exact Hr.
Qed.

(** ** Every signal on plain prices is acted on *)

Section Completeness.

Variable fmp : FMPClient.
Variable cache_ttl : timedelta.
Variable uuid4 : Db -> uuid.
Variable numeric_18_6 : Decimal -> Decimal.
Variable format_2f : Decimal -> string.
Variable as_of_ : date.
Variable now : datetime.

Local Abbreviation exit_it := (exit_iteration fmp uuid4 numeric_18_6 format_2f now as_of_).

(** The signal of the entry scan on plain prices, and its message. *)
Lemma entry_signal_plain (x : string) (a p : Decimal) :
  fmp_get_price_data_for_date fmp x as_of_ = Ok (Some (a, p)) ->
  plain_price a -> plain_price p ->
  ((-30 # 100) <= dec_value a / dec_value p - 1
   /\ dec_value a / dec_value p - 1 <= (-5 # 100))%Q ->
  exists r msg, entry_signal fmp as_of_ x = Some (a, r)
                /\ _format_entry_message format_2f x as_of_ r a = Ok msg.
Proof.
  intros Hf Ha Hp [Lo Hi].
  destruct (return_threshold a p Ha Hp) as (r & Hr & H).
  destruct (return_percent a p Ha Hp) as (r' & pct & Hr' & Hpct).
  assert (r' = r) by congruence. subst r'.
  destruct (H 70 ltac:(lia)) as [_ L]. destruct (H 95 ltac:(lia)) as [U _].
  change (70 - 100) with (-30) in L. change (95 - 100) with (-5) in U.
  exists r. eexists. split.
  - unfold entry_signal. rewrite Hf, Hr.
    unfold entry_condition, ENTRY_RETURN_MIN, ENTRY_RETURN_MAX.
    rewrite (proj2 L Lo), (proj2 U Hi). reflexivity.
  - unfold _format_entry_message. rewrite Hpct. reflexivity.
Qed.

(** The signal of the exit scan on plain prices, and its message. *)
Lemma exit_signal_plain (p : Position) (c : Decimal) :
  fmp_get_close_price fmp (pos_symbol p) as_of_ = Ok (Some c) ->
  plain_price (pos_entry_price p) -> plain_price c ->
  exists pnl,
    (forall reason, exists msg,
       _format_exit_message format_2f (pos_symbol p) as_of_ (ExitReason_value reason)
         pnl c (days_between as_of_ (pos_entry_date p)) = Ok msg)
    /\ ((dec_value c / dec_value (pos_entry_price p) - 1 <= (-10 # 100))%Q ->
        exit_signal fmp as_of_ p = Some (c, STOP_LOSS, pnl))
    /\ (~ (dec_value c / dec_value (pos_entry_price p) - 1 <= (-10 # 100))%Q ->
        50 <= days_between as_of_ (pos_entry_date p) ->
        exit_signal fmp as_of_ p = Some (c, TIME_EXIT, pnl))
    /\ (~ (dec_value c / dec_value (pos_entry_price p) - 1 <= (-10 # 100))%Q ->
        days_between as_of_ (pos_entry_date p) < 50 ->
        exit_signal fmp as_of_ p = None).
Proof.
  intros Hf He Hc.
  destruct (return_threshold c (pos_entry_price p) Hc He) as (pnl & Hr & H).
  destruct (return_percent c (pos_entry_price p) Hc He) as (r' & pct & Hr' & Hpct).
  assert (r' = pnl) by congruence. subst r'.
  destruct (H 90 ltac:(lia)) as [Stop _]. change (90 - 100) with (-10) in Stop.
  assert (D : forall h, exit_decision (pos_entry_price p) c h
                        = Ok (if dec_le pnl STOP_LOSS_THRESHOLD then Some STOP_LOSS
                              else if MAX_HOLDING_DAYS <=? h then Some TIME_EXIT
                              else None, pnl)).
  { intros h. unfold exit_decision. unfold earnings_day_return in Hr.
    destruct (dec_div c (pos_entry_price p)) as [q|x]; [|discriminate].
    cbn [bind] in *. rewrite Hr. reflexivity. }
  exists pnl. split; [|split; [|split]].
  - intros reason. unfold _format_exit_message. rewrite Hpct. eexists. reflexivity.
  - intros X. unfold exit_signal. rewrite Hf, D.
    unfold STOP_LOSS_THRESHOLD. rewrite (proj2 Stop X). reflexivity.
  - intros N T. unfold exit_signal. rewrite Hf, D. unfold STOP_LOSS_THRESHOLD.
    destruct (dec_le pnl (mkDec (-10) (-2))) eqn:E;
      [exfalso; apply N, Stop; reflexivity|].
    unfold MAX_HOLDING_DAYS. rewrite (proj2 (Z.leb_le _ _) T). reflexivity.
  - intros N T. unfold exit_signal. rewrite Hf, D. unfold STOP_LOSS_THRESHOLD.
    destruct (dec_le pnl (mkDec (-10) (-2))) eqn:E;
      [exfalso; apply N, Stop; reflexivity|].
    unfold MAX_HOLDING_DAYS. rewrite (proj2 (Z.leb_gt _ _) T). reflexivity.
Qed.

(** The alert of a position whose exit fires is there after the loop. *)
Lemma exit_loop_alert (todo : list Position) (db : Db) (n : Z) (p : Position)
  (c : Decimal) (reason : ExitReason) (pnl : Decimal) (msg : string) :
  In p todo ->
  exit_signal fmp as_of_ p = Some (c, reason, pnl) ->
  _format_exit_message format_2f (pos_symbol p) as_of_ (ExitReason_value reason)
    pnl c (days_between as_of_ (pos_entry_date p)) = Ok msg ->
  has_alert (fst (fold_left (guarded exit_it) todo (db, n)))
    (_generate_exit_event_key (pos_symbol p) (pos_entry_date p) as_of_
       (ExitReason_value reason)) = true.
Proof.
  intros Hin E M. revert db n. induction todo as [|p0 todo IH]; intros db n;
    [destruct Hin|]. simpl.
  destruct (guarded exit_it (db, n) p0) as [db' n'] eqn:G.
  pose proof (fst_guarded exit_it (db, n) p0) as F. rewrite G in F. cbn [fst] in F.
  destruct Hin as [->|Hin]; [|apply IH; exact Hin].
  destruct (exit_loop_keeps fmp uuid4 numeric_18_6 format_2f as_of_ now todo db' n')
    as ([_ La] & _).
  apply La. rewrite F.
  rewrite (exit_iteration_fired fmp uuid4 numeric_18_6 format_2f as_of_ now db p
             c reason pnl E).
  cbv zeta. rewrite M.
  match goal with |- context [insert_alert ?u ?nw ?d ?k ?t ?s ?a ?m] =>
    destruct (insert_alert_le u nw d k t s a m) as (_ & A & _) end.
  exact A.
Qed.



End Completeness.



(** ** The symbol lists of the client *)

Lemma calendar_loop (items : list symbol_item) (acc : list string) :
  fold_left (fun symbols item => match truthy_symbol item with
                                 | Some s => (symbols ++ [s])%list
                                 | None => symbols
                                 end) items acc
  = (acc ++ get_sp500_constituents (SList items))%list.
Proof.
  revert acc. induction items as [|item items IH]; intros acc; simpl.
  - rewrite app_nil_r. reflexivity.
  - rewrite IH. simpl. destruct (truthy_symbol item) as [s|]; simpl.
    + rewrite <- app_assoc. reflexivity.
    + reflexivity.
Qed.

(** The two symbol lists are read off a body the same way: nothing when the
    body is not a list; otherwise the symbols of the records, in the order
    of the body, without the absent and the empty ones. No returned symbol
    is empty, and a symbol is returned as many times as records carry it:
    a body that repeats a symbol gives a list that repeats it. *)
Theorem symbol_lists (data : symbol_body) :
  get_earnings_calendar data = get_sp500_constituents data
  /\ ~ In EmptyString (get_sp500_constituents data)
  /\ (forall s, s <> EmptyString ->
        count_occ string_dec (get_sp500_constituents data) s = records_with s data)
  /\ (data = SOther -> get_sp500_constituents data = []).
Proof.
  split; [|split; [|split]].
  - destruct data as [items|]; [|reflexivity].
    unfold get_earnings_calendar. rewrite calendar_loop. reflexivity.
  - destruct data as [items|]; [|intros []]. simpl.
    induction items as [|item items IH]; simpl; [intros []|].
    intros H. apply in_app_or in H as [H|H]; [|exact (IH H)].
    unfold truthy_symbol in H. destruct (item_symbol item) as [s|]; [|destruct H].
    destruct (String.eqb s EmptyString) eqn:E; [destruct H|].
    destruct H as [H|[]]. subst s. discriminate E.
  - intros s Hs. destruct data as [items|]; [|reflexivity]. simpl.
    induction items as [|item items IH]; simpl; [reflexivity|].
    rewrite count_occ_app, IH. unfold truthy_symbol.
    destruct (item_symbol item) as [s'|]; [|reflexivity].
    destruct (String.eqb s' EmptyString) eqn:E.
    + apply String.eqb_eq in E. subst s'.
      destruct (String.eqb EmptyString s) eqn:E'; [|reflexivity].
      apply String.eqb_eq in E'. congruence.
    + simpl. destruct (string_dec s' s) as [->|N].
      * rewrite String.eqb_refl. reflexivity.
      * destruct (String.eqb s' s) eqn:E'; [|reflexivity].
        apply String.eqb_eq in E'. contradiction.
  - intros ->. reflexivity.
Qed.

(** ** The cache of the universe *)

Lemma insert_symbols_known (now : datetime) (l : list string)
  (rows rows' : list SymbolsCache) (s : string) :
  In s l -> In s (map cache_symbol rows) -> insert_symbols now rows l <> Ok rows'.
Proof.
  revert rows. induction l as [|t l IH]; intros rows Hin Hs; [destruct Hin|].
  simpl. unfold insert_symbol.
  destruct (existsb (fun c => String.eqb (cache_symbol c) t) rows) eqn:E; simpl;
    [discriminate|].
  destruct Hin as [->|Hin].
  - exfalso. apply in_map_iff in Hs as (c & Hc & Hin').
    assert (X : existsb (fun c => String.eqb (cache_symbol c) s) rows = true).
    { apply existsb_exists. exists c. split; [exact Hin'|].
      rewrite Hc. apply String.eqb_refl. }
    congruence.
  - apply (IH _ Hin). rewrite map_app. apply in_or_app. left. exact Hs.
Qed.

Lemma insert_symbols_stamped (now : datetime) (l : list string)
  (rows rows' : list SymbolsCache) :
  insert_symbols now rows l = Ok rows' ->
  rows' = (rows ++ map (fun s => mkSymbolsCache s now) l)%list
  /\ NoDup l.
Proof.
  revert rows. induction l as [|s l IH]; intros rows; simpl.
  - intros H. injection H as <-. rewrite app_nil_r. split; [reflexivity | constructor].
  - unfold insert_symbol.
    destruct (existsb (fun c => String.eqb (cache_symbol c) s) rows) eqn:E; simpl;
      [discriminate|].
    intros H. destruct (IH _ H) as [E' ND]. split.
    + rewrite E', <- app_assoc. reflexivity.
    + constructor; [|exact ND]. intros Hin.
      apply (insert_symbols_known now l _ rows' s Hin) in H; [exact H|].
      rewrite map_app. apply in_or_app. right. left. reflexivity.
Qed.

Lemma insert_symbols_repeated (now : datetime) (l : list string)
  (rows : list SymbolsCache) :
  ~ NoDup l -> insert_symbols now rows l = Raise IntegrityError.
Proof.
  intros ND. destruct (insert_symbols now rows l) as [rows'|e] eqn:E.
  - exfalso. apply ND. exact (proj2 (insert_symbols_stamped now l rows rows' E)).
  - f_equal. revert rows E. clear ND. induction l as [|s l IH]; intros rows; simpl.
    + discriminate.
    + unfold insert_symbol. destruct (existsb _ rows); simpl.
      * intros H. injection H as <-. reflexivity.
      * apply IH.
Qed.

Lemma oldest_stamped (now : datetime) (l : list string) (m : datetime) :
  fold_left (fun m c' => Z.min m (updated_at c'))
    (map (fun s => mkSymbolsCache s now) l) (Z.min m now) = Z.min m now.
Proof.
  induction l as [|s l IH]; simpl; [reflexivity|].
  replace (Z.min (Z.min m now) now) with (Z.min m now) by lia. exact IH.
Qed.

Lemma fresh_stamped (ttl : timedelta) (now now' : datetime) (s : string) (l : list string) :
  cache_is_fresh ttl now' (map (fun s => mkSymbolsCache s now) (s :: l))
  = (now' - now <? ttl).
Proof.
  unfold cache_is_fresh, oldest_updated_at. simpl.
  pose proof (oldest_stamped now l now) as H. rewrite Z.min_id in H. rewrite H.
  reflexivity.
Qed.

(** Whatever branch it takes, [get_sp500_symbols] returns the symbols of
    the cache table it leaves, in the order of the table; it touches no
    position and no alert; and with [symbol] unique in the cache before the
    call the list returned has no repeated symbol. *)
Theorem universe_is_cache
  (fmp : FMPClient) (ttl : timedelta) (now : datetime) (db : Db) (symbols : list string) :
  snd (get_sp500_symbols fmp ttl now db) = Ok symbols ->
  let db' := fst (get_sp500_symbols fmp ttl now db) in
  symbols = map cache_symbol (symbols_cache db')
  /\ positions db' = positions db /\ alerts db' = alerts db
  /\ (NoDup (map cache_symbol (symbols_cache db)) -> NoDup symbols).
Proof.
  unfold get_sp500_symbols. cbv zeta.
  destruct (cache_is_fresh ttl now (symbols_cache db)); cbn [fst snd].
  - intros H. injection H as <-. auto.
  - destruct (fmp_get_sp500_constituents fmp) as [[|s l]|e]; cbn [fst snd].
    + destruct (symbols_cache db) as [|c rest] eqn:C; cbn [fst snd];
        intros H; injection H as <-; rewrite ?C; simpl; auto using NoDup_nil.
    + destruct (insert_symbols now [] (s :: l)) as [rows|e] eqn:I; cbn [fst snd];
        [|discriminate].
      intros H. injection H as <-. cbn [symbols_cache positions alerts].
      destruct (insert_symbols_stamped now (s :: l) [] rows I) as [-> ND].
      rewrite app_nil_l, map_map. cbn [cache_symbol]. rewrite map_id. auto.
    + discriminate.
Qed.

Lemma universe_is_cache_witness :
  map cache_symbol (symbols_cache (fst (get_sp500_symbols demo_fmp 24 30 demo_db)))
  = ["AAPL"; "MSFT"].
Proof.
  symmetry.
  exact (proj1 (universe_is_cache demo_fmp 24 30 demo_db ["AAPL"; "MSFT"] eq_refl)).
Defined.



(** A repeated symbol fails the job. When the cache is stale and the
    answer of the client names a symbol twice, the second INSERT of the
    refresh violates the primary key: [get_sp500_symbols], the entry scan
    and the daily job raise IntegrityError and leave the database as it
    was; the exit scan of that run does not take place. *)
Theorem repeated_symbol_fails_job
  (fmp : FMPClient) (ttl : timedelta) (uuid4 : Db -> uuid)
  (numeric_18_6 : Decimal -> Decimal) (format_2f : Decimal -> string)
  (now : datetime) (db : Db) (as_of_ : date) (symbols : list string) :
  ~ fresh_by_oldest ttl now (symbols_cache db) ->
  fmp_get_sp500_constituents fmp = Ok symbols ->
  ~ NoDup symbols ->
  get_sp500_symbols fmp ttl now db = (db, Raise IntegrityError)
  /\ scan_entries fmp ttl uuid4 numeric_18_6 format_2f now db as_of_
     = (db, Raise IntegrityError)
  /\ run_daily_job fmp ttl uuid4 numeric_18_6 format_2f now db as_of_
     = (db, Raise IntegrityError).
Proof.
  intros NF Hfetch ND.
  assert (E : cache_is_fresh ttl now (symbols_cache db) = false).
  { destruct (cache_is_fresh ttl now (symbols_cache db)) eqn:E; [|reflexivity].
    exfalso. apply NF. apply cache_is_fresh_iff. exact E. }
  assert (G : get_sp500_symbols fmp ttl now db = (db, Raise IntegrityError)).
  { unfold get_sp500_symbols. rewrite E, Hfetch.
    destruct symbols as [|s l]; [exfalso; apply ND; constructor|].
    rewrite (insert_symbols_repeated now (s :: l) [] ND). reflexivity. }
  assert (S : scan_entries fmp ttl uuid4 numeric_18_6 format_2f now db as_of_
              = (db, Raise IntegrityError)).
  { unfold scan_entries. rewrite G. reflexivity. }
  split; [exact G|]. split; [exact S|].
  unfold run_daily_job. rewrite S. reflexivity.
Qed.

Lemma repeated_symbol_fails_job_witness :
  let body := SList [mkSymbolItem (Some "AAPL"); mkSymbolItem None;
                     mkSymbolItem (Some "AAPL")] in
  let fmp := mkFMP (Ok (get_sp500_constituents body)) (fun _ => Ok [])
               (fun _ _ => Ok None) (fun _ _ => Ok None) in
  run_daily_job fmp 24 demo_uuid4 demo_numeric demo_format 30 demo_db (mkdate 2025 1 15)
  = (demo_db, Raise IntegrityError).
Proof.
  intros body fmp.
  assert (NF : ~ fresh_by_oldest 24 30 (symbols_cache demo_db)).
  { intros F. apply cache_is_fresh_iff in F. discriminate F. }
  assert (ND : ~ NoDup ["AAPL"; "AAPL"]).
  { intros H. inversion H as [|? ? Hn _]. apply Hn. left. reflexivity. }
  exact (proj2 (proj2 (repeated_symbol_fails_job fmp 24 demo_uuid4 demo_numeric
                         demo_format 30 demo_db (mkdate 2025 1 15) ["AAPL"; "AAPL"]
                         NF eq_refl ND))).
Defined.

(** ** The price pair of a date *)



(** ** The alerts a run adds *)

Section NewAlerts.

Variable fmp : FMPClient.
Variable cache_ttl : timedelta.
Variable uuid4 : Db -> uuid.
Variable numeric_18_6 : Decimal -> Decimal.
Variable format_2f : Decimal -> string.
Variable as_of_ : date.
Variable now : datetime.

Local Abbreviation entry_it := (entry_iteration fmp uuid4 numeric_18_6 format_2f now as_of_).
Local Abbreviation exit_it := (exit_iteration fmp uuid4 numeric_18_6 format_2f now as_of_).
Local Abbreviation appended := (alerts_appended now as_of_).

Lemma appended_refl (db db' : Db) : alerts db' = alerts db -> appended db db'.
Proof. intros E. exists []. rewrite app_nil_r. split; [exact E | constructor]. Qed.

Lemma appended_trans (a b c : Db) : appended a b -> appended b c -> appended a c.
Proof.
  intros (m1 & A1 & F1) (m2 & A2 & F2). exists (m1 ++ m2)%list.
  rewrite A2, A1, app_assoc. split; [reflexivity | apply Forall_app; auto].
Qed.

Lemma insert_alert_appended (db : Db) (k t s msg : string) :
  t = AlertType_value ENTRY \/ t = AlertType_value EXIT ->
  appended db (fst (insert_alert uuid4 now db k t s as_of_ msg)).
Proof.
  intros Ht. unfold insert_alert. destruct (existsb _ (alerts db)); cbn [fst].
  - apply appended_refl. reflexivity.
  - eexists. split; [reflexivity|]. constructor; [|constructor].
    unfold new_alert_row. cbn [sent_at created_at as_of alert_type]. auto.
Qed.

Lemma entry_iteration_appended (db0 db : Db) (x : string) :
  appended db0 db -> appended db0 (fst (entry_it db x)).
Proof.
  intros H. eapply appended_trans; [exact H|].
  destruct (entry_signal fmp as_of_ x) as [[c r]|] eqn:E.
  - rewrite (entry_iteration_fired fmp uuid4 numeric_18_6 format_2f as_of_ now db x c r E).
    cbv zeta.
    destruct (insert_position_le uuid4 numeric_18_6 now db x as_of_ c) as (_ & _ & A1 & _).
    destruct (_format_entry_message format_2f x as_of_ r c) as [msg|e]; cbn [fst].
    + eapply appended_trans; [apply appended_refl; exact A1|].
      apply insert_alert_appended. left. reflexivity.
    + apply appended_refl. exact A1.
  - destruct (entry_iteration_idle fmp uuid4 numeric_18_6 format_2f as_of_ now db x E)
      as [-> _].
    apply appended_refl. reflexivity.
Qed.

Lemma exit_iteration_appended (db0 db : Db) (p : Position) :
  appended db0 db -> appended db0 (fst (exit_it db p)).
Proof.
  intros H. eapply appended_trans; [exact H|].
  destruct (exit_signal fmp as_of_ p) as [[[c reason] pnl]|] eqn:E.
  - rewrite (exit_iteration_fired fmp uuid4 numeric_18_6 format_2f as_of_ now db p
               c reason pnl E).
    cbv zeta.
    destruct (close_position_le numeric_18_6 now db (pos_id p) as_of_ c
                (ExitReason_value reason)) as (_ & A1 & _).
    destruct (_format_exit_message _ _ _ _ _ _ _) as [msg|e]; cbn [fst].
    + eapply appended_trans; [apply appended_refl; exact A1|].
      apply insert_alert_appended. right. reflexivity.
    + apply appended_refl. exact A1.
  - destruct (exit_iteration_idle fmp uuid4 numeric_18_6 format_2f as_of_ now db p E)
      as [-> _].
    apply appended_refl. reflexivity.
Qed.


End NewAlerts.
